(** * Cart change-detection and reliable-publish pipeline

    A shallow embedding of [near_realtime_ingestion_2.py]: the canonical
    products signature, the change detector working on the persisted
    snapshot, the deterministic event identifier, the publisher with
    bounded retry and dead-letter fallback, and the temp-file-then-rename
    snapshot save.

    Conventions of the embedding.
    - A Python [str] is a [string]; its characters stand for the code
      points 0..255.  JSON numbers are integers ([Z]); floating point
      numbers are outside the model.
    - A Python [dict] parsed from JSON is an association list in insertion
      order; the snapshot's [carts] mapping is a [gmap] keyed by the
      stringified cart id.
    - A Python exception is a value [Raise e] of type [result]; code that
      mutates the snapshot before raising returns the mutated snapshot
      next to the exception. *)

From Equations Require Import Equations.
From Stdlib Require Import ZArith NArith Ascii List Lia Bool.
From Stdlib Require Import DecimalString DecimalZ DecimalPos DecimalFacts.
From stdpp Require Import gmap strings list sorting.

Set Warnings "-register-all,-clear-no-such-hyp".
Local Open Scope Z_scope.

(** ** Python values and exceptions *)

Inductive json : Type :=
| JNull
| JBool (b : bool)
| JInt (z : Z)
| JStr (s : string)
| JList (l : list json)
| JDict (m : list (string * json)).

Abbreviation jdict := (list (string * json)).

Inductive exn : Type :=
| KeyError (key : string)
| TypeError
| OSError.

Inductive result (A : Type) : Type :=
| Ok (a : A)
| Raise (e : exn).
Arguments Ok {A} a.
Arguments Raise {A} e.

#[global] Instance result_ret : MRet result := λ A a, Ok a.
#[global] Instance result_bind : MBind result := λ A B k r,
  match r with
  | Ok a => k a
  | Raise e => Raise e
  end.

Fixpoint rmapM {A B} (f : A → result B) (l : list A) : result (list B) :=
  match l with
  | [] => Ok []
  | x :: l' => y ← f x; ys ← rmapM f l'; Ok (y :: ys)
  end.

(** ** Characters *)

Abbreviation chars := (list ascii).

Definition str (s : string) : chars := String.list_ascii_of_string s.
Definition unstr (cs : chars) : string := String.string_of_list_ascii cs.

Definition dquote : ascii := "034"%char.
Definition squote : ascii := "039"%char.
Definition backslash : ascii := "092"%char.

Definition hex_digit (n : N) : ascii :=
  match n with
  | 0 => "0" | 1 => "1" | 2 => "2" | 3 => "3" | 4 => "4" | 5 => "5"
  | 6 => "6" | 7 => "7" | 8 => "8" | 9 => "9" | 10 => "a" | 11 => "b"
  | 12 => "c" | 13 => "d" | 14 => "e" | _ => "f"
  end%N%char.

Definition hex2 (n : N) : chars := [hex_digit (n / 16); hex_digit (n mod 16)]%N.

(** [str(int)] and the JSON form of an integer: decimal digits, a minus
    sign in front of a negative number. *)
Definition int_repr (z : Z) : chars := str (NilEmpty.string_of_int (Z.to_int z)).

Fixpoint join (sep : chars) (parts : list chars) : chars :=
  match parts with
  | [] => []
  | [p] => p
  | p :: rest => p ++ sep ++ join sep rest
  end.

(** ** [json.dumps]

    [json.dumps(obj, sort_keys=b)] with the default separators and
    [ensure_ascii=True]. *)

(** One character of [py_encode_basestring_ascii]: the table ESCAPE_DCT,
    and [\u00XX] for what is left outside [' '..'~']. *)
Definition escape_char (c : ascii) : chars :=
  let n := N_of_ascii c in
  if Ascii.eqb c dquote then [backslash; dquote]
  else if Ascii.eqb c backslash then [backslash; backslash]
  else if (n =? 8)%N then [backslash; "b"%char]
  else if (n =? 12)%N then [backslash; "f"%char]
  else if (n =? 10)%N then [backslash; "n"%char]
  else if (n =? 13)%N then [backslash; "r"%char]
  else if (n =? 9)%N then [backslash; "t"%char]
  else if (n <? 32)%N || (126 <? n)%N
       then [backslash; "u"%char; "0"%char; "0"%char] ++ hex2 n
  else [c].

Definition encode_basestring_ascii (s : string) : chars :=
  dquote :: flat_map escape_char (str s) ++ [dquote].

(** Stable insertion sort of [(key, value)] pairs on the key, as
    [sorted(dct.items())] does for a dict, whose keys are distinct strings. *)
Fixpoint insert_item {V} (x : string * V) (l : list (string * V)) : list (string * V) :=
  match l with
  | [] => [x]
  | y :: l' => if String.ltb (fst y) (fst x) then y :: insert_item x l' else x :: y :: l'
  end.

Definition sort_items {V} (l : list (string * V)) : list (string * V) :=
  foldr insert_item [] l.

Definition item_sep : chars := str ", ".
Definition key_sep : chars := str ": ".

Definition encode_item (kv : string * chars) : chars :=
  encode_basestring_ascii (fst kv) ++ key_sep ++ snd kv.

Fixpoint dumps (sort_keys : bool) (v : json) : chars :=
  match v with
  | JNull => str "null"
  | JBool true => str "true"
  | JBool false => str "false"
  | JInt z => int_repr z
  | JStr s => encode_basestring_ascii s
  | JList l => str "[" ++ join item_sep (map (dumps sort_keys) l) ++ str "]"
  | JDict m =>
      let items := map (λ kv, match kv with (k, x) => (k, dumps sort_keys x) end) m in
      str "{"
        ++ join item_sep (map encode_item (if sort_keys then sort_items items else items))
        ++ str "}"
  end.

Definition json_dumps (sort_keys : bool) (v : json) : string := unstr (dumps sort_keys v).

(** ** [str()] and [repr()] *)

Definition py_printable (c : ascii) : bool :=
  let n := N_of_ascii c in
  ((32 <=? n) && (n <? 127) || (161 <=? n) && negb (n =? 173))%N.

Definition repr_char (q c : ascii) : chars :=
  let n := N_of_ascii c in
  if Ascii.eqb c q || Ascii.eqb c backslash then [backslash; c]
  else if (n =? 9)%N then [backslash; "t"%char]
  else if (n =? 10)%N then [backslash; "n"%char]
  else if (n =? 13)%N then [backslash; "r"%char]
  else if py_printable c then [c]
  else [backslash; "x"%char] ++ hex2 n.

Definition has_char (c : ascii) (cs : chars) : bool := existsb (Ascii.eqb c) cs.

Definition str_repr (s : string) : chars :=
  let cs := str s in
  let q := if has_char squote cs && negb (has_char dquote cs) then dquote else squote in
  q :: flat_map (repr_char q) cs ++ [q].

Fixpoint py_repr (v : json) : chars :=
  match v with
  | JNull => str "None"
  | JBool true => str "True"
  | JBool false => str "False"
  | JInt z => int_repr z
  | JStr s => str_repr s
  | JList l => str "[" ++ join item_sep (map py_repr l) ++ str "]"
  | JDict m =>
      str "{"
        ++ join item_sep
             (map (λ kv, match kv with (k, x) => str_repr k ++ key_sep ++ py_repr x end) m)
        ++ str "}"
  end.

Definition py_str (v : json) : string :=
  match v with
  | JStr s => s
  | _ => unstr (py_repr v)
  end.

(** ** [hashlib.md5]

    MD5 (RFC 1321) over bytes, 32-bit words as [Z] with the wrap-around
    written out. *)

Module MD5.

Definition wrap (x : Z) : Z := x mod 2 ^ 32.

Definition rotl (x n : Z) : Z :=
  wrap (Z.lor (Z.shiftl x n) (Z.shiftr x (32 - n))).

Definition lnot32 (x : Z) : Z := Z.lxor x 0xffffffff.

Definition shifts : list Z :=
  [7; 12; 17; 22; 7; 12; 17; 22; 7; 12; 17; 22; 7; 12; 17; 22;
   5; 9; 14; 20; 5; 9; 14; 20; 5; 9; 14; 20; 5; 9; 14; 20;
   4; 11; 16; 23; 4; 11; 16; 23; 4; 11; 16; 23; 4; 11; 16; 23;
   6; 10; 15; 21; 6; 10; 15; 21; 6; 10; 15; 21; 6; 10; 15; 21].

Definition sines : list Z :=
  [0xd76aa478; 0xe8c7b756; 0x242070db; 0xc1bdceee;
   0xf57c0faf; 0x4787c62a; 0xa8304613; 0xfd469501;
   0x698098d8; 0x8b44f7af; 0xffff5bb1; 0x895cd7be;
   0x6b901122; 0xfd987193; 0xa679438e; 0x49b40821;
   0xf61e2562; 0xc040b340; 0x265e5a51; 0xe9b6c7aa;
   0xd62f105d; 0x02441453; 0xd8a1e681; 0xe7d3fbc8;
   0x21e1cde6; 0xc33707d6; 0xf4d50d87; 0x455a14ed;
   0xa9e3e905; 0xfcefa3f8; 0x676f02d9; 0x8d2a4c8a;
   0xfffa3942; 0x8771f681; 0x6d9d6122; 0xfde5380c;
   0xa4beea44; 0x4bdecfa9; 0xf6bb4b60; 0xbebfbc70;
   0x289b7ec6; 0xeaa127fa; 0xd4ef3085; 0x04881d05;
   0xd9d4d039; 0xe6db99e5; 0x1fa27cf8; 0xc4ac5665;
   0xf4292244; 0x432aff97; 0xab9423a7; 0xfc93a039;
   0x655b59c3; 0x8f0ccc92; 0xffeff47d; 0x85845dd1;
   0x6fa87e4f; 0xfe2ce6e0; 0xa3014314; 0x4e0811a1;
   0xf7537e82; 0xbd3af235; 0x2ad7d2bb; 0xeb86d391].

(** [n] little-endian bytes of [x]. *)
Fixpoint le_bytes (n : nat) (x : Z) : list Z :=
  match n with
  | O => []
  | S n' => x mod 256 :: le_bytes n' (x / 256)
  end.

Fixpoint le_word (bs : list Z) : Z :=
  match bs with
  | [] => 0
  | b :: bs' => b + 256 * le_word bs'
  end.

Definition pad (msg : list Z) : list Z :=
  let len := Z.of_nat (length msg) in
  let zeros := Z.to_nat ((55 - len) mod 64) in
  msg ++ [0x80] ++ replicate zeros 0 ++ le_bytes 8 ((8 * len) mod 2 ^ 64).

(** The message as 16-word blocks; [pad] makes the length a multiple of 64. *)
Fixpoint words (fuel : nat) (bs : list Z) : list Z :=
  match fuel, bs with
  | S fuel', _ :: _ => le_word (take 4 bs) :: words fuel' (drop 4 bs)
  | _, _ => []
  end.

Fixpoint blocks (fuel : nat) (ws : list Z) : list (list Z) :=
  match fuel, ws with
  | S fuel', _ :: _ => take 16 ws :: blocks fuel' (drop 16 ws)
  | _, _ => []
  end.

Record regs := Regs { ra : Z; rb : Z; rc : Z; rd : Z }.

Definition round (m : list Z) (r : regs) (i : Z) : regs :=
  let '(Regs a b c d) := r in
  let '(f, g) :=
    if i <? 16 then (Z.lor (Z.land b c) (Z.land (lnot32 b) d), i)
    else if i <? 32 then (Z.lor (Z.land d b) (Z.land (lnot32 d) c), (5 * i + 1) mod 16)
    else if i <? 48 then (Z.lxor b (Z.lxor c d), (3 * i + 5) mod 16)
    else (Z.lxor c (Z.lor b (lnot32 d)), (7 * i) mod 16) in
  let f' := wrap (f + a + nth (Z.to_nat i) sines 0 + nth (Z.to_nat g) m 0) in
  Regs d (wrap (b + rotl f' (nth (Z.to_nat i) shifts 0))) b c.

Definition block_step (r : regs) (m : list Z) : regs :=
  let r' := fold_left (round m) (map Z.of_nat (seq 0 64)) r in
  Regs (wrap (ra r + ra r')) (wrap (rb r + rb r')) (wrap (rc r + rc r')) (wrap (rd r + rd r')).

Definition init : regs := Regs 0x67452301 0xefcdab89 0x98badcfe 0x10325476.

Definition digest (msg : list Z) : list Z :=
  let bs := pad msg in
  let ws := words (length bs) bs in
  let r := fold_left block_step (blocks (length ws) ws) init in
  le_bytes 4 (ra r) ++ le_bytes 4 (rb r) ++ le_bytes 4 (rc r) ++ le_bytes 4 (rd r).

Definition hexdigest (msg : list Z) : string :=
  unstr (flat_map (λ b, hex2 (Z.to_N b)) (digest msg)).

End MD5.

(** [s.encode('utf-8')] for code points below 256: one byte below 128, two
    bytes from there on. *)
Definition utf8_encode (s : string) : list Z :=
  flat_map (λ c, let n := Z.of_N (N_of_ascii c) in
                 if n <? 128 then [n]
                 else [Z.lor 0xc0 (Z.shiftr n 6); Z.lor 0x80 (Z.land n 0x3f)])
           (str s).

(** [s[:n]] *)
Definition str_prefix (n : nat) (s : string) : string := unstr (take n (str s)).

(** ** Dictionaries and comparisons *)

(** [k in d] / [d.get(k)]: the first binding of [k]. *)
Fixpoint dict_get (k : string) (m : jdict) : option json :=
  match m with
  | [] => None
  | (k', v) :: m' => if String.eqb k' k then Some v else dict_get k m'
  end.

(** [d[k]] *)
Definition getitem (d : jdict) (k : string) : result json :=
  match dict_get k d with
  | Some v => Ok v
  | None => Raise (KeyError k)
  end.

(** [d.get(k, dflt)] *)
Definition dict_get_default (d : jdict) (k : string) (dflt : json) : json :=
  default dflt (dict_get k d).

(** [d[k] = v]: an existing key keeps its place, a new key goes last. *)
Fixpoint dict_set (k : string) (v : json) (m : jdict) : jdict :=
  match m with
  | [] => [(k, v)]
  | (k', v') :: m' => if String.eqb k' k then (k, v) :: m' else (k', v') :: dict_set k v m'
  end.

(** [p[k]] for an arbitrary value [p] and a string [k]: only a dict can be
    subscripted by a string. *)
Definition subscript (p : json) (k : string) : result json :=
  match p with
  | JDict m => getitem m k
  | _ => Raise TypeError
  end.

(** Iteration, as [sorted(x)] starts it: a list gives its elements, a
    string its characters, a dict its keys; nothing else is iterable. *)
Definition py_iter (x : json) : result (list json) :=
  match x with
  | JList l => Ok l
  | JStr s => Ok (map (λ c, JStr (String c "")) (str s))
  | JDict m => Ok (map (λ kv, JStr (fst kv)) m)
  | _ => Raise TypeError
  end.

(** Python's [==] on values parsed from JSON: [bool] is an [int], lists
    compare element by element, dicts as key-to-value maps. *)
Definition as_int (v : json) : option Z :=
  match v with
  | JInt z => Some z
  | JBool b => Some (if b then 1 else 0)
  | _ => None
  end.

Fixpoint py_eq (a b : json) : bool :=
  match a, b with
  | JNull, JNull => true
  | JStr s, JStr t => String.eqb s t
  | JList l, JList l' =>
      (fix go (l l' : list json) : bool :=
         match l, l' with
         | [], [] => true
         | x :: r, y :: r' => py_eq x y && go r r'
         | _, _ => false
         end) l l'
  | JDict m, JDict m' =>
      (length m =? length m')%nat
      && (fix go (m : jdict) : bool :=
            match m with
            | [] => true
            | (k, x) :: r =>
                match dict_get k m' with
                | Some y => py_eq x y && go r
                | None => false
                end
            end) m
  | _, _ =>
      match as_int a, as_int b with
      | Some x, Some y => x =? y
      | _, _ => false
      end
  end.

(** [a < b]: integers (with [bool]) among themselves, strings among
    themselves, and lists lexicographically: the first pair of elements
    that are not [==] decides through its own [<], and of two lists that
    agree as far as the shorter goes the shorter is the smaller.
    [TypeError] for everything else: [None], dicts, and values of two
    different kinds. *)
Fixpoint py_lt (a b : json) : result bool :=
  match a, b with
  | JStr s, JStr t => Ok (String.ltb s t)
  | JList l, JList l' =>
      (fix go (l l' : list json) : result bool :=
         match l, l' with
         | [], [] => Ok false
         | [], _ :: _ => Ok true
         | _ :: _, [] => Ok false
         | x :: r, y :: r' => if py_eq x y then go r r' else py_lt x y
         end) l l'
  | _, _ =>
      match as_int a, as_int b with
      | Some x, Some y => Ok (x <? y)
      | _, _ => Raise TypeError
      end
  end.

(** ** Canonicalizer *)

(** [sorted(xs, key=...)] on the decorated list of [(key, item)] pairs:
    a stable insertion sort that compares keys with [<] only and stops at
    the first comparison that raises.  On keys that [<] can compare with
    one another it is a strict order that respects [==] (see
    [py_lt_asym], [py_lt_trans] and [py_lt_cong] below), so they come out
    as any stable sort leaves them; the order in which the comparisons
    are made is this sort's own. *)
Fixpoint insert_keyed (x : json * json) (l : list (json * json)) : result (list (json * json)) :=
  match l with
  | [] => Ok [x]
  | y :: l' =>
      b ← py_lt (fst y) (fst x);
      if b : bool then r ← insert_keyed x l'; Ok (y :: r) else Ok (x :: y :: l')
  end.

Fixpoint sort_keyed (l : list (json * json)) : result (list (json * json)) :=
  match l with
  | [] => Ok []
  | x :: l' => r ← sort_keyed l'; insert_keyed x r
  end.

(** [sorted(products, key=lambda p: p["productId"])] *)
(** The key function is applied to every item, in order, before any
    comparison is made. *)
Definition keyed_by_product_id (p : json) : result (json * json) :=
  k ← subscript p "productId"; Ok (k, p).

Definition sorted_by_product_id (products : json) : result (list json) :=
  items ← py_iter products;
  keyed ← rmapM keyed_by_product_id items;
  r ← sort_keyed keyed;
  Ok (map snd r).

Definition calculate_products_signature (products : json) : result string :=
  sorted_products ← sorted_by_product_id products;
  Ok (json_dumps true (JList sorted_products)).

Definition products_have_changed (old_products new_products : json) : result bool :=
  old_sig ← calculate_products_signature old_products;
  new_sig ← calculate_products_signature new_products;
  Ok (negb (String.eqb old_sig new_sig)).

(** ** Snapshot state *)

Record metadata : Type := Metadata {
  created_at : string;
  last_update : option string;
  poll_count : Z;
  run_id : option string
}.

Record state : Type := State {
  carts : gmap string jdict;
  meta : metadata
}.

Definition create_empty_state (now : string) : state :=
  {| carts := ∅;
     meta := {| created_at := now; last_update := None; poll_count := 0; run_id := None |} |}.

Record changes : Type := Changes {
  new_carts : list jdict;
  modified_carts : list jdict;
  deleted_carts : list jdict;
  unchanged_carts : list jdict;
  is_cold_start : bool
}.

(** ** Mutation and exceptions

    A computation over a mutable store [S] returns the store as it is
    when the computation ends, normally or by an exception. *)

Definition M (S A : Type) : Type := S → S * result A.

#[global] Instance M_ret {S} : MRet (M S) := λ A a s, (s, Ok a).
#[global] Instance M_bind {S} : MBind (M S) := λ A B k m s,
  match m s with
  | (s', Ok a) => k a s'
  | (s', Raise e) => (s', Raise e)
  end.

Definition lift {S A} (r : result A) : M S A := λ s, (s, r).
Definition gets {S A} (g : S → A) : M S A := λ s, (s, Ok (g s)).
Definition modify {S} (g : S → S) : M S unit := λ s, (g s, Ok tt).

Fixpoint for_each {S X} (body : X → M S unit) (l : list X) : M S unit :=
  match l with
  | [] => mret tt
  | x :: l' => body x;; for_each body l'
  end.

(** ** Change detector *)

(** The store of one detection call: the snapshot's [carts] mapping, which
    the caller sees mutated, the four local lists, and the number of clock
    readings taken so far. *)
Record frame : Type := Frame {
  f_carts : gmap string jdict;
  f_new : list jdict;
  f_modified : list jdict;
  f_deleted : list jdict;
  f_unchanged : list jdict;
  f_ticks : nat
}.

Definition set_carts (g : gmap string jdict → gmap string jdict) (f : frame) : frame :=
  Frame (g (f_carts f)) (f_new f) (f_modified f) (f_deleted f) (f_unchanged f) (f_ticks f).
Definition append_new (c : jdict) (f : frame) : frame :=
  Frame (f_carts f) (f_new f ++ [c]) (f_modified f) (f_deleted f) (f_unchanged f) (f_ticks f).
Definition append_modified (c : jdict) (f : frame) : frame :=
  Frame (f_carts f) (f_new f) (f_modified f ++ [c]) (f_deleted f) (f_unchanged f) (f_ticks f).
Definition append_deleted (c : jdict) (f : frame) : frame :=
  Frame (f_carts f) (f_new f) (f_modified f) (f_deleted f ++ [c]) (f_unchanged f) (f_ticks f).
Definition append_unchanged (c : jdict) (f : frame) : frame :=
  Frame (f_carts f) (f_new f) (f_modified f) (f_deleted f) (f_unchanged f ++ [c]) (f_ticks f).
Definition tick (f : frame) : frame :=
  Frame (f_carts f) (f_new f) (f_modified f) (f_deleted f) (f_unchanged f) (S (f_ticks f)).

(** [str(cart["id"])] *)
Definition cart_id_of (cart : jdict) : result string :=
  v ← getitem cart "id"; Ok (py_str v).

(** [cart.get("products", [])] *)
Definition cart_products (cart : jdict) : json :=
  dict_get_default cart "products" (JList []).

Section Detector.

(** [now_iso n] is what the [n]-th call of [datetime.now().isoformat()]
    made by one detection returns. *)
Variable now_iso : nat → string.

(** The order in which Python iterates over a [set] of strings is not
    specified: [set_iter] is any enumeration of the set, and the facts
    proved below assume no more of it than [set_iter X ≡ₚ elements X]. *)
Variable set_iter : gset string → list string.

(** [state["carts"][cart_id]] *)
Definition stored (cart_id : string) : M frame jdict := λ f,
  (f, match f_carts f !! cart_id with
      | Some e => Ok e
      | None => Raise (KeyError cart_id)
      end).

Definition datetime_now_isoformat : M frame string := λ f,
  (tick f, Ok (now_iso (f_ticks f))).

(** Body of the cold-start loop (lines 197-206). *)
Definition snapshot_cart (cart : jdict) : M frame unit :=
  cart_id ← lift (cart_id_of cart);
  date ← lift (getitem cart "date");
  user ← lift (getitem cart "userId");
  modify (set_carts <[cart_id :=
    [("date", date); ("userId", user);
     ("products", cart_products cart)]]>);;
  modify (append_new cart).

(** Body of the deletion loop (lines 221-236). *)
Definition delete_cart (cart_id : string) : M frame unit :=
  last_known_data ← stored cart_id;
  user ← lift (getitem last_known_data "userId");
  date ← datetime_now_isoformat;
  products ← lift (getitem last_known_data "products");
  modify (append_deleted
    [("id", JStr cart_id); ("userId", user); ("date", JStr date); ("products", products)]);;
  modify (set_carts (delete cart_id)).

(** Body of the upsert loop (lines 239-270). *)
Definition upsert_cart (cart : jdict) : M frame unit :=
  cart_id ← lift (cart_id_of cart);
  cart_date ← lift (getitem cart "date");
  known ← gets (λ f, f_carts f !! cart_id);
  match known with
  | None =>
      modify (append_new cart);;
      user ← lift (getitem cart "userId");
      modify (set_carts <[cart_id :=
        [("date", cart_date); ("userId", user); ("products", cart_products cart)]]>)
  | Some old_state =>
      old_date ← lift (getitem old_state "date");
      let date_changed := negb (py_eq old_date cart_date) in
      products_changed ←
        lift (products_have_changed (cart_products old_state) (cart_products cart));
      if date_changed || products_changed then
        modify (append_modified cart);;
        modify (set_carts (alter (dict_set "date" cart_date) cart_id));;
        modify (set_carts (alter (dict_set "products" (cart_products cart)) cart_id))
      else
        modify (append_unchanged cart)
  end.

Definition detect (cold : bool) (api_carts : list jdict) : M frame changes :=
  api_ids ← lift (rmapM cart_id_of api_carts);
  state_ids ← gets (λ f, dom (f_carts f));
  if cold then
    for_each snapshot_cart api_carts;;
    new ← gets f_new;
    mret (Changes new [] [] [] true)
  else
    let missing_ids := state_ids ∖ list_to_set api_ids in
    for_each delete_cart (set_iter missing_ids);;
    for_each upsert_cart api_carts;;
    f ← gets id;
    mret (Changes (f_new f) (f_modified f) (f_deleted f) (f_unchanged f) false).

(** The snapshot is a mutable object shared with the caller: the first
    component is the snapshot as the call leaves it, also when the call
    raises. *)
Definition compare_and_detect_changes (st : state) (api_carts : list jdict)
  : state * result changes :=
  let is_cold := match last_update (meta st) with None => true | Some _ => false end in
  let '(f, r) := detect is_cold api_carts (Frame (carts st) [] [] [] [] 0) in
  (State (f_carts f) (meta st), r).

End Detector.

(** ** Event builder *)

Definition EVENT_SCHEMA_VERSION : string := "1.0".
Definition SOURCE_NAME : string := "fake-store-api".

Record event : Type := Event {
  event_id : string;
  event_type : string;
  event_schema_version : string;
  source : string;
  extracted_at : string;
  published_at : string;
  event_run_id : string;
  data : string
}.

(** The f-string [f"{cart_id}_{cart_date}_{products_sig}"]. *)
Definition hash_input (cart_id : string) (cart_date : json) (products_sig : string) : string :=
  cart_id +:+ "_" +:+ py_str cart_date +:+ "_" +:+ products_sig.

Definition event_hash (cart_id : string) (cart_date : json) (products_sig : string) : string :=
  str_prefix 12 (MD5.hexdigest (utf8_encode (hash_input cart_id cart_date products_sig))).

Definition generate_event_id (cart : jdict) : result string :=
  cart_id ← cart_id_of cart;
  cart_date ← getitem cart "date";
  products_sig ← calculate_products_signature (cart_products cart);
  Ok ("cart_" +:+ cart_id +:+ "_" +:+ event_hash cart_id cart_date products_sig).

(** [now] is the reading of [datetime.now().isoformat()] taken by the call. *)
Definition create_event (now : string) (cart : jdict) (event_type extracted_at run_id : string)
  : result event :=
  event_id ← generate_event_id cart;
  let published_at := now +:+ "Z" in
  id ← getitem cart "id";
  user ← getitem cart "userId";
  date ← getitem cart "date";
  Ok {| event_id := event_id;
        event_type := event_type;
        event_schema_version := EVENT_SCHEMA_VERSION;
        source := SOURCE_NAME;
        extracted_at := extracted_at;
        published_at := published_at;
        event_run_id := run_id;
        data := json_dumps false (JDict
          [("id", id); ("userId", user); ("date", date);
           ("products", cart_products cart);
           ("__v", dict_get_default cart "__v" (JInt 0))]) |}.

(** ** Publisher *)

Definition MAX_PUBLISH_RETRIES : Z := 3.

(** One call of [publisher.publish]: the message body is the serialized
    event, kept here as the event itself. *)
Record message : Type := Message {
  msg_topic : string;
  msg_event : event;
  msg_ordering_key : string;
  msg_attributes : list (string * string)
}.

(** What the publisher does to the outside world: the broker calls made,
    the back-off sleeps, the dead-letter files that were written to the
    end (name and content), and the number of clock readings taken, one
    by each dead-letter save that got past its [mkdir]. *)
Record world : Type := World {
  w_calls : list message;
  w_sleeps : list Z;
  w_dead_letter : list (string * event);
  w_ticks : nat
}.

Record stats : Type := Stats {
  success : Z;
  failed : Z;
  dead_letter : Z
}.

Section Publisher.

(** [json.loads]; [None] stands for any exception it raises. *)
Variable json_loads : string → option json.

(** The broker: given the calls made before, whether this call is
    acknowledged within the timeout ([true]) or raises ([false]). *)
Variable broker : list message → message → bool.

(** [now_stamp n]: the [n]-th reading of
    [datetime.now().strftime("%Y%m%d_%H%M%S_%f")]. *)
Variable now_stamp : nat → string.

(** The disk under [DEAD_LETTER_DIR].  [dead_letter_dir n]: whether
    [DEAD_LETTER_DIR.mkdir(parents=True, exist_ok=True)] goes through
    when [n] dead-letter saves have got past it before; the call stands
    outside the [try] block, so what it raises leaves
    [save_to_dead_letter].  [disk name]: whether [open] and [json.dump]
    go through for the file [name] of that directory; what they raise is
    swallowed by the handler, and no complete file is left. *)
Variable dead_letter_dir : nat → bool.
Variable disk : string → bool.

(** Lines 433-437: the cart id read back from the payload, the event id
    when that fails. *)
Definition message_cart_id (e : event) : string :=
  match json_loads (data e) with
  | Some (JDict m) =>
      match dict_get "id" m with
      | Some v => py_str v
      | None => event_id e
      end
  | _ => event_id e
  end.

Definition make_message (topic_path : string) (e : event) : message :=
  let cart_id := message_cart_id e in
  {| msg_topic := topic_path;
     msg_event := e;
     msg_ordering_key := "cart_" +:+ cart_id;
     msg_attributes :=
       [("event_id", event_id e); ("event_type", event_type e);
        ("source", source e); ("cart_id", cart_id)] |}.

Definition record_call (m : message) (w : world) : world :=
  World (w_calls w ++ [m]) (w_sleeps w) (w_dead_letter w) (w_ticks w).

Definition time_sleep (seconds : Z) (w : world) : world :=
  World (w_calls w) (w_sleeps w ++ [seconds]) (w_dead_letter w) (w_ticks w).

Equations? publish_event_to_pubsub
    (topic_path : string) (e : event) (retry_count : Z) (w : world) : bool * world
    by wf (Z.to_nat (MAX_PUBLISH_RETRIES + 1 - retry_count)) lt :=
  publish_event_to_pubsub topic_path e retry_count w
    with broker (w_calls w) (make_message topic_path e) := {
    | true := (true, record_call (make_message topic_path e) w);
    | false with decide (retry_count + 1 ≤ MAX_PUBLISH_RETRIES) := {
      | left _ :=
          publish_event_to_pubsub topic_path e (retry_count + 1)
            (time_sleep (2 ^ (retry_count + 1))
               (record_call (make_message topic_path e) w));
      | right _ := (false, record_call (make_message topic_path e) w) } }.
Proof. unfold MAX_PUBLISH_RETRIES in *. lia. Qed.

(** The file name of a dead letter, relative to [DEAD_LETTER_DIR]. *)
Definition dead_letter_file (e : event) (timestamp : string) : string :=
  event_id e +:+ "_" +:+ timestamp +:+ ".json".

Definition save_to_dead_letter (e : event) : M world unit := λ w,
  if dead_letter_dir (w_ticks w) then
    let timestamp := now_stamp (w_ticks w) in
    let filename := dead_letter_file e timestamp in
    (World (w_calls w) (w_sleeps w)
       (if disk filename then w_dead_letter w ++ [(filename, e)] else w_dead_letter w)
       (S (w_ticks w)),
     Ok tt)
  else (w, Raise OSError).

(** Body of the loop of [publish_events] (lines 495-501). *)
Definition publish_one (topic_path : string) (st : stats) (e : event) : M world stats := λ w,
  let '(ok, w') := publish_event_to_pubsub topic_path e 0 w in
  if ok then (w', Ok (Stats (success st + 1) (failed st) (dead_letter st)))
  else
    match save_to_dead_letter e w' with
    | (w'', Ok _) => (w'', Ok (Stats (success st) (failed st + 1) (dead_letter st + 1)))
    | (w'', Raise x) => (w'', Raise x)
    end.

(** The [for] loop over the batch, which an exception leaves at once. *)
Fixpoint publish_each (topic_path : string) (events : list event) (st : stats)
  : M world stats :=
  match events with
  | [] => mret st
  | e :: events' => st' ← publish_one topic_path st e; publish_each topic_path events' st'
  end.

Definition publish_events (publisher_config : option string) (events : list event)
  : M world stats :=
  match events with
  | [] => mret (Stats 0 0 0)
  | _ =>
      match publisher_config with
      | None => mret (Stats (Z.of_nat (length events)) 0 0)
      | Some topic_path => publish_each topic_path events (Stats 0 0 0)
      end
  end.

End Publisher.

(** ** Snapshot persistence *)

Definition STATE_FILE : string := "state/carts_state.json".
Definition TEMP_FILE : string := "state/carts_state.json.tmp".

(** The file system as far as [save_state] and [load_state] touch it: the
    content of each regular file, and the primitive operations in the
    order the process issues them.  [Replace] is [os.replace]: the rename
    is one step. *)
Inductive fs_op : Type :=
| Mkdir (dir : string)
| OpenW (path : string)
| WriteChar (path : string) (c : ascii)
| Replace (src dst : string)
| Unlink (path : string).

Definition fs_step (fs : gmap string string) (op : fs_op) : gmap string string :=
  match op with
  | Mkdir _ => fs
  | OpenW p => <[p := ""]> fs
  | WriteChar p c => alter (λ s, s +:+ String c "") p fs
  | Replace src dst =>
      match fs !! src with
      | Some content => <[dst := content]> (delete src fs)
      | None => fs
      end
  | Unlink p => delete p fs
  end.

Definition fs_run (ops : list fs_op) (fs : gmap string string) : gmap string string :=
  fold_left fs_step ops fs.

(** What [open], [json.load] and the read of [len(state['carts'])] come
    to in the [try] block of [load_state]:
    - [Decoded st]: the content is a JSON object with the shape of a
      snapshot, the one [save_state] writes for [st];
    - [Corrupted]: [JSONDecodeError] (the content is no JSON text) or
      [KeyError] (a JSON object without ['carts']), the two exceptions
      the handler catches;
    - [Uncaught]: any other exception, which the handler lets through:
      [UnicodeDecodeError] for bytes that are not UTF-8, [TypeError] for
      a JSON text that is no object ([[]], [null], a number, a string) or
      whose ['carts'] has no length;
    - [Foreign]: a JSON object whose ['carts'] has a length and that is
      no snapshot all the same (no ['metadata'], carts that are no
      mapping of records): [load_state] returns it as it is. *)
Inductive decoded : Type :=
| Decoded (st : state)
| Corrupted
| Uncaught
| Foreign.

(** What [load_state] gives its caller: a snapshot, a dict that is no
    snapshot, or an exception. *)
Inductive loaded : Type :=
| Loaded (st : state)
| LoadedForeign
| LoadRaised.

Section Persistence.

(** [json.dump(state, f, indent=2, ensure_ascii=False)], and what the
    [try] block of [load_state] makes of the content of the state file. *)
Variable json_dump_state : state → string.
Variable json_load_state : string → decoded.

(** Lines 151-152. *)
Definition touch_metadata (now : string) (st : state) : state :=
  State (carts st)
    (Metadata (created_at (meta st)) (Some now) (poll_count (meta st) + 1) (run_id (meta st))).

(** The operations of the [try] block when nothing fails: the temp file
    is opened, written to the end, and renamed over the state file. *)
Definition write_ops (content : string) : list fs_op :=
  [OpenW TEMP_FILE] ++ map (WriteChar TEMP_FILE) (str content) ++ [Replace TEMP_FILE STATE_FILE].

(** [io_error = Some k]: the [k]-th of these operations raises instead of
    taking effect, and the handler removes the temp file. *)
Definition save_ops (io_error : option nat) (content : string) : list fs_op :=
  Mkdir "state" ::
  match io_error with
  | Some k =>
      if (k <? length (write_ops content))%nat
      then take k (write_ops content) ++ [Unlink TEMP_FILE]
      else write_ops content
  | None => write_ops content
  end.

(** [save_state]: the snapshot with its metadata updated, and the file
    operations issued. *)
Definition save_state (now : string) (io_error : option nat) (st : state)
  : state * list fs_op :=
  let st' := touch_metadata now st in
  (st', save_ops io_error (json_dump_state st')).

Definition load_state (now : string) (fs : gmap string string) : loaded :=
  match fs !! STATE_FILE with
  | Some content =>
      match json_load_state content with
      | Decoded st => Loaded st
      | Corrupted => Loaded (create_empty_state now)
      | Uncaught => LoadRaised
      | Foreign => LoadedForeign
      end
  | None => Loaded (create_empty_state now)
  end.

End Persistence.

(** * Vocabulary of the specification *)

(** ** Well-formed input of the detector *)

Definition is_ok {A} (r : result A) : bool :=
  match r with Ok _ => true | Raise _ => false end.

(** A fetched record with the fields of the data model, and a snapshot
    entry as the detector writes it; in both the products can be given a
    signature. *)
Definition cart_ok (c : jdict) : bool :=
  is_ok (cart_id_of c) && is_ok (getitem c "date") && is_ok (getitem c "userId")
  && is_ok (calculate_products_signature (cart_products c)).

Definition entry_ok (e : jdict) : bool :=
  is_ok (getitem e "date") && is_ok (getitem e "userId") && is_ok (getitem e "products")
  && is_ok (calculate_products_signature (cart_products e)).

(** The projection of a fetched cart that the snapshot keeps. *)
Definition projection (date user : json) (cart : jdict) : jdict :=
  [("date", date); ("userId", user); ("products", cart_products cart)].

(** The synthetic record of a deleted cart (lines 227-232). *)
Definition deleted_cart_obj (cart_id : string) (user : json) (date : string) (products : json)
  : jdict :=
  [("id", JStr cart_id); ("userId", user); ("date", JStr date); ("products", products)].

(** How one fetched cart is classified against the entry [before] that
    the snapshot held for its id, and the entry [after] it. *)
Definition upserted (before : option jdict) (c : jdict) (f' : frame) (after : option jdict)
  : Prop :=
  match before with
  | None =>
      c ∈ f_new f'
      ∧ ∃ d u, getitem c "date" = Ok d ∧ getitem c "userId" = Ok u
               ∧ after = Some (projection d u c)
  | Some e =>
      ∃ d od changed,
        getitem c "date" = Ok d ∧ getitem e "date" = Ok od
        ∧ products_have_changed (cart_products e) (cart_products c) = Ok changed
        ∧ if negb (py_eq od d) || changed
          then c ∈ f_modified f'
               ∧ after = Some (dict_set "products" (cart_products c) (dict_set "date" d e))
          else c ∈ f_unchanged f' ∧ after = Some e
  end.

(** [state["metadata"]["last_update"] is None] *)
Definition is_cold (st : state) : bool :=
  match last_update (meta st) with None => true | Some _ => false end.

(** ** Sameness of values *)

(** Two values are the same JSON data: equal scalars, lists that are the
    same element by element, dicts with the same keys bound to the same
    values in any order. *)
Inductive json_equiv : json → json → Prop :=
| equiv_null : json_equiv JNull JNull
| equiv_bool b : json_equiv (JBool b) (JBool b)
| equiv_int z : json_equiv (JInt z) (JInt z)
| equiv_str s : json_equiv (JStr s) (JStr s)
| equiv_list l1 l2 :
    Forall2 json_equiv l1 l2 → json_equiv (JList l1) (JList l2)
| equiv_dict m1 m2 m2' :
    m2' ≡ₚ m2 →
    Forall2 (λ x y, fst x = fst y ∧ json_equiv (snd x) (snd y)) m1 m2' →
    json_equiv (JDict m1) (JDict m2).

(** No dict, at any depth, binds a key twice (what a Python dict cannot
    do and an association list can). *)
Fixpoint wf_json (v : json) : bool :=
  match v with
  | JList l => forallb wf_json l
  | JDict m =>
      bool_decide (NoDup (map fst m))
      && forallb (λ kv, match kv with (_, x) => wf_json x end) m
  | _ => true
  end.

(** The same items with the same attributes, in any order. *)
Definition same_items (l1 l2 : list json) : Prop :=
  ∃ l2', l2' ≡ₚ l2 ∧ Forall2 json_equiv l1 l2'.

(** Two keys that [<] orders one way or the other. *)
Definition differ (a b : json) : bool :=
  match py_lt a b, py_lt b a with
  | Ok true, _ | _, Ok true => true
  | _, _ => false
  end.

Fixpoint pairwise_differ (ks : list json) : bool :=
  match ks with
  | [] => true
  | k :: ks' => forallb (differ k) ks' && pairwise_differ ks'
  end.

(** No two items of the list share a product id: [<] orders the product
    ids of any two of them, one way or the other. *)
Definition distinct_product_ids (items : list json) : bool :=
  match rmapM (λ p, subscript p "productId") items with
  | Ok ks => pairwise_differ ks
  | Raise _ => false
  end.

(** ** Reading a serialization back *)

Definition hex_value (c : ascii) : option N :=
  List.find (λ n, Ascii.eqb (hex_digit n) c) (map N.of_nat (seq 0 16)).

(** The inverse of [escape_char] on the front of a character list. *)
Definition unescape (cs : chars) : option (ascii * chars) :=
  match cs with
  | [] => None
  | c :: r =>
      if Ascii.eqb c dquote then None
      else if Ascii.eqb c backslash then
        match r with
        | x :: r' =>
            if Ascii.eqb x "u" then
              match r' with
              | _ :: _ :: h :: l :: r'' =>
                  match hex_value h, hex_value l with
                  | Some a, Some b => Some (ascii_of_N (16 * a + b), r'')
                  | _, _ => None
                  end
              | _ => None
              end
            else if Ascii.eqb x "b" then Some ("008"%char, r')
            else if Ascii.eqb x "f" then Some ("012"%char, r')
            else if Ascii.eqb x "n" then Some ("010"%char, r')
            else if Ascii.eqb x "r" then Some ("013"%char, r')
            else if Ascii.eqb x "t" then Some ("009"%char, r')
            else Some (x, r')
        | [] => None
        end
      else Some (c, r)
  end.

Definition is_int_char (c : ascii) : bool :=
  match c with
  | "-" | "0" | "1" | "2" | "3" | "4" | "5" | "6" | "7" | "8" | "9" => true
  | _ => false
  end%char.

Definition is_hex_char (c : ascii) : bool :=
  match c with
  | "0" | "1" | "2" | "3" | "4" | "5" | "6" | "7" | "8" | "9"
  | "a" | "b" | "c" | "d" | "e" | "f" => true
  | _ => false
  end%char.

(** Which kind of value a character opens; 0 for a character that opens
    none, as the separators and closing brackets. *)
Definition head_kind (c : ascii) : nat :=
  if Ascii.eqb c "n" then 1
  else if Ascii.eqb c "t" then 2
  else if Ascii.eqb c "f" then 3
  else if is_int_char c then 4
  else if Ascii.eqb c dquote then 5
  else if Ascii.eqb c "[" then 6
  else if Ascii.eqb c "{" then 7
  else 0.

Definition kind (v : json) : nat :=
  match v with
  | JNull => 1
  | JBool true => 2
  | JBool false => 3
  | JInt _ => 4
  | JStr _ => 5
  | JList _ => 6
  | JDict _ => 7
  end.

Definition head_is (k : nat) (cs : chars) : Prop :=
  match cs with
  | [] => False
  | c :: _ => head_kind c = k
  end.

(** What may follow a value: nothing, or a character that opens no value. *)
Definition terminated (r : chars) : Prop :=
  match r with
  | [] => True
  | c :: _ => head_kind c = 0%nat
  end.

(** The parts of a list after the first, each behind its separator. *)
Definition tail_enc {X} (enc : X → chars) (l : list X) : chars :=
  flat_map (λ x, item_sep ++ enc x) l.

(** [Q] holds of the parts on the right; a part on the left can be told
    from any such part by what it encodes to. *)
Definition splits {X} (enc : X → chars) (Q : X → Prop) (x : X) : Prop :=
  ∀ y r1 r2, Q y → terminated r1 → terminated r2 →
             enc x ++ r1 = enc y ++ r2 → enc x = enc y ∧ r1 = r2.

Definition item_dumps (kv : string * json) : string * chars := (fst kv, dumps true (snd kv)).

(** ** Stable insertion sort *)

Fixpoint insert_by {A} (lt : A → A → bool) (x : A) (l : list A) : list A :=
  match l with
  | [] => [x]
  | y :: l' => if lt y x then y :: insert_by lt x l' else x :: y :: l'
  end.

Definition sort_by {A} (lt : A → A → bool) (l : list A) : list A :=
  foldr (insert_by lt) [] l.

(** [x] may stand before [y] in a sorted list. *)
Definition not_after {A} (lt : A → A → bool) (x y : A) : Prop := lt y x = false.

(** On the elements at hand [lt] behaves as a strict order. *)
Definition ordered_on {A} (lt : A → A → bool) (l : list A) : Prop :=
  (∀ a b, a ∈ l → b ∈ l → lt a b = true → lt b a = false)
  ∧ (∀ a b c, a ∈ l → b ∈ l → c ∈ l →
       not_after lt a b → not_after lt b c → not_after lt a c).

Definition by_key {V} (y x : string * V) : bool := String.ltb (fst y) (fst x).

(** [<] on the keys of decorated items, [false] where Python raises. *)
Definition key_ltb (y x : json * json) : bool :=
  match py_lt (fst y) (fst x) with
  | Ok b => b
  | Raise _ => false
  end.

(** Integers (with [bool]) and strings as sort keys. *)
Inductive sort_key : Type :=
| KInt (z : Z)
| KStr (s : string).

Definition as_sort_key (v : json) : option sort_key :=
  match v with
  | JInt z => Some (KInt z)
  | JBool b => Some (KInt (if b then 1 else 0))
  | JStr s => Some (KStr s)
  | _ => None
  end.

Definition key_class (v : json) : nat :=
  match as_sort_key v with
  | Some (KInt _) => 1
  | Some (KStr _) => 2
  | None => 0
  end.

(** The kinds of keys that [<] can order: integers, strings and lists. *)
Definition key_kind (v : json) : nat :=
  match v with
  | JList _ => 3
  | _ => key_class v
  end.

(** Pairwise different keys in a decorated list. *)
Definition distinct_keys (l : list (json * json)) : Prop :=
  Forall (λ x, wf_json (fst x) = true) l
  ∧ StronglySorted (λ x y, differ (fst x) (fst y) = true) l.

(** Decorated items that sort alike: keys and items that are the same
    data. *)
Definition alike (x y : json * json) : Prop :=
  wf_json (fst x) = true ∧ wf_json (fst y) = true
  ∧ json_equiv (fst x) (fst y) ∧ json_equiv (snd x) (snd y).

(** ** Observations of the file system and the broker *)

(** Whether the rename over the state file is among the operations. *)
Definition renamed (ops : list fs_op) : bool :=
  existsb (λ op, match op with Replace _ dst => String.eqb dst STATE_FILE | _ => false end) ops.

(** An operation that leaves the state file alone. *)
Definition spares_state_file (op : fs_op) : bool :=
  match op with
  | Mkdir _ => true
  | OpenW p | WriteChar p _ | Unlink p => negb (String.eqb p STATE_FILE)
  | Replace _ _ => false
  end.

#[global] Instance json_eq_dec : EqDecision json.
Proof.
  refine (fix go (a b : json) : Decision (a = b) :=
    match a, b with
    | JNull, JNull => left _
    | JBool x, JBool y => cast_if (decide (x = y))
    | JInt x, JInt y => cast_if (decide (x = y))
    | JStr x, JStr y => cast_if (decide (x = y))
    | JList x, JList y => cast_if (@list_eq_dec _ go x y)
    | JDict x, JDict y =>
        cast_if (@list_eq_dec _ (@prod_eq_dec _ _ _ go) x y)
    | _, _ => right _
    end); abstract congruence.
Defined.

#[global] Instance event_eq_dec : EqDecision event.
Proof. solve_decision. Defined.

#[global] Instance message_eq_dec : EqDecision message.
Proof. solve_decision. Defined.

(** ** Sample data *)

Definition line_item (product_id quantity : Z) : json :=
  JDict [("productId", JInt product_id); ("quantity", JInt quantity)].

Definition sample_cart (id user : Z) (date : string) (products : list json) : jdict :=
  [("id", JInt id); ("userId", JInt user); ("date", JStr date); ("products", JList products)].

Definition sample_entry (user : Z) (date : string) (products : list json) : jdict :=
  [("date", JStr date); ("userId", JInt user); ("products", JList products)].

(** A snapshot taken by an earlier poll: carts 1, 2 and 3. *)
Definition sample_state : state :=
  {| carts := <["1" := sample_entry 1 "d1" [line_item 9 1]]>
              (<["2" := sample_entry 2 "d1" [line_item 4 2; line_item 5 1]]>
              (<["3" := sample_entry 3 "d1" []]> ∅));
     meta := Metadata "t0" (Some "t1") 1 None |}.

Definition sample_event (id : string) : event :=
  Event id "cart_created" EVENT_SCHEMA_VERSION SOURCE_NAME "t" "t" "run" "{}".

(** A broker that acknowledges everything but the event [bad]. *)
Definition sample_broker (h : list message) (m : message) : bool :=
  negb (String.eqb (event_id (msg_event m)) "bad").

(** A disk on which the dead-letter directory has no subdirectory: a file
    name with a [/] in it cannot be opened. *)
Definition sample_disk (name : string) : bool :=
  negb (existsb (Ascii.eqb "/") (str name)).

Ltac mstep := unfold mbind, M_bind, mret, M_ret, lift, gets, modify; simpl.

(** * The rest of the pipeline

    The functions around the detector, the event builder and the
    publisher: the API poller with its retries, the event generation for
    the three kinds of change, and one turn of the polling loop, which
    composes them with the snapshot save. *)

(** ** API polling *)

Definition MAX_RETRIES : Z := 3.
Definition INITIAL_BACKOFF : Z := 2.

(** What one pass through the [try] block of [fetch_carts_from_api] comes
    to: the parsed body (an array of cart objects, as the detector expects
    it), a [requests.exceptions.RequestException], which the handler
    catches, or any other exception, which it does not. *)
Inductive response : Type :=
| Fetched (carts : list jdict)
| RequestException
| OtherException.

(** How a call of [fetch_carts_from_api] ends: it returns the carts or
    [None], or an exception leaves it. *)
Inductive fetched : Type :=
| Returned (carts : option (list jdict))
| Escaped.

(** The requests made so far and the back-off sleeps taken. *)
Record net : Type := Net {
  n_requests : nat;
  n_sleeps : list Z
}.

(** [range(a, b)] *)
Definition py_range (a b : Z) : list Z :=
  map (λ i, a + Z.of_nat i) (seq 0 (Z.to_nat (b - a))).

Section Fetch.

(** [api n]: what the [n]-th request of the process comes to, counting
    from 0. *)
Variable api : nat → response.

(** The [for] loop over the attempts that are left. *)
Fixpoint fetch_attempts (attempts : list Z) (w : net) : fetched * net :=
  match attempts with
  | [] => (Returned None, w)
  | attempt :: rest =>
      let w1 := Net (S (n_requests w)) (n_sleeps w) in
      match api (n_requests w) with
      | Fetched carts => (Returned (Some carts), w1)
      | OtherException => (Escaped, w1)
      | RequestException =>
          let backoff_time := INITIAL_BACKOFF * 2 ^ (attempt - 1) in
          if attempt <? MAX_RETRIES
          then fetch_attempts rest (Net (n_requests w1) (n_sleeps w1 ++ [backoff_time]))
          else (Returned None, w1)
      end
  end.

Definition fetch_carts_from_api (w : net) : fetched * net :=
  fetch_attempts (py_range 1 (MAX_RETRIES + 1)) w.

End Fetch.

(** ** Event generation *)

Definition EVENTS_DIR : string := "events".

(** The event files written under [EVENTS_DIR] (path and content, in the
    order of the writes; a write that fails is swallowed by the handler
    of [save_event_locally], the list records the writes as issued) and
    the number of clock readings taken by the event builder. *)
Record local : Type := Local {
  l_saved : list (string * event);
  l_ticks : nat
}.

(** [save_event_locally]: the file [EVENTS_DIR/<day>/<event_id>.json],
    the day being the first ten characters of [published_at]. *)
Definition event_file (e : event) : string :=
  EVENTS_DIR +:+ "/" +:+ str_prefix 10 (published_at e) +:+ "/" +:+ event_id e +:+ ".json".

Definition save_event_locally (e : event) (w : local) : local :=
  Local (l_saved w ++ [(event_file e, e)]) (l_ticks w).

(** The results of [body] on the elements of a list, in order, up to the
    first that raises. *)
Fixpoint collect {S X Y} (body : X → M S Y) (l : list X) : M S (list Y) :=
  match l with
  | [] => mret []
  | x :: l' => y ← body x; ys ← collect body l'; mret (y :: ys)
  end.

Section Generator.

(** [clock n]: the [n]-th reading of [datetime.now().isoformat()] taken by
    [create_event]. *)
Variable clock : nat → string.

(** [create_event] with its clock reading, which is taken once the event
    id has been computed. *)
Definition create_event_now (cart : jdict) (event_type extracted_at run_id : string)
  : M local event := λ w,
  match generate_event_id cart with
  | Raise e => (w, Raise e)
  | Ok _ =>
      (Local (l_saved w) (S (l_ticks w)),
       create_event (clock (l_ticks w)) cart event_type extracted_at run_id)
  end.

(** Body of each of the three loops of [process_carts_and_generate_events]. *)
Definition generate_event (event_type extracted_at run_id : string) (cart : jdict)
  : M local event :=
  e ← create_event_now cart event_type extracted_at run_id;
  modify (save_event_locally e);;
  mret e.

Definition process_carts_and_generate_events
    (new_carts modified_carts deleted_carts : list jdict) (extracted_at run_id : string)
  : M local (list event) :=
  created ← collect (generate_event "cart_created" extracted_at run_id) new_carts;
  modified ← collect (generate_event "cart_modified" extracted_at run_id) modified_carts;
  deleted ← collect (generate_event "cart_deleted" extracted_at run_id) deleted_carts;
  mret (created ++ modified ++ deleted).

End Generator.

(** ** One turn of the polling loop *)

(** Everything outside the process that a turn of the loop touches. *)
Record outside : Type := Outside {
  o_net : net;
  o_local : local;
  o_world : world;
  o_fs : gmap string string;
  o_waits : list Z
}.

(** What a turn reads from its surroundings: the clock readings for
    [extracted_at], for the detector and for [save_state], whether and
    where the save fails, and whether [stop_event] is set when the turn
    looks at it. *)
Record turn : Type := Turn {
  t_extracted : string;
  t_detect_clock : nat → string;
  t_saved : string;
  t_save_error : option nat;
  t_stop : bool
}.

(** How a turn ends: the loop goes on to test [stop_event], or an
    exception leaves [polling_loop] ([None] for one that is not modelled
    as a value). *)
Inductive ending : Type :=
| Continues
| Dies (e : option exn).

(** [if not stop_event.is_set(): stop_event.wait(POLL_INTERVAL)] *)
Definition wait_unless_stopped (stop : bool) (interval : Z) (o : outside) : outside :=
  if stop then o
  else Outside (o_net o) (o_local o) (o_world o) (o_fs o) (o_waits o ++ [interval]).

Section PollingLoop.

Variable api : nat → response.
Variable set_iter : gset string → list string.
Variable clock : nat → string.
Variable json_loads : string → option json.
Variable broker : list message → message → bool.
Variable now_stamp : nat → string.
Variable dead_letter_dir : nat → bool.
Variable disk : string → bool.
Variable json_dump_state : state → string.
Variable json_load_state : string → decoded.

(** Lines 511-513: the snapshot is loaded and tagged with the run id.
    [None]: the run does not get to its loop with a snapshot, because the
    exception of [load_state] leaves [polling_loop], which has no
    handler, or because the dict that was loaded is no snapshot: what
    the loop does with such a dict is outside the embedding. *)
Definition start_run (now run_id : string) (fs : gmap string string) : option state :=
  match load_state json_load_state now fs with
  | Loaded st =>
      Some (State (carts st)
              (Metadata (created_at (meta st)) (last_update (meta st))
                 (poll_count (meta st)) (Some run_id)))
  | LoadedForeign | LoadRaised => None
  end.

(** Steps 3 and 4 of a turn (lines 538-557): nothing is generated or
    published when no change was detected. *)
Definition generate_and_publish (publisher_config : option string) (ch : changes)
    (extracted_at run_id : string) (o : outside) : outside * result stats :=
  let carts_to_process := new_carts ch ++ modified_carts ch ++ deleted_carts ch in
  if (0 <? length carts_to_process)%nat then
    match process_carts_and_generate_events clock
            (new_carts ch) (modified_carts ch) (deleted_carts ch) extracted_at run_id
            (o_local o) with
    | (l', Raise e) => (Outside (o_net o) l' (o_world o) (o_fs o) (o_waits o), Raise e)
    | (l', Ok events) =>
        let '(w', r) :=
          publish_events json_loads broker now_stamp dead_letter_dir disk
            publisher_config events (o_world o) in
        (Outside (o_net o) l' w' (o_fs o) (o_waits o), r)
    end
  else (o, Ok (Stats 0 0 0)).

(** The body of the [while] loop (lines 524-564). *)
Definition poll_cycle (publisher_config : option string) (run_id : string) (interval : Z)
    (t : turn) (st : state) (o : outside) : state * outside * ending :=
  let extracted_at := t_extracted t +:+ "Z" in
  let '(r, n') := fetch_carts_from_api api (o_net o) in
  let o1 := Outside n' (o_local o) (o_world o) (o_fs o) (o_waits o) in
  match r with
  | Escaped => (st, o1, Dies None)
  | Returned None => (st, wait_unless_stopped (t_stop t) interval o1, Continues)
  | Returned (Some carts) =>
      match compare_and_detect_changes (t_detect_clock t) set_iter st carts with
      | (st1, Raise e) => (st1, o1, Dies (Some e))
      | (st1, Ok ch) =>
          match generate_and_publish publisher_config ch extracted_at run_id o1 with
          | (o2, Raise e) => (st1, o2, Dies (Some e))
          | (o2, Ok _) =>
              let '(st2, ops) := save_state json_dump_state (t_saved t) (t_save_error t) st1 in
              (st2,
               wait_unless_stopped (t_stop t) interval
                 (Outside (o_net o2) (o_local o2) (o_world o2) (fs_run ops (o_fs o2))
                    (o_waits o2)),
               Continues)
          end
      end
  end.

End PollingLoop.

(** ** Vocabulary of the further properties *)

(** A file operation of a save: on the temp file, or the rename of the
    temp file over the state file. *)
Definition save_op (op : fs_op) : Prop :=
  match op with
  | Mkdir _ => True
  | OpenW p | WriteChar p _ | Unlink p => p = TEMP_FILE
  | Replace src dst => src = TEMP_FILE ∧ dst = STATE_FILE
  end.

(** A fetched record that the detector finds unchanged against the
    snapshot entry [e]: an equal date and an equal products signature. *)
Definition settled (c e : jdict) : Prop :=
  ∃ d od, getitem c "date" = Ok d ∧ getitem e "date" = Ok od ∧ py_eq od d = true
          ∧ products_have_changed (cart_products e) (cart_products c) = Ok false.

(** ** More sample data *)

(** The surroundings of a process that has done nothing yet. *)
Definition sample_outside : outside :=
  Outside (Net 0 []) (Local [] 0) (World [] [] [] 0) ∅ [].

Definition sample_turn (stamp : string) : turn :=
  Turn stamp (λ _, stamp) stamp None false.

(** A feed that answers every request with the same two carts. *)
Definition sample_feed : list jdict :=
  [sample_cart 1 1 "d1" [line_item 9 1]; sample_cart 4 2 "d2" []].

(** * Facts *)

(** ** Reasoning about the detector *)

Lemma for_each_app {S X} (body : X → M S unit) l1 l2 s s1 :
  for_each body l1 s = (s1, Ok tt) →
  for_each body (l1 ++ l2) s = for_each body l2 s1.
Proof.
  revert s. induction l1 as [|x l1 IH]; intros s H; simpl in *.
  - unfold mret, M_ret in H. by simplify_eq.
  - unfold mbind, M_bind in *. destruct (body x s) as [s' [[]|e]]; [|done]. by apply IH.
Qed.

Lemma for_each_cons {S X} (body : X → M S unit) x l s s1 :
  body x s = (s1, Ok tt) →
  for_each body (x :: l) s = for_each body l s1.
Proof. intros H. simpl. unfold mbind, M_bind. by rewrite H. Qed.

Lemma rmapM_cons_inv {A B} (f : A → result B) x l ys :
  rmapM f (x :: l) = Ok ys → ∃ y ys', f x = Ok y ∧ rmapM f l = Ok ys' ∧ ys = y :: ys'.
Proof.
  simpl. unfold mbind, result_bind. destruct (f x) as [y|]; [|done].
  destruct (rmapM f l) as [ys'|]; [|done]. intros [= <-]. eauto.
Qed.

Lemma rmapM_length {A B} (f : A → result B) l ys :
  rmapM f l = Ok ys → length ys = length l.
Proof.
  revert ys. induction l as [|x l IH]; intros ys H.
  - by injection H as <-.
  - apply rmapM_cons_inv in H as (y & ys' & _ & H & ->). simpl. f_equal. eauto.
Qed.

Lemma rmapM_lookup {A B} (f : A → result B) l ys i x :
  rmapM f l = Ok ys → l !! i = Some x → ∃ y, f x = Ok y ∧ ys !! i = Some y.
Proof.
  revert ys i. induction l as [|x' l IH]; intros ys i H Hi; [done|].
  apply rmapM_cons_inv in H as (y & ys' & Hy & H & ->).
  destruct i as [|i]; simpl in *; simplify_eq; eauto.
Qed.

Lemma rmapM_elem_of {A B} (f : A → result B) l ys x :
  rmapM f l = Ok ys → x ∈ l → ∃ y, f x = Ok y ∧ y ∈ ys.
Proof.
  intros H [i Hi]%list_elem_of_lookup.
  destruct (rmapM_lookup _ _ _ _ _ H Hi) as (y & ? & ?%list_elem_of_lookup_2). eauto.
Qed.

Lemma is_ok_true {A} (r : result A) : is_ok r = true → ∃ a, r = Ok a.
Proof. destruct r; [eauto|done]. Qed.

Lemma getitem_is_Some d k v : getitem d k = Ok v → dict_get k d = Some v.
Proof. unfold getitem. by destruct (dict_get k d); intros [=]; subst. Qed.

Lemma products_have_changed_ok old new s1 s2 :
  calculate_products_signature old = Ok s1 → calculate_products_signature new = Ok s2 →
  products_have_changed old new = Ok (negb (String.eqb s1 s2)).
Proof. intros H1 H2. unfold products_have_changed. by rewrite H1, H2. Qed.

Section DetectorFacts.
Variable now_iso : nat → string.

Lemma snapshot_cart_ok cart cid d u f :
  cart_id_of cart = Ok cid → getitem cart "date" = Ok d → getitem cart "userId" = Ok u →
  snapshot_cart cart f
  = (append_new cart (set_carts <[cid := projection d u cart]> f), Ok tt).
Proof. intros H1 H2 H3. unfold snapshot_cart. mstep. by rewrite H1, H2, H3. Qed.

(** The cold-start loop inserts the projection of every cart and appends
    every cart to [new_carts]. *)
Lemma cold_loop l : ∀ ids f,
  rmapM cart_id_of l = Ok ids →
  Forall (λ c, is_Some (dict_get "date" c) ∧ is_Some (dict_get "userId" c)) l →
  ∃ f', for_each snapshot_cart l f = (f', Ok tt)
    ∧ f_new f' = f_new f ++ l
    ∧ f_modified f' = f_modified f ∧ f_deleted f' = f_deleted f
    ∧ f_unchanged f' = f_unchanged f
    ∧ dom (f_carts f') = dom (f_carts f) ∪ list_to_set ids
    ∧ (∀ k, k ∉ ids → f_carts f' !! k = f_carts f !! k)
    ∧ (NoDup ids → ∀ i c cid, l !! i = Some c → ids !! i = Some cid →
         ∃ d u, getitem c "date" = Ok d ∧ getitem c "userId" = Ok u
                ∧ f_carts f' !! cid = Some (projection d u c)).
Proof.
  induction l as [|c l IH]; intros ids f Hids Hwf.
  - injection Hids as <-. exists f. simpl. rewrite app_nil_r.
    repeat split; try done. set_solver.
  - apply rmapM_cons_inv in Hids as (cid & ids' & Hcid & Hids & ->).
    apply Forall_cons in Hwf as [[[d Hd] [u Hu]] Hwf].
    assert (getitem c "date" = Ok d) as Hd' by (unfold getitem; by rewrite Hd).
    assert (getitem c "userId" = Ok u) as Hu' by (unfold getitem; by rewrite Hu).
    destruct (IH ids' (append_new c (set_carts <[cid := projection d u c]> f)) Hids Hwf)
      as (f' & Hrun & Hnew & Hmod & Hdel & Hunch & Hdom & Hother & Hin).
    exists f'. rewrite (for_each_cons _ _ _ _ _ (snapshot_cart_ok _ _ _ _ _ Hcid Hd' Hu')).
    split; [done|]. simpl in *.
    repeat split; try done.
    + rewrite Hnew. by rewrite <-app_assoc.
    + rewrite Hdom, dom_insert_L. set_solver.
    + intros k Hk. rewrite Hother by set_solver. apply lookup_insert_ne. set_solver.
    + intros Hnd i c' cid' Hi Hi'. apply NoDup_cons in Hnd as [Hnotin Hnd].
      destruct i as [|i]; simpl in *; simplify_eq.
      * exists d, u. split_and!; [done..|]. rewrite Hother by done. apply lookup_insert_eq.
      * eauto.
Qed.

Lemma delete_cart_ok cid e u p f :
  f_carts f !! cid = Some e → getitem e "userId" = Ok u → getitem e "products" = Ok p →
  delete_cart now_iso cid f
  = (set_carts (delete cid)
       (append_deleted (deleted_cart_obj cid u (now_iso (f_ticks f)) p) (tick f)), Ok tt).
Proof.
  intros H1 H2 H3. unfold delete_cart, stored, datetime_now_isoformat. mstep.
  by rewrite H1, H2, H3.
Qed.

(** What the deletion loop leaves: the listed ids are gone from the
    mapping, and one synthetic record per id, built from the entry the
    id had, is appended to [deleted_carts]. *)
Lemma delete_loop l : ∀ f,
  NoDup l →
  (∀ k, k ∈ l → ∃ e, f_carts f !! k = Some e
                    ∧ is_Some (dict_get "userId" e) ∧ is_Some (dict_get "products" e)) →
  ∃ f' recs, for_each (delete_cart now_iso) l f = (f', Ok tt)
    ∧ f_new f' = f_new f ∧ f_modified f' = f_modified f ∧ f_unchanged f' = f_unchanged f
    ∧ f_deleted f' = f_deleted f ++ recs
    ∧ (∀ k, f_carts f' !! k = if decide (k ∈ l) then None else f_carts f !! k)
    ∧ Forall2 (λ k r, ∃ e u p n, f_carts f !! k = Some e
                 ∧ getitem e "userId" = Ok u ∧ getitem e "products" = Ok p
                 ∧ r = deleted_cart_obj k u (now_iso n) p) l recs.
Proof.
  induction l as [|k l IH]; intros f Hnd Hl.
  - exists f, []. simpl. rewrite app_nil_r. split_and!; try done.
  - apply NoDup_cons in Hnd as [Hk Hnd].
    destruct (Hl k) as (e & He & [u Hu] & [p Hp]); [left|].
    assert (getitem e "userId" = Ok u) as Hu' by (unfold getitem; by rewrite Hu).
    assert (getitem e "products" = Ok p) as Hp' by (unfold getitem; by rewrite Hp).
    pose proof (delete_cart_ok _ _ _ _ f He Hu' Hp') as Hstep.
    set (f1 := set_carts _ _) in Hstep.
    destruct (IH f1 Hnd) as (f' & recs & Hrun & Hn & Hm & Hu2 & Hd & Hlook & Hrecs).
    { intros k' Hk'. destruct (Hl k') as (e' & He' & ?); [by right|].
      exists e'. split; [|done]. simpl. rewrite lookup_delete_ne; [done|].
      intros ->. done. }
    exists f', (deleted_cart_obj k u (now_iso (f_ticks f)) p :: recs).
    rewrite (for_each_cons _ _ _ _ _ Hstep). split_and!; try done.
    + rewrite Hd. simpl. by rewrite <-app_assoc.
    + intros k'. rewrite Hlook. simpl.
      destruct (decide (k' ∈ l)) as [Hin|Hnin].
      * by rewrite decide_True by (by right).
      * destruct (decide (k' = k)) as [->|Hne].
        -- rewrite lookup_delete_eq. by rewrite decide_True by left.
        -- rewrite lookup_delete_ne by done.
           rewrite decide_False; [done|]. by intros [?|?]%elem_of_cons.
    + constructor.
      * exists e, u, p, (f_ticks f). done.
      * eapply Forall2_impl; [apply Hrecs|]. simpl.
        intros k' r (e' & u' & p' & n & He' & ?). exists e', u', p', n.
        split; [|done].
        destruct (decide (k' = k)) as [->|Hne];
          [by rewrite lookup_delete_eq in He'|by rewrite lookup_delete_ne in He'].
Qed.

Lemma upsert_new cart cid d u f :
  cart_id_of cart = Ok cid → getitem cart "date" = Ok d → getitem cart "userId" = Ok u →
  f_carts f !! cid = None →
  upsert_cart cart f
  = (set_carts <[cid := projection d u cart]> (append_new cart f), Ok tt).
Proof. intros H1 H2 H3 H4. unfold upsert_cart. mstep. by rewrite H1, H2, H4, H3. Qed.

Lemma upsert_known cart cid d e od changed f :
  cart_id_of cart = Ok cid → getitem cart "date" = Ok d →
  f_carts f !! cid = Some e → getitem e "date" = Ok od →
  products_have_changed (cart_products e) (cart_products cart) = Ok changed →
  upsert_cart cart f
  = if negb (py_eq od d) || changed
    then (set_carts (alter (dict_set "products" (cart_products cart)) cid)
            (set_carts (alter (dict_set "date" d) cid) (append_modified cart f)), Ok tt)
    else (append_unchanged cart f, Ok tt).
Proof.
  intros H1 H2 H3 H4 H5. unfold upsert_cart. mstep.
  rewrite H1, H2, H3, H4, H5. by destruct (negb (py_eq od d) || changed).
Qed.

Lemma upsert_loop l : ∀ ids f,
  rmapM cart_id_of l = Ok ids → NoDup ids →
  Forall (λ c, cart_ok c = true) l →
  (∀ k e, k ∈ ids → f_carts f !! k = Some e → entry_ok e = true) →
  ∃ f', for_each upsert_cart l f = (f', Ok tt)
    ∧ f_deleted f' = f_deleted f
    ∧ f_new f ⊆ f_new f' ∧ f_modified f ⊆ f_modified f' ∧ f_unchanged f ⊆ f_unchanged f'
    ∧ dom (f_carts f') = dom (f_carts f) ∪ list_to_set ids
    ∧ (∀ k, k ∉ ids → f_carts f' !! k = f_carts f !! k)
    ∧ (∀ i c cid, l !! i = Some c → ids !! i = Some cid →
         upserted (f_carts f !! cid) c f' (f_carts f' !! cid)).
Proof.
  induction l as [|c l IH]; intros ids f Hids Hnd Hwf Hent.
  - injection Hids as <-. exists f. simpl. split_and!; try done. set_solver.
  - apply rmapM_cons_inv in Hids as (cid & ids' & Hcid & Hids & ->).
    apply NoDup_cons in Hnd as [Hnotin Hnd].
    apply Forall_cons in Hwf as [Hc Hwf].
    unfold cart_ok in Hc. rewrite !andb_true_iff in Hc.
    destruct Hc as [[[_ [d Hd]%is_ok_true] [u Hu]%is_ok_true] [sg Hsg]%is_ok_true].
    (* the step taken for the head of the list *)
    assert (∃ f1, upsert_cart c f = (f1, Ok tt)
              ∧ f_deleted f1 = f_deleted f
              ∧ f_new f ⊆ f_new f1 ∧ f_modified f ⊆ f_modified f1
              ∧ f_unchanged f ⊆ f_unchanged f1
              ∧ dom (f_carts f1) = dom (f_carts f) ∪ {[cid]}
              ∧ (∀ k, k ≠ cid → f_carts f1 !! k = f_carts f !! k)
              ∧ ∀ f', f_new f1 ⊆ f_new f' → f_modified f1 ⊆ f_modified f' →
                      f_unchanged f1 ⊆ f_unchanged f' →
                      upserted (f_carts f !! cid) c f' (f_carts f1 !! cid))
      as (f1 & Hstep & Hdel1 & Hn1 & Hm1 & Hu1 & Hdom1 & Hne1 & Hup1).
    { destruct (f_carts f !! cid) as [e|] eqn:He.
      - pose proof (Hent cid e ltac:(left) He) as Heok.
        unfold entry_ok in Heok. rewrite !andb_true_iff in Heok.
        destruct Heok as [[[[od Hod]%is_ok_true _] _] [sg' Hsg']%is_ok_true].
        pose proof (products_have_changed_ok _ _ _ _ Hsg' Hsg) as Hch.
        rewrite (upsert_known _ _ _ _ _ _ f Hcid Hd He Hod Hch).
        destruct (negb (py_eq od d) || negb (String.eqb sg' sg)) eqn:Hb.
        + eexists. split; [done|]. simpl. split_and!; try done.
          * set_solver.
          * apply set_eq. intros k. rewrite !elem_of_dom, elem_of_union, elem_of_singleton.
            rewrite elem_of_dom.
            destruct (decide (k = cid)) as [->|Hne].
            -- rewrite !lookup_alter_eq, He. simpl. split; [by right|by eauto].
            -- rewrite !lookup_alter_ne by done. naive_solver.
          * intros k Hne. by rewrite !lookup_alter_ne by done.
          * intros f' _ Hm' _. exists d, od, (negb (String.eqb sg' sg)).
            rewrite Hb. split_and!; try done.
            -- apply Hm'. set_solver.
            -- by rewrite !lookup_alter_eq, He.
        + eexists. split; [done|]. simpl. split_and!; try done.
          * set_solver.
          * apply (elem_of_dom_2 (D := gset string)) in He. set_solver.
          * intros f' _ _ Hu'. exists d, od, (negb (String.eqb sg' sg)).
            rewrite Hb. split_and!; try done. apply Hu'. set_solver.
      - rewrite (upsert_new _ _ _ _ f Hcid Hd Hu He).
        eexists. split; [done|]. simpl. split_and!; try done.
        + set_solver.
        + rewrite dom_insert_L. set_solver.
        + intros k Hne. by rewrite lookup_insert_ne.
        + intros f' Hn' _ _. split; [apply Hn'; set_solver|].
          exists d, u. by rewrite lookup_insert_eq. }
    destruct (IH ids' f1 Hids Hnd Hwf) as (f' & Hrun & Hdel & Hn & Hm & Hu' & Hdom & Hother & Hall).
    { intros k e Hk. rewrite Hne1 by (intros ->; done). apply Hent. by right. }
    exists f'. rewrite (for_each_cons _ _ _ _ _ Hstep). split_and!; try done.
    + congruence.
    + set_solver.
    + set_solver.
    + set_solver.
    + rewrite Hdom, Hdom1. set_solver.
    + intros k Hk. rewrite Hother by set_solver. apply Hne1. set_solver.
    + intros i c' cid' Hi Hi'. destruct i as [|i]; simpl in *; simplify_eq.
      * rewrite Hother by done. by apply Hup1.
      * assert (cid' ≠ cid) as Hne.
        { intros ->. apply Hnotin. by eapply list_elem_of_lookup_2. }
        rewrite <-(Hne1 cid') by done. by eapply Hall.
Qed.

Lemma cart_id_of_raise c e : cart_id_of c = Raise e → e = KeyError "id" ∧ dict_get "id" c = None.
Proof.
  unfold cart_id_of, getitem, mbind, result_bind.
  destruct (dict_get "id" c); [done|]. by intros [= <-].
Qed.

Lemma api_ids_raise api :
  (∃ c, c ∈ api ∧ dict_get "id" c = None) →
  rmapM cart_id_of api = Raise (KeyError "id").
Proof.
  induction api as [|c api IH]; intros (c' & Hin & Hc').
  - by apply elem_of_nil in Hin.
  - simpl. unfold mbind, result_bind.
    destruct (cart_id_of c) as [cid|e] eqn:Hc.
    + apply elem_of_cons in Hin as [->|Hin].
      * unfold cart_id_of, getitem in Hc. by rewrite Hc' in Hc.
      * by rewrite IH by eauto.
    + by apply cart_id_of_raise in Hc as [-> _].
Qed.

Lemma detect_cold set_iter api ids f :
  rmapM cart_id_of api = Ok ids →
  Forall (λ c, is_Some (dict_get "date" c) ∧ is_Some (dict_get "userId" c)) api →
  ∃ f', detect now_iso set_iter true api f = (f', Ok (Changes (f_new f ++ api) [] [] [] true))
    ∧ for_each snapshot_cart api f = (f', Ok tt).
Proof.
  intros Hids Hwf.
  destruct (cold_loop api ids f Hids Hwf) as (f' & Hrun & Hnew & _).
  exists f'. split; [|done]. unfold detect. mstep. rewrite Hids, Hrun. by rewrite Hnew.
Qed.

Variable set_iter : gset string → list string.
Hypothesis set_iter_perm : ∀ X, set_iter X ≡ₚ elements X.

(** A warm poll whose input is well formed runs both loops to the end. *)
Lemma detect_warm api ids f :
  rmapM cart_id_of api = Ok ids → NoDup ids →
  Forall (λ c, cart_ok c = true) api →
  map_Forall (λ _ e, entry_ok e = true) (f_carts f) →
  ∃ f1 f2 recs,
    for_each (delete_cart now_iso) (set_iter (dom (f_carts f) ∖ list_to_set ids)) f = (f1, Ok tt)
    ∧ for_each upsert_cart api f1 = (f2, Ok tt)
    ∧ detect now_iso set_iter false api f
      = (f2, Ok (Changes (f_new f2) (f_modified f2) (f_deleted f2) (f_unchanged f2) false))
    ∧ f_deleted f2 = f_deleted f ++ recs
    ∧ Forall2 (λ k r, ∃ e u p n, f_carts f !! k = Some e
                 ∧ getitem e "userId" = Ok u ∧ getitem e "products" = Ok p
                 ∧ r = deleted_cart_obj k u (now_iso n) p)
        (set_iter (dom (f_carts f) ∖ list_to_set ids)) recs
    ∧ (∀ k, k ∈ ids → f_carts f1 !! k = f_carts f !! k)
    ∧ (∀ k, k ∉ ids → f_carts f2 !! k = None)
    ∧ dom (f_carts f2) = list_to_set ids
    ∧ (∀ i c cid, api !! i = Some c → ids !! i = Some cid →
         upserted (f_carts f !! cid) c f2 (f_carts f2 !! cid)).
Proof.
  intros Hids Hnd Hwf Hent.
  set (missing := dom (f_carts f) ∖ list_to_set ids).
  assert (∀ k, k ∈ set_iter missing ↔ k ∈ dom (f_carts f) ∧ k ∉ ids) as Hmiss.
  { intros k. rewrite set_iter_perm, elem_of_elements. unfold missing.
    rewrite elem_of_difference, elem_of_list_to_set. done. }
  destruct (delete_loop (set_iter missing) f) as (f1 & recs & Hrun1 & Hn1 & Hm1 & Hu1 & Hd1 & Hlook1 & Hrecs).
  { rewrite set_iter_perm. apply NoDup_elements. }
  { intros k [[e He]%elem_of_dom _]%Hmiss. exists e. split; [done|].
    pose proof (Hent k e He) as Hok. unfold entry_ok in Hok. rewrite !andb_true_iff in Hok.
    destruct Hok as [[[_ [u Hu]%is_ok_true] [p Hp]%is_ok_true] _].
    apply getitem_is_Some in Hu, Hp. by rewrite Hu, Hp. }
  assert (∀ k, k ∈ ids → f_carts f1 !! k = f_carts f !! k) as Hkeep.
  { intros k Hk. rewrite Hlook1. rewrite decide_False; [done|]. rewrite Hmiss. tauto. }
  destruct (upsert_loop api ids f1 Hids Hnd Hwf) as (f2 & Hrun2 & Hd2 & _ & _ & _ & Hdom2 & Hother2 & Hall).
  { intros k e Hk. rewrite Hkeep by done. apply Hent. }
  exists f1, f2, recs. split_and!; try done.
  - unfold detect. mstep. rewrite Hids. fold missing. by rewrite Hrun1, Hrun2.
  - congruence.
  - intros k Hk. rewrite Hother2 by done. rewrite Hlook1.
    destruct (decide (k ∈ set_iter missing)) as [|Hn]; [done|].
    rewrite Hmiss in Hn. apply not_elem_of_dom. tauto.
  - rewrite Hdom2. apply set_eq. intros k.
    rewrite elem_of_union, elem_of_list_to_set, elem_of_dom, Hlook1.
    destruct (decide (k ∈ set_iter missing)) as [Hin|Hn].
    + apply Hmiss in Hin. split; [intros [[? [=]]|?]; done|tauto].
    + rewrite Hmiss in Hn. rewrite <-elem_of_dom. split; [|tauto].
      intros [?|?]; [|done]. destruct (decide (k ∈ ids)); tauto.
  - intros i c cid Hi Hi'. rewrite <-Hkeep by (by eapply list_elem_of_lookup_2).
    by eapply Hall.
Qed.
End DetectorFacts.

Lemma fs_step_spares fs op :
  spares_state_file op = true → fs_step fs op !! STATE_FILE = fs !! STATE_FILE.
Proof.
  destruct op as [d|p|p c|src dst|p]; simpl; try done;
    intros Hp%negb_true_iff%String.eqb_neq.
  - by rewrite lookup_insert_ne.
  - by rewrite lookup_alter_ne.
  - by rewrite lookup_delete_ne.
Qed.

Lemma fs_run_spares ops : ∀ fs,
  forallb spares_state_file ops = true → fs_run ops fs !! STATE_FILE = fs !! STATE_FILE.
Proof.
  induction ops as [|op ops IH]; intros fs H; [done|].
  simpl in H. apply andb_true_iff in H as [H1 H2].
  unfold fs_run in *. simpl. rewrite IH by done. by apply fs_step_spares.
Qed.

Lemma forallb_take {A} (p : A → bool) n l : forallb p l = true → forallb p (take n l) = true.
Proof.
  revert n. induction l as [|x l IH]; intros [|n] H; simpl in *; try done.
  apply andb_true_iff in H as [-> H]. by apply IH.
Qed.

Lemma spares_not_renamed ops : forallb spares_state_file ops = true → renamed ops = false.
Proof.
  induction ops as [|op ops IH]; [done|]. simpl. intros [H1 H2]%andb_true_iff.
  unfold renamed in *. simpl. rewrite IH by done. by destruct op.
Qed.

Lemma fs_run_app ops1 ops2 fs : fs_run (ops1 ++ ops2) fs = fs_run ops2 (fs_run ops1 fs).
Proof. unfold fs_run. apply fold_left_app. Qed.

Lemma string_app_cons a s t : String a s +:+ t = String a (s +:+ t).
Proof. done. Qed.

Lemma string_app_nil_r s : s +:+ "" = s.
Proof. induction s as [|a s IH]; [done|]. by rewrite string_app_cons, IH. Qed.

Lemma string_app_assoc s t u : (s +:+ t) +:+ u = s +:+ t +:+ u.
Proof. induction s as [|a s IH]; [done|]. by rewrite !string_app_cons, IH. Qed.

(** Writing to an open file appends to what it holds. *)
Lemma fs_run_writes p cs : ∀ fs s,
  fs !! p = Some s →
  fs_run (map (WriteChar p) cs) fs !! p = Some (s +:+ String.string_of_list_ascii cs).
Proof.
  induction cs as [|c cs IH]; intros fs s Hs.
  - simpl. rewrite Hs. by rewrite string_app_nil_r.
  - unfold fs_run in *. simpl. erewrite IH; [|by rewrite lookup_alter_eq, Hs].
    by rewrite string_app_assoc.
Qed.

Lemma write_ops_body_spares content :
  forallb spares_state_file (OpenW TEMP_FILE :: map (WriteChar TEMP_FILE) (str content)) = true.
Proof.
  simpl. apply forallb_forall. intros op [c [<- _]]%in_map_iff. done.
Qed.

Lemma write_ops_body content :
  write_ops content
  = (OpenW TEMP_FILE :: map (WriteChar TEMP_FILE) (str content)) ++ [Replace TEMP_FILE STATE_FILE].
Proof. done. Qed.

Lemma error_trace_spares content k :
  (k < length (write_ops content))%nat →
  forallb spares_state_file
    (Mkdir "state" :: take k (write_ops content) ++ [Unlink TEMP_FILE]) = true.
Proof.
  intros Hk. rewrite write_ops_body in *. rewrite length_app in Hk. simpl in Hk.
  rewrite take_app_le by (simpl; lia).
  change (Mkdir "state" :: ?a ++ ?b) with ([Mkdir "state"] ++ a ++ b).
  rewrite !forallb_app. rewrite forallb_take by apply write_ops_body_spares. done.
Qed.

Lemma crash_before_rename_spares content n :
  ¬ (length (Mkdir "state" :: write_ops content) ≤ n)%nat →
  forallb spares_state_file (take n (Mkdir "state" :: write_ops content)) = true.
Proof.
  intros Hn. rewrite write_ops_body in *.
  change (Mkdir "state" :: ?a ++ ?b) with ((Mkdir "state" :: a) ++ b) in *.
  rewrite length_app in Hn. simpl in Hn.
  rewrite take_app_le by (simpl; lia).
  apply forallb_take. apply (write_ops_body_spares content).
Qed.

Lemma write_ops_renamed content : renamed (Mkdir "state" :: write_ops content) = true.
Proof.
  rewrite write_ops_body. unfold renamed. simpl. rewrite existsb_app. simpl.
  by rewrite orb_true_r.
Qed.

Section PersistenceFacts.
Variable json_dump_state : state → string.
Variable json_load_state : string → decoded.

Lemma load_state_ext now fs1 fs2 :
  fs1 !! STATE_FILE = fs2 !! STATE_FILE →
  load_state json_load_state now fs1 = load_state json_load_state now fs2.
Proof. intros H. unfold load_state. by rewrite H. Qed.

Lemma fs_run_write_ops content fs :
  fs_run (write_ops content) fs !! STATE_FILE = Some content.
Proof.
  unfold write_ops. rewrite !fs_run_app.
  set (fs1 := fs_run [OpenW TEMP_FILE] fs).
  assert (fs1 !! TEMP_FILE = Some "") as H1 by apply lookup_insert_eq.
  pose proof (fs_run_writes TEMP_FILE (str content) fs1 "" H1) as H2.
  unfold fs_run at 1. simpl. rewrite H2. rewrite lookup_insert_eq.
  f_equal. unfold str. apply String.string_of_list_ascii_of_string.
Qed.

(** The state file while the operations of one save are carried out, a
    crash after [n] of them included: its content is what it was until
    the rename is done, and the complete new serialization from then on. *)
Lemma save_ops_state_file io_error content fs n :
  fs_run (take n (save_ops io_error content)) fs !! STATE_FILE
  = if renamed (take n (save_ops io_error content)) then Some content else fs !! STATE_FILE.
Proof.
  assert (∀ ops, forallb spares_state_file ops = true →
            fs_run (take n ops) fs !! STATE_FILE
            = if renamed (take n ops) then Some content else fs !! STATE_FILE) as Hspare.
  { intros ops H. rewrite (spares_not_renamed (take n ops)) by by apply forallb_take.
    apply fs_run_spares. by apply forallb_take. }
  assert (fs_run (take n (Mkdir "state" :: write_ops content)) fs !! STATE_FILE
          = if renamed (take n (Mkdir "state" :: write_ops content))
            then Some content else fs !! STATE_FILE) as Hok.
  { destruct (decide (length (Mkdir "state" :: write_ops content) ≤ n)%nat) as [Hle|Hgt].
    - rewrite take_ge by done. rewrite write_ops_renamed.
      change (Mkdir "state" :: write_ops content) with ([Mkdir "state"] ++ write_ops content).
      rewrite fs_run_app. apply fs_run_write_ops.
    - pose proof (crash_before_rename_spares _ _ Hgt) as Hsp.
      rewrite (spares_not_renamed _ Hsp). by apply fs_run_spares. }
  unfold save_ops. destruct io_error as [k|]; [|done].
  destruct (k <? length (write_ops content))%nat eqn:Hk; [|done].
  apply Nat.ltb_lt in Hk. by apply Hspare, error_trace_spares.
Qed.

(** C8. [save_state] writes the serialized snapshot to the temp file and
    renames it over the state file.  After any number [n] of its file
    operations (a crash, or a reader looking in between): before the
    rename the state file holds what it held, so [load_state] gives what
    it gave; once the rename is done it holds the complete new
    serialization; in no case a part of it.  The rename is done exactly
    when all operations have run and none has raised. *)
Theorem save_state_atomic now io_error st fs n :
  let st' := fst (save_state json_dump_state now io_error st) in
  let ops := snd (save_state json_dump_state now io_error st) in
  let fs' := fs_run (take n ops) fs in
  st' = touch_metadata now st
  ∧ fs' !! STATE_FILE
    = (if renamed (take n ops) then Some (json_dump_state st') else fs !! STATE_FILE)
  ∧ (∀ t, load_state json_load_state t fs'
          = if renamed (take n ops)
            then load_state json_load_state t {[STATE_FILE := json_dump_state st']}
            else load_state json_load_state t fs)
  ∧ renamed (take n ops)
    = bool_decide (length ops ≤ n)%nat
      && match io_error with
         | Some k => negb (k <? length (write_ops (json_dump_state st')))%nat
         | None => true
         end.
Proof.
  unfold save_state. cbn [fst snd]. split; [done|].
  pose proof (save_ops_state_file io_error (json_dump_state (touch_metadata now st)) fs n) as H.
  split; [done|]. split.
  - intros t. destruct (renamed _).
    + apply load_state_ext. rewrite H. by rewrite lookup_singleton_eq.
    + by apply load_state_ext.
  - clear H. set (content := json_dump_state _).
    assert (renamed (take n (Mkdir "state" :: write_ops content))
            = bool_decide (length (Mkdir "state" :: write_ops content) ≤ n)%nat) as Hok.
    { case_bool_decide as Hn.
      - rewrite take_ge by done. apply write_ops_renamed.
      - by apply spares_not_renamed, crash_before_rename_spares. }
    unfold save_ops. destruct io_error as [k|]; [|by rewrite andb_true_r].
    destruct (k <? length (write_ops content))%nat eqn:Hk; simpl.
    + rewrite andb_false_r. apply Nat.ltb_lt in Hk.
      by apply spares_not_renamed, forallb_take, error_trace_spares.
    + by rewrite andb_true_r.
Qed.
End PersistenceFacts.

(** ** Reading a serialization back *)

Lemma unescape_escape c r : unescape (escape_char c ++ r) = Some (c, r).
Proof. by destruct c as [[] [] [] [] [] [] [] []]. Qed.

Lemma str_inj s t : str s = str t → s = t.
Proof.
  intros H. apply (f_equal String.string_of_list_ascii) in H.
  unfold str in H. by rewrite !String.string_of_list_ascii_of_string in H.
Qed.

Lemma unstr_inj a b : unstr a = unstr b → a = b.
Proof.
  intros H. apply (f_equal String.list_ascii_of_string) in H.
  unfold unstr in H. by rewrite !String.list_ascii_of_string_of_list_ascii in H.
Qed.

(** An escaped string body is closed by the first bare double quote. *)
Lemma escaped_body_inj cs1 : ∀ cs2 r1 r2,
  flat_map escape_char cs1 ++ dquote :: r1 = flat_map escape_char cs2 ++ dquote :: r2 →
  cs1 = cs2 ∧ r1 = r2.
Proof.
  induction cs1 as [|c1 cs1 IH]; intros [|c2 cs2] r1 r2 H; simpl in H.
  - by injection H as ->.
  - apply (f_equal unescape) in H. rewrite <-app_assoc, unescape_escape in H. done.
  - apply (f_equal unescape) in H. rewrite <-app_assoc, unescape_escape in H. done.
  - apply (f_equal unescape) in H. rewrite <-!app_assoc, !unescape_escape in H.
    injection H as -> H. by destruct (IH _ _ _ H) as [-> ->].
Qed.

Lemma encode_basestring_ascii_inj s1 s2 r1 r2 :
  encode_basestring_ascii s1 ++ r1 = encode_basestring_ascii s2 ++ r2 → s1 = s2 ∧ r1 = r2.
Proof.
  unfold encode_basestring_ascii. simpl. rewrite <-!app_assoc. simpl.
  intros [= H]. apply escaped_body_inj in H as [H ->]. by apply str_inj in H as ->.
Qed.

(** ** Integers *)

Lemma uint_chars d : forallb is_int_char (str (NilEmpty.string_of_uint d)) = true.
Proof. induction d; simpl; done. Qed.

Lemma int_repr_chars z : forallb is_int_char (int_repr z) = true.
Proof.
  unfold int_repr. destruct (Z.to_int z) as [d|d]; simpl; apply uint_chars.
Qed.

Lemma int_repr_nonempty z : int_repr z ≠ [].
Proof.
  unfold int_repr. destruct z as [|p|p]; simpl; try done.
  pose proof (Unsigned.to_uint_nonnil p) as Hp. fold (Pos.to_uint p) in Hp.
  by destruct (Pos.to_uint p).
Qed.

Lemma int_repr_inj z1 z2 : int_repr z1 = int_repr z2 → z1 = z2.
Proof.
  unfold int_repr. intros H%str_inj.
  apply (f_equal NilEmpty.int_of_string) in H. rewrite !NilEmpty.isi in H.
  injection H as H. apply (f_equal Z.of_int) in H. by rewrite !DecimalZ.of_to in H.
Qed.

(** A run of characters of one class ends where the class ends. *)
Lemma span_unique (p : ascii → bool) a1 : ∀ a2 r1 r2,
  forallb p a1 = true → forallb p a2 = true →
  match r1 with [] => True | c :: _ => p c = false end →
  match r2 with [] => True | c :: _ => p c = false end →
  a1 ++ r1 = a2 ++ r2 → a1 = a2 ∧ r1 = r2.
Proof.
  induction a1 as [|c a1 IH]; intros [|c' a2] r1 r2 H1 H2 Hr1 Hr2 H; simpl in *.
  - done.
  - subst r1. apply andb_true_iff in H2 as [H2 _]. congruence.
  - subst r2. apply andb_true_iff in H1 as [H1 _]. congruence.
  - injection H as -> H. apply andb_true_iff in H1 as [_ H1], H2 as [_ H2].
    by destruct (IH _ _ _ H1 H2 Hr1 Hr2 H) as [-> ->].
Qed.

(** Induction on a value with the hypothesis for every element of a list
    and every value of a dict. *)
Lemma json_ind' (P : json → Prop) :
  P JNull → (∀ b, P (JBool b)) → (∀ z, P (JInt z)) → (∀ s, P (JStr s)) →
  (∀ l, Forall P l → P (JList l)) →
  (∀ m, Forall (λ kv, P (snd kv)) m → P (JDict m)) →
  ∀ v, P v.
Proof.
  intros Hnull Hbool Hint Hstr Hlist Hdict.
  fix go 1. intros [|b|z|s|l|m].
  - exact Hnull.
  - exact (Hbool b).
  - exact (Hint z).
  - exact (Hstr s).
  - apply Hlist. induction l as [|x l IH]; constructor; [apply go|apply IH].
  - apply Hdict. induction m as [|[k x] m IH]; constructor; [apply go|apply IH].
Qed.

(** ** The first character of a serialization *)

Lemma dumps_head sk v : head_is (kind v) (dumps sk v).
Proof.
  destruct v as [|[]|z| | |]; try done.
  simpl. pose proof (int_repr_nonempty z) as Hne. pose proof (int_repr_chars z) as Hc.
  destruct (int_repr z) as [|c r]; [done|]. simpl in *.
  apply andb_true_iff in Hc as [Hc _]. unfold head_kind. rewrite Hc.
  by destruct c as [[] [] [] [] [] [] [] []].
Qed.

Lemma head_is_app k a r : head_is k a → head_is k (a ++ r).
Proof. by destruct a. Qed.

Lemma head_is_eq k1 k2 a : head_is k1 a → head_is k2 a → k1 = k2.
Proof. destruct a; [done|]. simpl. congruence. Qed.

Lemma terminated_not_int r :
  terminated r → match r with [] => True | c :: _ => is_int_char c = false end.
Proof.
  destruct r as [|c r]; [done|]. simpl. unfold head_kind.
  by destruct c as [[] [] [] [] [] [] [] []].
Qed.

(** ** Lists of encoded parts *)

Section Join.
Context {X : Type} (enc : X → chars).

Lemma join_cons x l : join item_sep (map enc (x :: l)) = enc x ++ tail_enc enc l.
Proof.
  revert x. induction l as [|y l IH]; intros x.
  - simpl. by rewrite app_nil_r.
  - change (join item_sep (map enc (x :: y :: l)))
      with (enc x ++ item_sep ++ join item_sep (map enc (y :: l))).
    rewrite IH. unfold tail_enc. simpl. by rewrite <-?app_assoc.
Qed.

Lemma tail_enc_decode (Q : X → Prop) (close : ascii) l1 : ∀ l2 r1 r2,
  head_kind close = 0%nat → close ≠ ","%char →
  Forall (splits enc Q) l1 → Forall Q l2 →
  tail_enc enc l1 ++ close :: r1 = tail_enc enc l2 ++ close :: r2 →
  map enc l1 = map enc l2 ∧ r1 = r2.
Proof.
  intros l2 r1 r2 Hclose Hcomma. revert l2.
  induction l1 as [|x l1 IH]; intros [|y l2] H1 H2 H; simpl in H.
  - by injection H as ->.
  - injection H as Hc _. congruence.
  - injection H as Hc _. congruence.
  - apply Forall_cons in H1 as [Hx H1], H2 as [Hy H2].
    injection H as H. rewrite <-!app_assoc in H.
    assert (∀ l r, terminated (tail_enc enc l ++ close :: r)) as Hterm
      by (intros [|z l'] r; simpl; [exact Hclose|reflexivity]).
    destruct (Hx y _ _ Hy (Hterm _ _) (Hterm _ _) H) as [Hxy H'].
    destruct (IH _ H1 H2 H') as [? ->]. split; [simpl; congruence|done].
Qed.

Lemma join_decode (Q : X → Prop) (close : ascii) l1 l2 r1 r2 :
  head_kind close = 0%nat → close ≠ ","%char →
  (∀ x, ∃ k, k ≠ 0%nat ∧ head_is k (enc x)) →
  Forall (splits enc Q) l1 → Forall Q l2 →
  join item_sep (map enc l1) ++ close :: r1 = join item_sep (map enc l2) ++ close :: r2 →
  map enc l1 = map enc l2 ∧ r1 = r2.
Proof.
  intros Hclose Hcomma Hhead H1 H2 H.
  assert (∀ x r r', ¬ close :: r = enc x ++ r') as Hopen.
  { intros x r r' Heq. destruct (Hhead x) as (k & Hk & Hx).
    destruct (enc x) as [|c cs]; [done|]. simpl in *. injection Heq as <- _. congruence. }
  destruct l1 as [|x l1], l2 as [|y l2].
  - by injection H as ->.
  - rewrite join_cons in H. simpl in H. rewrite <-app_assoc in H. by apply Hopen in H.
  - rewrite join_cons in H. simpl in H. rewrite <-app_assoc in H. symmetry in H.
    by apply Hopen in H.
  - rewrite !join_cons, <-!app_assoc in H.
    apply Forall_cons in H1 as [Hx H1], H2 as [Hy H2].
    assert (∀ l r, terminated (tail_enc enc l ++ close :: r)) as Hterm
      by (intros [|z l'] r; simpl; [exact Hclose|reflexivity]).
    destruct (Hx y _ _ Hy (Hterm _ _) (Hterm _ _) H) as [Hxy H'].
    destruct (tail_enc_decode Q close _ _ _ _ Hclose Hcomma H1 H2 H') as [? ->].
    split; [simpl; congruence|done].
Qed.
End Join.

(** ** Stable insertion sort *)

Section InsertionSort.
Context {A : Type} (lt : A → A → bool).

Lemma insert_by_perm x l : insert_by lt x l ≡ₚ x :: l.
Proof.
  induction l as [|y l IH]; simpl; [done|].
  destruct (lt y x); [|done]. rewrite IH. apply perm_swap.
Qed.

Lemma sort_by_perm l : sort_by lt l ≡ₚ l.
Proof.
  induction l as [|x l IH]; simpl; [done|]. by rewrite insert_by_perm, IH.
Qed.

Lemma ordered_on_perm l l' : l ≡ₚ l' → ordered_on lt l → ordered_on lt l'.
Proof.
  intros Hp [H1 H2]. split.
  - intros a b. rewrite <-!Hp. apply H1.
  - intros a b c. rewrite <-!Hp. apply H2.
Qed.

Lemma ordered_on_tail x l : ordered_on lt (x :: l) → ordered_on lt l.
Proof.
  intros [H1 H2]. split.
  - intros a b Ha Hb. apply H1; by right.
  - intros a b c Ha Hb Hc. apply H2; by right.
Qed.

Lemma insert_by_sorted x l :
  ordered_on lt (x :: l) → StronglySorted (not_after lt) l → StronglySorted (not_after lt) (insert_by lt x l).
Proof.
  intros Hord Hl. induction Hl as [|y l Hl IH Hy]; simpl.
  - repeat constructor.
  - destruct Hord as [Hasym Htrans].
    destruct (lt y x) eqn:Hyx.
    + constructor.
      * apply IH. split.
        -- intros a b Ha Hb. apply Hasym; set_solver.
        -- intros a b c Ha Hb Hc. apply Htrans; set_solver.
      * rewrite insert_by_perm. constructor; [|done].
        apply Hasym; [set_solver..|done].
    + constructor; [by constructor|]. constructor; [done|].
      rewrite Forall_forall in Hy |- *. intros z Hz.
      apply (Htrans x y z); [set_solver..|done|by apply Hy].
Qed.

Lemma sort_by_sorted l : ordered_on lt l → StronglySorted (not_after lt) (sort_by lt l).
Proof.
  induction l as [|x l IH]; intros Hord; simpl; [constructor|].
  apply insert_by_sorted.
  - eapply ordered_on_perm; [|done]. by rewrite sort_by_perm.
  - apply IH. by eapply ordered_on_tail.
Qed.

(** Two lists with the same elements, no two of which tie, sort to the
    same list. *)
Lemma sort_by_unique l1 l2 :
  l1 ≡ₚ l2 → ordered_on lt l1 →
  (∀ a b, a ∈ l1 → b ∈ l1 → not_after lt a b → not_after lt b a → a = b) →
  sort_by lt l1 = sort_by lt l2.
Proof.
  intros Hp Hord Hanti.
  apply (StronglySorted_unique_strong (not_after lt)).
  - intros a b Ha Hb. rewrite sort_by_perm in Ha. rewrite sort_by_perm, <-Hp in Hb.
    by apply Hanti.
  - by apply sort_by_sorted.
  - apply sort_by_sorted. by eapply ordered_on_perm.
  - by rewrite !sort_by_perm.
Qed.
End InsertionSort.

(** ** The order of strings *)

Lemma string_ltb_leb s t : String.ltb s t = negb (String.leb t s).
Proof.
  unfold String.ltb, String.leb. rewrite (String.compare_antisym s t).
  by destruct (String.compare t s).
Qed.

Lemma string_ltb_asym s t : String.ltb s t = true → String.ltb t s = false.
Proof.
  unfold String.ltb. rewrite (String.compare_antisym s t).
  by destruct (String.compare t s).
Qed.

Lemma string_not_after_trans s t u :
  String.ltb t s = false → String.ltb u t = false → String.ltb u s = false.
Proof.
  rewrite !string_ltb_leb, !negb_false_iff. intros H1 H2.
  apply Is_true_true. apply Is_true_true in H1, H2.
  change (String.le s u). by trans t.
Qed.

Lemma string_not_after_antisym s t :
  String.ltb t s = false → String.ltb s t = false → s = t.
Proof.
  rewrite !string_ltb_leb, !negb_false_iff. intros H1 H2. by apply String.leb_antisym.
Qed.

(** ** The items of a dict in key order *)

Lemma sort_items_sort_by {V} (l : list (string * V)) : sort_items l = sort_by by_key l.
Proof.
  unfold sort_items, sort_by. induction l as [|x l IH]; simpl; [done|]. rewrite IH.
  clear. generalize (foldr (insert_by by_key) [] l). intros r.
  induction r as [|y r IH]; simpl; [done|]. unfold by_key at 1. by rewrite IH.
Qed.

Lemma by_key_ordered {V} (l : list (string * V)) : ordered_on by_key l.
Proof.
  split.
  - intros a b _ _. apply string_ltb_asym.
  - intros a b c _ _ _. unfold not_after, by_key. apply string_not_after_trans.
Qed.

Lemma sort_items_perm {V} (l : list (string * V)) : sort_items l ≡ₚ l.
Proof. rewrite sort_items_sort_by. apply sort_by_perm. Qed.

Lemma NoDup_fst_inj {K V} (l : list (K * V)) a b :
  NoDup (map fst l) → a ∈ l → b ∈ l → fst a = fst b → a = b.
Proof.
  induction l as [|x l IH]; intros Hnd Ha Hb Hab; [by apply elem_of_nil in Ha|].
  simpl in Hnd. apply NoDup_cons in Hnd as [Hx Hnd].
  apply elem_of_cons in Ha as [->|Ha], Hb as [->|Hb]; auto.
  - exfalso. apply Hx. rewrite Hab. apply list_elem_of_fmap. by exists b.
  - exfalso. apply Hx. rewrite <-Hab. apply list_elem_of_fmap. by exists a.
Qed.

(** Dicts with the same items in another order have the same sorted items. *)
Lemma sort_items_unique {V} (l1 l2 : list (string * V)) :
  l1 ≡ₚ l2 → NoDup (map fst l1) → sort_items l1 = sort_items l2.
Proof.
  intros Hp Hnd. rewrite !sort_items_sort_by. apply sort_by_unique; [done|..].
  - apply by_key_ordered.
  - intros a b Ha Hb H1 H2. eapply NoDup_fst_inj; [done..|].
    by apply string_not_after_antisym.
Qed.

Section Decoding.
Local Arguments encode_basestring_ascii : simpl never.
Local Arguments int_repr : simpl never.

(** ** A serialization can be read in one way only *)

Lemma dumps_list l :
dumps true (JList l) = "["%char :: join item_sep (map (dumps true) l) ++ ["]"%char].
Proof. done. Qed.

Lemma dumps_dict m :
dumps true (JDict m)
= "{"%char :: join item_sep (map encode_item (sort_items (map item_dumps m))) ++ ["}"%char].
Proof.
simpl. do 5 f_equal. apply map_ext. by intros [].
Qed.

Lemma encode_item_head kv : ∃ k, k ≠ 0%nat ∧ head_is k (encode_item kv).
Proof. by exists 5%nat. Qed.

Lemma encode_item_splits k v :
(∀ v2 r1 r2, terminated r1 → terminated r2 →
   dumps true v ++ r1 = dumps true v2 ++ r2 → dumps true v = dumps true v2 ∧ r1 = r2) →
splits encode_item (λ y, ∃ v2, snd y = dumps true v2) (k, dumps true v).
Proof.
intros IH [k' s'] r1 r2 [v2 Hv2] T1 T2 H. simpl in Hv2. subst s'.
unfold encode_item in *. cbn [fst snd] in *. rewrite <-!app_assoc in H.
apply encode_basestring_ascii_inj in H as [-> H].
apply app_inv_head in H. by destruct (IH _ _ _ T1 T2 H) as [-> ->].
Qed.

Lemma dumps_splits v1 : ∀ v2 r1 r2,
terminated r1 → terminated r2 →
dumps true v1 ++ r1 = dumps true v2 ++ r2 →
dumps true v1 = dumps true v2 ∧ r1 = r2.
Proof.
induction v1 as [|b1|z1|s1|l1 IH|m1 IH] using json_ind'; intros v2 r1 r2 T1 T2 H.
all: assert (kind v2 = kind _) as Hk
  by (eapply head_is_eq; [apply head_is_app, (dumps_head true v2)
                         |rewrite <-H; apply head_is_app, dumps_head]).
- destruct v2 as [|[]| | | |]; try done. by apply app_inv_head in H.
- destruct v2 as [|b2| | | |]; try (by destruct b1).
  destruct b1, b2; try done; by apply app_inv_head in H.
- destruct v2 as [|[]|z2| | |]; try done. simpl in *.
  by destruct (span_unique is_int_char _ _ _ _ (int_repr_chars z1) (int_repr_chars z2)
                 (terminated_not_int _ T1) (terminated_not_int _ T2) H) as [-> ->].
- destruct v2 as [|[]| |s2| |]; try done. simpl in *.
  by apply encode_basestring_ascii_inj in H as [-> ->].
- destruct v2 as [|[]| | |l2|]; try done. rewrite !dumps_list in *.
  simpl in H. injection H as H. rewrite <-!app_assoc in H. simpl in H.
  apply (join_decode (dumps true) (λ _, True)) in H as [-> ->]; try done.
  + intros x. exists (kind x). split; [by destruct x as [|[]| | | |]|apply dumps_head].
  + eapply Forall_impl; [apply IH|]. intros x Hx y r1' r2' _. apply Hx.
  + by apply Forall_true.
- destruct v2 as [|[]| | | |m2]; try done. rewrite !dumps_dict in *.
  simpl in H. injection H as H. rewrite <-!app_assoc in H. simpl in H.
  apply (join_decode encode_item (λ y, ∃ v2, snd y = dumps true v2)) in H as [-> ->];
    try done.
  + apply encode_item_head.
  + rewrite sort_items_perm. apply Forall_fmap.
    eapply Forall_impl; [apply IH|]. intros [k x] Hx. by apply encode_item_splits.
  + rewrite sort_items_perm. apply Forall_fmap, Forall_true. intros [k x]. by exists x.
Qed.

(** Equal serializations come from the same data. *)
Lemma dumps_equiv v1 : ∀ v2, dumps true v1 = dumps true v2 → json_equiv v1 v2.
Proof.
induction v1 as [|b1|z1|s1|l1 IH|m1 IH] using json_ind'; intros v2 H.
all: assert (kind v2 = kind _) as Hk
  by (eapply head_is_eq; [apply (dumps_head true v2)|rewrite <-H; apply dumps_head]).
- destruct v2 as [|[]| | | |]; try done. constructor.
- destruct v2 as [|b2| | | |]; try (by destruct b1).
  destruct b1, b2; try done; constructor.
- destruct v2 as [|[]|z2| | |]; try done. simpl in H.
  apply int_repr_inj in H as ->. constructor.
- destruct v2 as [|[]| |s2| |]; try done. simpl in H.
  assert (encode_basestring_ascii s1 ++ [] = encode_basestring_ascii s2 ++ []) as H'
    by (by rewrite !app_nil_r).
  apply encode_basestring_ascii_inj in H' as [-> _]. constructor.
- destruct v2 as [|[]| | |l2|]; try done. rewrite !dumps_list in H.
  injection H as H.
  apply (join_decode (dumps true) (λ _, True)) in H as [H _]; try done.
  + constructor. clear Hk. revert l2 H. induction IH as [|x l1 Hx _ IHl]; intros [|y l2] H; try done.
    injection H as H1 H2. constructor; auto.
  + intros x. exists (kind x). split; [by destruct x as [|[]| | | |]|apply dumps_head].
  + apply Forall_true. intros x y r1 r2 _. apply dumps_splits.
  + by apply Forall_true.
- destruct v2 as [|[]| | | |m2]; try done. rewrite !dumps_dict in H.
  injection H as H.
  apply (join_decode encode_item (λ y, ∃ v2, snd y = dumps true v2)) in H as [H _];
    try done.
  + (* the sorted items are the same list *)
    assert (sort_items (map item_dumps m1) = sort_items (map item_dumps m2)) as Hsort.
    { assert (∀ L : list (string * chars), Forall (λ y, ∃ v, snd y = dumps true v) L →
                ∀ L', Forall (λ y, ∃ v, snd y = dumps true v) L' →
                      map encode_item L = map encode_item L' → L = L') as Hinj.
      { clear. induction 1 as [|[k s] L [v Hv] _ IH]; intros [|[k' s'] L'] HL' Heq;
          try done.
        apply Forall_cons in HL' as [[v' Hv'] HL']. cbn [fst snd] in *. subst.
        rewrite !map_cons in Heq.
        assert (encode_item (k, dumps true v) = encode_item (k', dumps true v')
                ∧ map encode_item L = map encode_item L') as [H1 H2]
          by (split; congruence).
        unfold encode_item in H1. cbn [fst snd] in H1.
        assert (encode_basestring_ascii k ++ key_sep ++ dumps true v ++ []
                = encode_basestring_ascii k' ++ key_sep ++ dumps true v' ++ []) as H1'
          by (by rewrite !app_nil_r).
        apply encode_basestring_ascii_inj in H1' as [-> H1'].
        apply app_inv_head in H1'. rewrite !app_nil_r in H1'. rewrite H1'.
        f_equal. by apply IH. }
      apply Hinj; [| |done]; rewrite sort_items_perm; apply Forall_fmap, Forall_true;
        intros [k x]; by exists x. }
    assert (map item_dumps m1 ≡ₚ map item_dumps m2) as Hp.
    { by rewrite <-(sort_items_perm (map item_dumps m1)), Hsort, sort_items_perm. }
    apply Permutation_map_inv in Hp as (m2' & Hm2' & Hp).
    apply (equiv_dict m1 m2 m2'); [done|].
    clear -IH Hm2'. revert m2' Hm2'.
    induction IH as [|[k x] m1 Hx _ IHm]; intros [|[k' x'] m2'] H; try done.
    injection H as -> H1 H2. constructor; [split; [done|by apply Hx]|auto].
  + apply encode_item_head.
  + rewrite sort_items_perm. apply Forall_fmap, Forall_true.
    intros [k x]. apply encode_item_splits. apply dumps_splits.
  + rewrite sort_items_perm. apply Forall_fmap, Forall_true. intros [k x]. by exists x.
Qed.

Lemma wf_json_list l : wf_json (JList l) = true ↔ Forall (λ x, wf_json x = true) l.
Proof. simpl. rewrite forallb_forall, Forall_forall. by setoid_rewrite list_elem_of_In. Qed.

Lemma wf_json_dict m :
wf_json (JDict m) = true ↔ NoDup (map fst m) ∧ Forall (λ kv, wf_json (snd kv) = true) m.
Proof.
simpl. rewrite andb_true_iff, bool_decide_eq_true, forallb_forall, Forall_forall.
setoid_rewrite list_elem_of_In. split; intros [H1 H2]; (split; [done|]).
- intros [k x] Hx. by apply (H2 _ Hx).
- intros [k x] Hx. by apply (H2 _ Hx).
Qed.

(** The same data, with no key bound twice, has one serialization. *)
Lemma equiv_dumps v1 : ∀ v2,
wf_json v1 = true → wf_json v2 = true → json_equiv v1 v2 → dumps true v1 = dumps true v2.
Proof.
induction v1 as [|b1|z1|s1|l1 IH|m1 IH] using json_ind'; intros v2 W1 W2 E;
  inversion E; subst; try done.
- rewrite !dumps_list. do 3 f_equal.
  apply wf_json_list in W1, W2.
  match goal with H : Forall2 _ _ _ |- _ => rename H into HF end.
  clear E. revert IH W1 W2. induction HF as [|x y l1 l2 Hxy _ IHF]; intros IH W1 W2; [done|].
  apply Forall_cons in IH as [Hx IH], W1 as [Wx W1], W2 as [Wy W2].
  simpl. f_equal; auto.
- rewrite !dumps_dict. do 4 f_equal.
  apply wf_json_dict in W1 as [N1 W1], W2 as [N2 W2].
  match goal with H : _ ≡ₚ _ |- _ => rename H into Hp end.
  match goal with H : Forall2 _ _ _ |- _ => rename H into HF end.
  rewrite <-Hp in W2.
  assert (map item_dumps m1 = map item_dumps m2') as ->.
  { clear E N1 N2 Hp. revert IH W1 W2.
    induction HF as [|[k x] [k' y] m1 m2' [Hk Hxy] _ IHF]; intros IH W1 W2; [done|].
    apply Forall_cons in IH as [Hx IH], W1 as [Wx W1], W2 as [Wy W2].
    simpl in *. subst k'. unfold item_dumps at 1 3. simpl. f_equal; auto.
    f_equal. auto. }
  apply sort_items_unique; [by rewrite Hp|].
  rewrite map_map. simpl. by rewrite Hp.
Qed.
End Decoding.

(** ** Equality and order of values *)

Lemma py_eq_cons x r y r' :
  py_eq (JList (x :: r)) (JList (y :: r')) = py_eq x y && py_eq (JList r) (JList r').
Proof. done. Qed.

Lemma py_eq_dict m m' :
  py_eq (JDict m) (JDict m')
  = (length m =? length m')%nat
    && forallb (λ kv, match dict_get kv.1 m' with
                      | Some y => py_eq kv.2 y
                      | None => false
                      end) m.
Proof.
  simpl. f_equal. induction m as [|[k x] m IH]; simpl; [done|].
  destruct (dict_get k m'); [by rewrite IH|done].
Qed.

Lemma dict_get_elem_of k v (m : jdict) :
  NoDup (map fst m) → dict_get k m = Some v ↔ (k, v) ∈ m.
Proof.
  induction m as [|[k' v'] m IH]; simpl; intros Hnd.
  - split; [done|]. by intros ?%elem_of_nil.
  - apply NoDup_cons in Hnd as [Hk' Hnd]. rewrite elem_of_cons.
    destruct (String.eqb k' k) eqn:E.
    + apply String.eqb_eq in E as ->. split; [intros [= ->]; by left|].
      intros [[= ->]|Hin]; [done|]. exfalso. apply Hk'.
      apply list_elem_of_fmap. by exists (k, v).
    + apply String.eqb_neq in E. rewrite IH by done. split; [by right|].
      intros [[= -> ->]|?]; done.
Qed.

Lemma dict_get_elem k v (m : jdict) : dict_get k m = Some v → (k, v) ∈ m.
Proof.
  induction m as [|[k' v'] m IH]; simpl; [done|].
  destruct (String.eqb k' k) eqn:E.
  - apply String.eqb_eq in E as ->. intros [= ->]. left.
  - intros H. right. by apply IH.
Qed.

(** [==] on two dicts that bind no key twice: the same keys, bound to
    values that are [==]. *)
Lemma py_eq_dict_true m m' :
  py_eq (JDict m) (JDict m') = true ↔
  length m = length m'
  ∧ ∀ k x, (k, x) ∈ m → ∃ y, dict_get k m' = Some y ∧ py_eq x y = true.
Proof.
  rewrite py_eq_dict, andb_true_iff, Nat.eqb_eq, forallb_forall.
  split; intros [Hlen H]; (split; [done|]).
  - intros k x Hin. specialize (H (k, x) (proj1 (list_elem_of_In _ _) Hin)). simpl in H.
    destruct (dict_get k m') as [y|]; [by exists y|done].
  - intros [k x] Hin%list_elem_of_In. destruct (H k x Hin) as (y & Hy1 & Hy).
    simpl. by rewrite Hy1.
Qed.

(** Dicts of the same size, the keys of one among the keys of the other:
    the same keys. *)
Lemma same_size_same_keys (m m' : jdict) :
  NoDup (map fst m) → length m = length m' →
  (∀ k, k ∈ map fst m → k ∈ map fst m') →
  ∀ k, k ∈ map fst m' → k ∈ map fst m.
Proof.
  intros Hnd Hlen Hsub k Hk.
  assert (map fst m ≡ₚ map fst m') as Hp.
  { apply submseteq_length_Permutation; [by apply NoDup_submseteq|].
    by rewrite !length_map, Hlen. }
  by rewrite Hp.
Qed.

Lemma py_eq_sym a : ∀ b, wf_json a = true → wf_json b = true → py_eq a b = py_eq b a.
Proof.
  induction a as [|ab|az|astr|l IH|m IH] using json_ind'; intros b Wa Wb;
    destruct b as [|bb|bz|bstr|l'|m']; try done.
  - simpl. apply Z.eqb_sym.
  - simpl. apply Z.eqb_sym.
  - simpl. apply Z.eqb_sym.
  - simpl. apply Z.eqb_sym.
  - simpl. apply String.eqb_sym.
  - apply wf_json_list in Wa, Wb. revert l' Wb.
    induction IH as [|x l Hx _ IHl]; intros [|y l'] Wb; try done.
    apply Forall_cons in Wa as [Wx Wl], Wb as [Wy Wl'].
    rewrite !py_eq_cons, (Hx y) by done. f_equal. by apply IHl.
  - apply wf_json_dict in Wa as [Na Wa], Wb as [Nb Wb].
    rewrite Forall_forall in IH, Wa, Wb.
    assert (∀ m1 m2 : jdict,
              NoDup (map fst m1) → NoDup (map fst m2) →
              (∀ k x y, (k, x) ∈ m1 → (k, y) ∈ m2 → py_eq x y = true → py_eq y x = true) →
              py_eq (JDict m1) (JDict m2) = true → py_eq (JDict m2) (JDict m1) = true) as Hhalf.
    { intros m1 m2 N1 N2 Hflip [Hlen H]%py_eq_dict_true. apply py_eq_dict_true.
      split; [done|]. intros k y Hin.
      assert (k ∈ map fst m1) as Hk.
      { apply (same_size_same_keys m1 m2); [done|done| |].
        - intros k' (kv & -> & Hkv)%list_elem_of_fmap. destruct kv as [k' x'].
          destruct (H k' x' Hkv) as (y' & Hy'%dict_get_elem & _).
          apply list_elem_of_fmap. by exists (k', y').
        - apply list_elem_of_fmap. by exists (k, y). }
      apply list_elem_of_fmap in Hk as ([k' x] & Hk' & Hx). simpl in Hk'. subst k'.
      exists x. split; [by apply dict_get_elem_of|].
      destruct (H k x Hx) as (y' & Hy' & Hxy).
      apply dict_get_elem_of in Hy'; [|done].
      assert (y' = y) as ->.
      { apply (dict_get_elem_of k) in Hy', Hin; try done. congruence. }
      by apply (Hflip k x y). }
    destruct (py_eq (JDict m) (JDict m')) eqn:E1, (py_eq (JDict m') (JDict m)) eqn:E2;
      try done.
    + rewrite Hhalf in E2; try done. intros k x y Hx Hy Hxy.
      pose proof (IH (k, x) Hx y (Wa _ Hx) (Wb _ Hy)) as Hs. simpl in Hs. congruence.
    + rewrite (Hhalf m' m) in E1; try done. intros k y x Hy Hx Hyx.
      pose proof (IH (k, x) Hx y (Wa _ Hx) (Wb _ Hy)) as Hs. simpl in Hs. congruence.
Qed.

Lemma py_eq_trans a : ∀ b c, py_eq a b = true → py_eq b c = true → py_eq a c = true.
Proof.
  induction a as [|ab|az|astr|l IH|m IH] using json_ind'; intros b c;
    destruct b as [|bb|bz|bstr|l'|m']; try done;
    destruct c as [|cb|cz|cstr|l''|m'']; try done.
  1-8: simpl; rewrite !Z.eqb_eq; congruence.
  - simpl. rewrite !String.eqb_eq. congruence.
  - revert l' l''. induction IH as [|x l Hx _ IHl]; intros [|y l'] [|z l'']; try done.
    rewrite !py_eq_cons, !andb_true_iff. intros [H1 H2] [H3 H4]. split; [by eapply Hx|].
    by eapply IHl.
  - rewrite !py_eq_dict_true. intros [Hlen1 H1] [Hlen2 H2]. split; [congruence|].
    intros k x Hx. destruct (H1 k x Hx) as (y & Hy & Hxy).
    destruct (H2 k y (dict_get_elem _ _ _ Hy)) as (z & Hz & Hyz).
    exists z. split; [done|]. rewrite Forall_forall in IH. by apply (IH (k, x) Hx y z).
Qed.

Lemma py_eq_cong b c a :
  wf_json a = true → wf_json b = true → wf_json c = true →
  py_eq b c = true → py_eq a b = py_eq a c ∧ py_eq b a = py_eq c a.
Proof.
  intros Wa Wb Wc Hbc.
  assert (py_eq a b = py_eq a c) as H.
  { destruct (py_eq a b) eqn:E1, (py_eq a c) eqn:E2; try done.
    - by rewrite (py_eq_trans a b c E1 Hbc) in E2.
    - rewrite (py_eq_sym b c) in Hbc by done.
      by rewrite (py_eq_trans a c b E2 Hbc) in E1. }
  split; [done|]. by rewrite (py_eq_sym b a), (py_eq_sym c a).
Qed.

(** [<] on two lists. *)
Lemma py_lt_cons x r y r' :
  py_lt (JList (x :: r)) (JList (y :: r'))
  = if py_eq x y then py_lt (JList r) (JList r') else py_lt x y.
Proof. done. Qed.

(** [<] does not tell values that are [==] apart. *)
Lemma py_lt_cong a : ∀ b c,
  wf_json a = true → wf_json b = true → wf_json c = true →
  py_eq b c = true → py_lt a b = py_lt a c ∧ py_lt b a = py_lt c a.
Proof.
  induction a as [|ab|az|astr|l IH|m IH] using json_ind'; intros b c Wa Wb Wc;
    destruct b as [|bb|bz|bstr|l'|m']; try done;
    destruct c as [|cb|cz|cstr|l''|m'']; try done;
    try (simpl; rewrite Z.eqb_eq; by intros ->);
    try (simpl; rewrite String.eqb_eq; by intros ->).
  apply wf_json_list in Wa, Wb, Wc. revert l' l'' Wb Wc.
  induction IH as [|x l Hx _ IHl]; intros [|y l'] [|z l''] Wb Wc; try done.
  apply Forall_cons in Wa as [Wx Wl], Wb as [Wy Wl'], Wc as [Wz Wl''].
  rewrite py_eq_cons, andb_true_iff. intros [Hyz Htl]. rewrite !py_lt_cons.
  destruct (py_eq_cong y z x Wx Wy Wz Hyz) as [-> ->].
  destruct (Hx y z Wx Wy Wz Hyz) as [-> ->].
  destruct (IHl Wl l' l'' Wl' Wl'' Htl) as [-> ->]. done.
Qed.

Lemma py_lt_asym a : ∀ b,
  wf_json a = true → wf_json b = true → py_lt a b = Ok true → py_lt b a = Ok false.
Proof.
  induction a as [|ab|az|astr|l IH|m IH] using json_ind'; intros b Wa Wb;
    destruct b as [|bb|bz|bstr|l'|m']; try done;
    try (simpl; intros [= H%Z.ltb_lt]; f_equal; apply Z.ltb_ge; lia).
  - simpl. intros [= H]. f_equal. by apply string_ltb_asym.
  - apply wf_json_list in Wa, Wb. revert l' Wb.
    induction IH as [|x l Hx _ IHl]; intros [|y l'] Wb; try done.
    apply Forall_cons in Wa as [Wx Wl], Wb as [Wy Wl'].
    rewrite !py_lt_cons, (py_eq_sym y x) by done.
    destruct (py_eq x y); [by apply IHl|by apply Hx].
Qed.

Lemma string_ltb_trans s t u :
  String.ltb s t = true → String.ltb t u = true → String.ltb s u = true.
Proof.
  rewrite !string_ltb_leb, !negb_true_iff. intros H1 H2.
  destruct (String.leb u s) eqn:E; [|done].
  destruct (String.leb_total s t) as [Hst|Hts]; [|congruence].
  assert (String.le u t) as Hut.
  { trans s; apply Is_true_true; done. }
  apply Is_true_true in Hut. congruence.
Qed.

Lemma py_lt_trans a : ∀ b c,
  wf_json a = true → wf_json b = true → wf_json c = true →
  py_lt a b = Ok true → py_lt b c = Ok true → py_lt a c = Ok true.
Proof.
  induction a as [|ab|az|astr|l IH|m IH] using json_ind'; intros b c Wa Wb Wc;
    destruct b as [|bb|bz|bstr|l'|m']; try done;
    destruct c as [|cb|cz|cstr|l''|m'']; try done;
    try (simpl; intros [= H1%Z.ltb_lt] [= H2%Z.ltb_lt]; f_equal; apply Z.ltb_lt; lia).
  - simpl. intros [= H1] [= H2]. f_equal. by eapply string_ltb_trans.
  - apply wf_json_list in Wa, Wb, Wc. revert l' l'' Wb Wc.
    induction IH as [|x l Hx _ IHl]; intros [|y l'] [|z l''] Wb Wc; try done.
    apply Forall_cons in Wa as [Wx Wl], Wb as [Wy Wl'], Wc as [Wz Wl''].
    rewrite !py_lt_cons.
    destruct (py_eq x y) eqn:Exy, (py_eq y z) eqn:Eyz.
    + rewrite (py_eq_trans x y z Exy Eyz). by apply IHl.
    + intros _ Hyz. destruct (py_eq_cong x y z Wz Wx Wy Exy) as [_ Hxz].
      rewrite Hxz, Eyz.
      destruct (py_lt_cong z x y Wz Wx Wy Exy) as [_ ->]. done.
    + intros Hxy _. destruct (py_eq_cong y z x Wx Wy Wz Eyz) as [<- _]. rewrite Exy.
      by destruct (py_lt_cong x y z Wx Wy Wz Eyz) as [<- _].
    + intros Hxy Hyz. destruct (py_eq x z) eqn:Exz; [|by apply (Hx y z)].
      exfalso. destruct (py_lt_cong y x z Wy Wx Wz Exz) as [_ Hcong].
      rewrite Hxy in Hcong. pose proof (py_lt_asym y z Wy Wz Hyz). congruence.
Qed.

(** Values that are the same data are [==]. *)
Lemma json_equiv_py_eq a : ∀ b,
  wf_json a = true → wf_json b = true → json_equiv a b → py_eq a b = true.
Proof.
  induction a as [|ab|az|astr|l IH|m IH] using json_ind'; intros b Wa Wb E;
    inversion E as [| | | |? l' HF|? m' m'' Hp HF]; subst.
  - done.
  - simpl. apply Z.eqb_refl.
  - simpl. apply Z.eqb_refl.
  - simpl. apply String.eqb_refl.
  - apply wf_json_list in Wa, Wb. clear E. revert l' HF Wb.
    induction IH as [|x l Hx _ IHl]; intros l' HF Wb; inversion HF as [|? y ? l'' Hxy HF'];
      subst; [done|].
    apply Forall_cons in Wa as [Wx Wl], Wb as [Wy Wl']. rewrite py_eq_cons, Hx by done.
    by apply IHl.
  - apply wf_json_dict in Wa as [Na Wa], Wb as [Nb Wb]. apply py_eq_dict_true.
    split; [by rewrite <-Hp; eapply Forall2_length|].
    rewrite Forall_forall in IH, Wa, Wb. intros k x Hx.
    apply list_elem_of_lookup_1 in Hx as [i Hi].
    destruct (Forall2_lookup_l _ _ _ _ _ HF Hi) as ([k' y] & Hi' & Hk & Hxy).
    simpl in Hk, Hxy. subst k'.
    assert ((k, y) ∈ m') as Hy by (rewrite <-Hp; by eapply list_elem_of_lookup_2).
    exists y. split; [by apply dict_get_elem_of|].
    apply (IH (k, x)); [by eapply list_elem_of_lookup_2| |apply (Wb _ Hy)|done].
    apply (Wa (k, x)). by eapply list_elem_of_lookup_2.
Qed.

(** [<] on values that are the same data. *)
Lemma json_equiv_py_lt a a' b b' :
  wf_json a = true → wf_json a' = true → wf_json b = true → wf_json b' = true →
  json_equiv a a' → json_equiv b b' → py_lt a b = py_lt a' b'.
Proof.
  intros Wa Wa' Wb Wb' Ea Eb.
  pose proof (json_equiv_py_eq a a' Wa Wa' Ea) as Ha.
  pose proof (json_equiv_py_eq b b' Wb Wb' Eb) as Hb.
  destruct (py_lt_cong b a a' Wb Wa Wa' Ha) as [_ ->].
  by destruct (py_lt_cong a' b b' Wa' Wb Wb' Hb) as [-> _].
Qed.

(** ** Product ids as sort keys *)

Lemma insert_keyed_insert_by x l r : insert_keyed x l = Ok r → r = insert_by key_ltb x l.
Proof.
  revert r. induction l as [|y l IH]; intros r H; simpl in *.
  - by injection H as <-.
  - unfold key_ltb at 1. unfold mbind, result_bind in H.
    destruct (py_lt y.1 x.1) as [[]|]; [| |done].
    + destruct (insert_keyed x l) as [r'|]; [|done]. injection H as <-. f_equal. by apply IH.
    + by injection H as <-.
Qed.

Lemma sort_keyed_sort_by l r : sort_keyed l = Ok r → r = sort_by key_ltb l.
Proof.
  revert r. induction l as [|x l IH]; intros r H; simpl in *.
  - by injection H as <-.
  - unfold mbind, result_bind in H. destruct (sort_keyed l) as [r'|]; [|done].
    rewrite <-(IH r' eq_refl). by apply insert_keyed_insert_by.
Qed.

Lemma differ_sym a b : differ a b = differ b a.
Proof. unfold differ. by destruct (py_lt a b) as [[]|], (py_lt b a) as [[]|]. Qed.

Lemma differ_key_ltb (a b : json * json) :
  differ a.1 b.1 = true → key_ltb a b = true ∨ key_ltb b a = true.
Proof.
  unfold differ, key_ltb.
  destruct (py_lt a.1 b.1) as [[]|], (py_lt b.1 a.1) as [[]|]; auto.
Qed.

(** Two keys that differ can be compared, whichever comes first. *)
Lemma differ_defined a b :
  wf_json a = true → wf_json b = true → differ a b = true → ∃ r, py_lt b a = Ok r.
Proof.
  intros Wa Wb. unfold differ. destruct (py_lt a b) as [[]|] eqn:E.
  - intros _. rewrite (py_lt_asym a b Wa Wb E). by eexists.
  - destruct (py_lt b a) as [[]|]; [by eexists|done..].
  - destruct (py_lt b a) as [[]|]; [by eexists|done..].
Qed.

Lemma key_ltb_asym (a b : json * json) :
  wf_json a.1 = true → wf_json b.1 = true → key_ltb a b = true → key_ltb b a = false.
Proof.
  intros Wa Wb. unfold key_ltb. destruct (py_lt a.1 b.1) as [[]|] eqn:E; try done.
  intros _. by rewrite (py_lt_asym _ _ Wa Wb E).
Qed.

Lemma key_ltb_trans (a b c : json * json) :
  wf_json a.1 = true → wf_json b.1 = true → wf_json c.1 = true →
  key_ltb a b = true → key_ltb b c = true → key_ltb a c = true.
Proof.
  intros Wa Wb Wc. unfold key_ltb.
  destruct (py_lt a.1 b.1) as [[]|] eqn:E1; try done.
  destruct (py_lt b.1 c.1) as [[]|] eqn:E2; try done.
  intros _ _. by rewrite (py_lt_trans _ _ _ Wa Wb Wc E1 E2).
Qed.

Lemma not_after_not_differ a b :
  not_after key_ltb a b → not_after key_ltb b a → differ a.1 b.1 = false.
Proof.
  unfold not_after, key_ltb, differ.
  by destruct (py_lt a.1 b.1) as [[]|], (py_lt b.1 a.1) as [[]|].
Qed.

Lemma distinct_keys_perm l l' : l ≡ₚ l' → distinct_keys l → distinct_keys l'.
Proof.
  intros Hp [Hs Hd]. split; [by rewrite <-Hp|]. clear Hs.
  induction Hp as [|x l l' Hp IH|x y l|l l' l'' _ IH1 _ IH2].
  - done.
  - apply StronglySorted_inv in Hd as [H1 H2]. constructor; [by apply IH|]. by rewrite <-Hp.
  - apply StronglySorted_inv in Hd as [H1 H2].
    apply StronglySorted_inv in H1 as [H1 H3].
    apply Forall_cons in H2 as [Hyx H2].
    constructor; [by constructor|]. constructor; [by rewrite differ_sym|done].
  - auto.
Qed.

Lemma distinct_keys_wf l a : distinct_keys l → a ∈ l → wf_json a.1 = true.
Proof. intros [Hs _] Ha. rewrite Forall_forall in Hs. by apply Hs. Qed.

Lemma distinct_keys_elem l a b :
  distinct_keys l → a ∈ l → b ∈ l → a = b ∨ differ a.1 b.1 = true.
Proof.
  intros [_ Hd]. induction Hd as [|x l Hl IH Hx]; intros Ha Hb; [by apply elem_of_nil in Ha|].
  rewrite Forall_forall in Hx.
  apply elem_of_cons in Ha as [->|Ha], Hb as [->|Hb]; auto.
  right. rewrite differ_sym. auto.
Qed.

Lemma distinct_keys_ordered l : distinct_keys l → ordered_on key_ltb l.
Proof.
  intros Hd. split.
  - intros a b Ha Hb. apply key_ltb_asym; by eapply distinct_keys_wf.
  - intros a b c Ha Hb Hc Hab Hbc. unfold not_after in *.
    destruct (key_ltb c a) eqn:Hca; [|done]. exfalso.
    destruct (distinct_keys_elem l a b Hd Ha Hb) as [->|Hdiff]; [congruence|].
    apply differ_key_ltb in Hdiff as [Hlt|Hlt]; [|congruence].
    assert (key_ltb c b = true); [|congruence].
    apply (key_ltb_trans c a b); try done; by eapply distinct_keys_wf.
Qed.

Lemma distinct_keys_antisym l a b :
  distinct_keys l → a ∈ l → b ∈ l →
  not_after key_ltb a b → not_after key_ltb b a → a = b.
Proof.
  intros Hd Ha Hb H1 H2.
  destruct (distinct_keys_elem l a b Hd Ha Hb) as [|Hdiff]; [done|].
  by rewrite (not_after_not_differ a b H1 H2) in Hdiff.
Qed.

(** ** Items that are the same data *)

Lemma dict_get_perm k (m m' : jdict) :
  NoDup (map fst m) → m ≡ₚ m' → dict_get k m = dict_get k m'.
Proof.
  intros Hnd Hp. assert (NoDup (map fst m')) as Hnd' by (by rewrite <-Hp).
  destruct (dict_get k m) as [v|] eqn:E.
  - symmetry. apply dict_get_elem_of; [done|]. rewrite <-Hp. by apply dict_get_elem_of.
  - destruct (dict_get k m') as [v|] eqn:E'; [|done].
    apply dict_get_elem_of in E'; [|done]. rewrite <-Hp in E'.
    apply dict_get_elem_of in E'; [|done]. congruence.
Qed.

Lemma equiv_subscript p1 p2 k a b :
  wf_json p2 = true → json_equiv p1 p2 →
  subscript p1 k = Ok a → subscript p2 k = Ok b → json_equiv a b.
Proof.
  intros W2 E. inversion E as [| | | | |m1 m2 m2' Hp HF]; subst; try done.
  apply wf_json_dict in W2 as [N2 _]. simpl. unfold getitem.
  rewrite <-(dict_get_perm k m2' m2) by (by rewrite ?Hp).
  clear E Hp N2. induction HF as [|[k1 x] [k2 y] m1 m2' [Hk Hxy] _ IH]; simpl; [done|].
  simpl in Hk. subst k2. destruct (String.eqb k1 k); [|done].
  by intros [= <-] [= <-].
Qed.

Lemma getitem_wf (c : jdict) k v :
  wf_json (JDict c) = true → getitem c k = Ok v → wf_json v = true.
Proof.
  intros [Hnd Hwf]%wf_json_dict Hv. unfold getitem in Hv.
  destruct (dict_get k c) as [x|] eqn:E; [|done]. injection Hv as ->.
  apply dict_get_elem in E. rewrite Forall_forall in Hwf. apply (Hwf _ E).
Qed.

Lemma subscript_wf p k v : wf_json p = true → subscript p k = Ok v → wf_json v = true.
Proof. destruct p; try done. apply getitem_wf. Qed.

(** ** Sorting lists of the same items *)

Lemma alike_key_ltb x x' y y' : alike x x' → alike y y' → key_ltb y x = key_ltb y' x'.
Proof.
  intros (Wx & Wx' & Ex & _) (Wy & Wy' & Ey & _). unfold key_ltb.
  by rewrite (json_equiv_py_lt y.1 y'.1 x.1 x'.1).
Qed.

Lemma alike_differ x x' y y' : alike x x' → alike y y' → differ x.1 y.1 = differ x'.1 y'.1.
Proof.
  intros (Wx & Wx' & Ex & _) (Wy & Wy' & Ey & _). unfold differ.
  by rewrite (json_equiv_py_lt y.1 y'.1 x.1 x'.1), (json_equiv_py_lt x.1 x'.1 y.1 y'.1).
Qed.

Lemma insert_by_alike x x' l l' :
  alike x x' → Forall2 alike l l' →
  Forall2 alike (insert_by key_ltb x l) (insert_by key_ltb x' l').
Proof.
  intros Hx. induction 1 as [|y y' l l' Hy Hl IH]; simpl.
  - constructor; [done|constructor].
  - rewrite (alike_key_ltb x x' y y') by done.
    destruct (key_ltb y' x').
    + by constructor.
    + constructor; [done|]. by constructor.
Qed.

Lemma sort_by_alike l l' :
  Forall2 alike l l' → Forall2 alike (sort_by key_ltb l) (sort_by key_ltb l').
Proof.
  induction 1 as [|x x' l l' Hx _ IH]; simpl; [constructor|]. by apply insert_by_alike.
Qed.

Lemma distinct_keys_alike l l' : Forall2 alike l l' → distinct_keys l → distinct_keys l'.
Proof.
  intros HF [_ Hd]. split.
  { clear Hd. induction HF as [|x x' l l' Hx _ IH]; constructor; [|done]. apply Hx. }
  revert Hd. induction HF as [|x x' l l' Hx HF IH]; intros H; [constructor|].
  apply StronglySorted_inv in H as [H1 H2]. constructor; [auto|].
  clear IH H1. induction HF as [|y y' l l' Hy _ IH]; [constructor|].
  apply Forall_cons in H2 as [H2 H3]. constructor; [|auto].
  by rewrite <-(alike_differ x x' y y').
Qed.

Lemma rmapM_Forall2 {A B} (f : A → result B) l ys :
  rmapM f l = Ok ys ↔ Forall2 (λ x y, f x = Ok y) l ys.
Proof.
  revert ys. induction l as [|x l IH]; intros ys; simpl.
  - split; [intros [= <-]; constructor|by inversion 1].
  - unfold mbind, result_bind. split.
    + destruct (f x) as [y|] eqn:E; [|done]. destruct (rmapM f l) as [ys'|]; [|done].
      intros [= <-]. constructor; [done|]. by apply IH.
    + inversion 1 as [|? y ? ys' Hy HF]; subst. rewrite Hy.
      apply IH in HF. by rewrite HF.
Qed.

(** The decorated list keeps the items, each next to its product id. *)
Lemma keyed_items l dl :
  rmapM keyed_by_product_id l = Ok dl →
  map snd dl = l ∧ rmapM (λ p, subscript p "productId") l = Ok (map fst dl).
Proof.
  rewrite !rmapM_Forall2. induction 1 as [|p [k p'] l dl Hp _ [IH1 IH2]]; simpl.
  - split; [done|constructor].
  - unfold keyed_by_product_id, mbind, result_bind in Hp.
    destruct (subscript p "productId") as [k'|] eqn:E; [|done]. injection Hp as -> ->.
    split; [by f_equal|by constructor].
Qed.

(** The product ids of well-formed items are well-formed. *)
Lemma keyed_wf l dl :
  Forall (λ p, wf_json p = true) l → rmapM keyed_by_product_id l = Ok dl →
  Forall (λ x, wf_json x.1 = true) dl.
Proof.
  rewrite rmapM_Forall2. intros W H. induction H as [|p d l dl Hd _ IH]; [constructor|].
  apply Forall_cons in W as [Wp W]. constructor; [|by apply IH].
  unfold keyed_by_product_id, mbind, result_bind in Hd.
  destruct (subscript p "productId") as [k|] eqn:E; [|done]. injection Hd as <-.
  by apply (subscript_wf p "productId").
Qed.

Lemma keyed_perm l l' dl dl' :
  l ≡ₚ l' → rmapM keyed_by_product_id l = Ok dl → rmapM keyed_by_product_id l' = Ok dl' →
  dl ≡ₚ dl'.
Proof.
  rewrite !rmapM_Forall2. intros Hp H H'.
  destruct (Permutation_Forall2 Hp H) as (dl'' & Hp' & H'').
  rewrite Hp'. clear -H' H''. revert dl'' H''.
  induction H' as [|p d l' dl' Hd _ IH]; intros dl'' H''; inversion H''; subst; [done|].
  assert (d = y) as -> by congruence. f_equal. auto.
Qed.

Lemma keyed_alike l1 l2 dl1 dl2 :
  Forall (λ p, wf_json p = true) l1 → Forall (λ p, wf_json p = true) l2 →
  Forall2 json_equiv l1 l2 →
  rmapM keyed_by_product_id l1 = Ok dl1 → rmapM keyed_by_product_id l2 = Ok dl2 →
  Forall2 alike dl1 dl2.
Proof.
  rewrite !rmapM_Forall2. intros W1 W2 HE. revert dl1 dl2 W1 W2.
  induction HE as [|p1 p2 l1 l2 Hp _ IH]; intros dl1 dl2 W1 W2 H1 H2;
    inversion H1 as [|? d1 ? dl1' Hd1 H1']; inversion H2 as [|? d2 ? dl2' Hd2 H2']; subst;
    [constructor|].
  apply Forall_cons in W1 as [Wp1 W1], W2 as [Wp2 W2]. constructor; [|by apply IH].
  unfold keyed_by_product_id, mbind, result_bind in Hd1, Hd2.
  destruct (subscript p1 "productId") as [k1|] eqn:E1; [|done].
  destruct (subscript p2 "productId") as [k2|] eqn:E2; [|done].
  injection Hd1 as <-. injection Hd2 as <-. unfold alike. simpl.
  split_and!;
    [by apply (subscript_wf p1 "productId")|by apply (subscript_wf p2 "productId")| |done].
  by eapply equiv_subscript.
Qed.

Lemma pairwise_differ_distinct (dl : list (json * json)) :
  Forall (λ x, wf_json x.1 = true) dl →
  pairwise_differ (map fst dl) = true → distinct_keys dl.
Proof.
  intros W H. split; [done|]. clear W.
  induction dl as [|x dl IH]; simpl in *; [constructor|].
  apply andb_true_iff in H as [H1 H2]. constructor; [by apply IH|].
  rewrite forallb_forall in H1. apply Forall_forall. intros y Hy.
  apply H1, in_map, list_elem_of_In, Hy.
Qed.

(** What [calculate_products_signature] computes for a list of items. *)
Lemma signature_of_list l s :
  calculate_products_signature (JList l) = Ok s ↔
  ∃ dl, rmapM keyed_by_product_id l = Ok dl
        ∧ sort_keyed dl = Ok (sort_by key_ltb dl)
        ∧ s = json_dumps true (JList (map snd (sort_by key_ltb dl))).
Proof.
  unfold calculate_products_signature, sorted_by_product_id. simpl.
  unfold mbind, result_bind. split.
  - destruct (rmapM keyed_by_product_id l) as [dl|]; [|done].
    destruct (sort_keyed dl) as [r|] eqn:E; [|done].
    intros [= <-]. exists dl. pose proof (sort_keyed_sort_by _ _ E) as Hr. by subst r.
  - intros (dl & -> & -> & ->). done.
Qed.

Lemma json_equiv_refl v : json_equiv v v.
Proof.
  induction v as [| | | |l IH|m IH] using json_ind'; try constructor.
  - induction IH; by constructor.
  - apply (equiv_dict m m m); [done|]. induction IH; by constructor.
Qed.

(** The decorated list of items no two of which share a product id. *)
Lemma distinct_product_ids_keys l dl :
  Forall (λ p, wf_json p = true) l →
  distinct_product_ids l = true → rmapM keyed_by_product_id l = Ok dl → distinct_keys dl.
Proof.
  intros W Hdist Hk. apply pairwise_differ_distinct; [by eapply keyed_wf|].
  unfold distinct_product_ids in Hdist.
  apply keyed_items in Hk as [_ Hk]. by rewrite Hk in Hdist.
Qed.

Section Signature.
Variables (l1 l2 : list json) (s1 s2 : string).
Hypothesis sig1 : calculate_products_signature (JList l1) = Ok s1.
Hypothesis sig2 : calculate_products_signature (JList l2) = Ok s2.

(** Equal signatures: the items are the same. *)
Lemma signature_eq_same_items : s1 = s2 → same_items l1 l2.
Proof using sig1 sig2.
  apply signature_of_list in sig1 as (dl1 & Hk1 & _ & ->).
  apply signature_of_list in sig2 as (dl2 & Hk2 & _ & ->).
  intros H%unstr_inj%dumps_equiv. inversion H as [| | | |? ? HF|]; subst.
  apply keyed_items in Hk1 as [Hl1 _], Hk2 as [Hl2 _].
  assert (map snd (sort_by key_ltb dl1) ≡ₚ l1) as Hp1 by (by rewrite sort_by_perm, Hl1).
  assert (map snd (sort_by key_ltb dl2) ≡ₚ l2) as Hp2 by (by rewrite sort_by_perm, Hl2).
  destruct (Permutation_Forall2 Hp1 HF) as (l2' & Hp & HF').
  exists l2'. split; [|done]. by rewrite <-Hp, Hp2.
Qed.

(** The same items, no two of them with one product id: equal
    signatures. *)
Lemma same_items_signature_eq :
  forallb wf_json l1 = true → forallb wf_json l2 = true →
  distinct_product_ids l1 = true →
  same_items l1 l2 → s1 = s2.
Proof using sig1 sig2.
  intros W1 W2 Hdist (l2' & Hp & HF).
  apply wf_json_list in W1, W2.
  apply signature_of_list in sig1 as (dl1 & Hk1 & _ & ->).
  apply signature_of_list in sig2 as (dl2 & Hk2 & _ & ->).
  (* the permuted list can be decorated as well *)
  assert (∃ dl2', rmapM keyed_by_product_id l2' = Ok dl2') as [dl2' Hk2'].
  { apply rmapM_Forall2 in Hk2. symmetry in Hp.
    destruct (Permutation_Forall2 Hp Hk2) as (dl2' & _ & H). exists dl2'.
    by apply rmapM_Forall2. }
  assert (Forall (λ p, wf_json p = true) l2') as W2' by (by rewrite Hp).
  pose proof (distinct_product_ids_keys _ _ W1 Hdist Hk1) as Hd1.
  pose proof (keyed_alike _ _ _ _ W1 W2' HF Hk1 Hk2') as Halike.
  pose proof (keyed_perm _ _ _ _ Hp Hk2' Hk2) as Hperm.
  assert (distinct_keys dl2') as Hd2' by (by eapply distinct_keys_alike).
  assert (sort_by key_ltb dl2' = sort_by key_ltb dl2) as Hsame.
  { apply sort_by_unique; [done|by apply distinct_keys_ordered|].
    intros a b. by apply distinct_keys_antisym. }
  pose proof (sort_by_alike _ _ Halike) as Hsorted. rewrite Hsame in Hsorted.
  unfold json_dumps. apply (f_equal unstr). apply equiv_dumps.
  - apply wf_json_list. apply keyed_items in Hk1 as [<- _].
    rewrite <-(sort_by_perm key_ltb dl1) in W1. done.
  - apply wf_json_list. apply keyed_items in Hk2 as [<- _].
    rewrite <-(sort_by_perm key_ltb dl2) in W2. done.
  - constructor. clear -Hsorted.
    induction Hsorted as [|x y l l' (_ & _ & _ & Hxy) _ IH]; simpl; by constructor.
Qed.
End Signature.

Lemma insert_keyed_defined x l :
  wf_json x.1 = true → Forall (λ y, wf_json y.1 = true) l →
  Forall (λ y, differ x.1 y.1 = true) l → ∃ r, insert_keyed x l = Ok r.
Proof.
  intros Wx W H. induction H as [|y l Hy _ IH]; simpl; [by eexists|].
  apply Forall_cons in W as [Wy W]. destruct (IH W) as [r Hr].
  unfold mbind, result_bind.
  destruct (differ_defined x.1 y.1 Wx Wy Hy) as [[] ->]; [|by eexists].
  rewrite Hr. by eexists.
Qed.

Lemma sort_keyed_defined l : distinct_keys l → ∃ r, sort_keyed l = Ok r.
Proof.
  intros [Hs Hd]. induction Hd as [|x l _ IH Hx]; simpl; [by eexists|].
  apply Forall_cons in Hs as [Hsx Hs]. destruct (IH Hs) as [r Hr].
  unfold mbind, result_bind. rewrite Hr.
  pose proof (sort_keyed_sort_by _ _ Hr) as ->.
  apply insert_keyed_defined; [done|by rewrite sort_by_perm|by rewrite sort_by_perm].
Qed.

Lemma equiv_subscript_defined p1 p2 k a :
  wf_json p2 = true → json_equiv p1 p2 →
  subscript p1 k = Ok a → ∃ b, subscript p2 k = Ok b.
Proof.
  intros W2 E. inversion E as [| | | | |m1 m2 m2' Hp HF]; subst; try done.
  apply wf_json_dict in W2 as [N2 _]. simpl. unfold getitem.
  rewrite <-(dict_get_perm k m2' m2) by (by rewrite ?Hp).
  clear E Hp N2. induction HF as [|[k1 x] [k2 y] m1 m2' [Hk Hxy] _ IH]; simpl; [done|].
  simpl in Hk. subst k2. destruct (String.eqb k1 k); [by eexists|done].
Qed.

Lemma keyed_defined_equiv l1 l2 dl1 :
  Forall (λ p, wf_json p = true) l2 → Forall2 json_equiv l1 l2 →
  rmapM keyed_by_product_id l1 = Ok dl1 → ∃ dl2, rmapM keyed_by_product_id l2 = Ok dl2.
Proof.
  intros W HE. revert dl1 W.
  induction HE as [|p1 p2 l1 l2 Hp _ IH]; intros dl1 W H1; [by eexists|].
  apply rmapM_cons_inv in H1 as (d1 & dl1' & Hd1 & H1 & ->).
  apply Forall_cons in W as [Wp W]. destruct (IH _ W H1) as [dl2 Hdl2].
  unfold keyed_by_product_id, mbind, result_bind in Hd1.
  destruct (subscript p1 "productId") as [k1|] eqn:E1; [|done].
  destruct (equiv_subscript_defined _ _ _ _ Wp Hp E1) as [k2 E2].
  simpl. unfold mbind, result_bind. unfold keyed_by_product_id at 1.
  unfold mbind, result_bind. rewrite E2, Hdl2. by eexists.
Qed.

Lemma keyed_defined_perm l l' dl :
  l ≡ₚ l' → rmapM keyed_by_product_id l = Ok dl → ∃ dl', rmapM keyed_by_product_id l' = Ok dl'.
Proof.
  intros Hp H%rmapM_Forall2. destruct (Permutation_Forall2 Hp H) as (dl' & _ & H').
  exists dl'. by apply rmapM_Forall2.
Qed.

(** A list of items no two of which share a product id has a
    signature. *)
Lemma signature_defined l :
  forallb wf_json l = true → distinct_product_ids l = true →
  ∃ s, calculate_products_signature (JList l) = Ok s.
Proof.
  intros W%wf_json_list Hd. pose proof Hd as Hd'. unfold distinct_product_ids in Hd'.
  destruct (rmapM (λ p, subscript p "productId") l) as [ks|] eqn:Hks; [|done].
  assert (∃ dl, rmapM keyed_by_product_id l = Ok dl) as [dl Hdl].
  { clear Hd Hd' W. revert ks Hks. induction l as [|p l IH]; intros ks Hks; [by eexists|].
    apply rmapM_cons_inv in Hks as (k & ks' & Hk & Hks & ->).
    destruct (IH _ Hks) as [dl Hdl]. simpl. unfold mbind, result_bind.
    unfold keyed_by_product_id at 1. unfold mbind, result_bind. rewrite Hk, Hdl.
    by eexists. }
  destruct (sort_keyed_defined dl (distinct_product_ids_keys _ _ W Hd Hdl)) as [r Hr].
  eexists. apply signature_of_list. exists dl. split; [done|].
  split; [|done]. by rewrite <-(sort_keyed_sort_by _ _ Hr).
Qed.

(** A list with the same items as one in which no two items share a
    product id has a signature too. *)
Lemma same_items_signature_defined l1 l2 :
  forallb wf_json l1 = true → forallb wf_json l2 = true →
  distinct_product_ids l1 = true → same_items l1 l2 →
  ∃ s2, calculate_products_signature (JList l2) = Ok s2.
Proof.
  intros W1 W2 Hd (l2' & Hp & HF).
  destruct (signature_defined l1 W1 Hd) as [s1 Hs1].
  pose proof Hs1 as (dl1 & Hk1 & _)%signature_of_list.
  apply wf_json_list in W1.
  assert (Forall (λ p, wf_json p = true) l2') as W2'.
  { rewrite Hp. by apply wf_json_list. }
  destruct (keyed_defined_equiv _ _ _ W2' HF Hk1) as [dl2' Hk2'].
  destruct (keyed_defined_perm _ _ _ Hp Hk2') as [dl2 Hk2].
  pose proof (distinct_product_ids_keys _ _ W1 Hd Hk1) as Hd1.
  assert (distinct_keys dl2) as Hd2.
  { apply (distinct_keys_perm dl2'); [by eapply keyed_perm|].
    apply (distinct_keys_alike dl1); [|done].
    eapply keyed_alike; [exact W1|exact W2'|exact HF|exact Hk1|exact Hk2']. }
  destruct (sort_keyed_defined dl2 Hd2) as [r Hr].
  eexists. apply signature_of_list. exists dl2. split; [done|].
  split; [|done]. by rewrite <-(sort_keyed_sort_by _ _ Hr).
Qed.

(** The order of the items does not matter when no two of them share a
    product id. *)
Lemma permuted_products_same_signature l1 l2 s :
  forallb wf_json l1 = true → distinct_product_ids l1 = true → l1 ≡ₚ l2 →
  calculate_products_signature (JList l1) = Ok s →
  calculate_products_signature (JList l2) = Ok s.
Proof.
  intros W1 Hd Hp Hs.
  assert (forallb wf_json l2 = true) as W2.
  { apply wf_json_list. rewrite <-Hp. by apply wf_json_list. }
  assert (same_items l1 l2) as Hsame.
  { exists l1. split; [done|]. apply Forall2_same_length_lookup_2; [done|].
    intros i x y Hx Hy. rewrite Hx in Hy. injection Hy as <-. apply json_equiv_refl. }
  destruct (same_items_signature_defined l1 l2 W1 W2 Hd Hsame) as [s2 Hs2].
  rewrite Hs2. f_equal. symmetry. by apply (same_items_signature_eq l1 l2 s s2).
Qed.

(** C2. For lists of product line items, none of which binds a
    key twice, and in the first of which no two items share a productId
    ([<] orders the productIds of any two of its items, one way or the
    other): the first list has a signature, and the second list gets the
    byte-identical signature if and only if it holds the same items with
    the same attributes, in any order. *)
Theorem products_signature_canonical l1 l2 :
  forallb wf_json l1 = true → forallb wf_json l2 = true →
  distinct_product_ids l1 = true →
  ∃ s1, calculate_products_signature (JList l1) = Ok s1
        ∧ (same_items l1 l2 ↔ calculate_products_signature (JList l2) = Ok s1).
Proof.
  intros W1 W2 Hd. destruct (signature_defined l1 W1 Hd) as [s1 Hs1].
  exists s1. split; [done|]. split.
  - intros Hsame.
    destruct (same_items_signature_defined l1 l2 W1 W2 Hd Hsame) as [s2 Hs2].
    rewrite Hs2. f_equal. symmetry.
    by apply (same_items_signature_eq l1 l2 s1 s2).
  - intros Hs2. by apply (signature_eq_same_items l1 l2 s1 s1).
Qed.

(** ** Event identifiers *)

Lemma str_unstr cs : str (unstr cs) = cs.
Proof. apply String.list_ascii_of_string_of_list_ascii. Qed.

Lemma hex_digit_hex n : is_hex_char (hex_digit n) = true.
Proof.
  destruct n as [|p]; [done|].
  repeat (destruct p as [p|p|]; try reflexivity).
Qed.

Lemma hexdigest_chars msg :
  length (str (MD5.hexdigest msg)) = 32%nat
  ∧ forallb is_hex_char (str (MD5.hexdigest msg)) = true.
Proof.
  unfold MD5.hexdigest, MD5.digest. rewrite str_unstr. cbv zeta.
  generalize (fold_left MD5.block_step
    (MD5.blocks (length (MD5.words (length (MD5.pad msg)) (MD5.pad msg)))
       (MD5.words (length (MD5.pad msg)) (MD5.pad msg))) MD5.init).
  intros r. cbn [MD5.le_bytes app flat_map hex2 length forallb].
  split; [done|]. by rewrite !hex_digit_hex.
Qed.

(** The test suite of RFC 1321, the last message filling more than one
    block. *)
Lemma md5_test_suite :
  MD5.hexdigest (utf8_encode "") = "d41d8cd98f00b204e9800998ecf8427e"
  ∧ MD5.hexdigest (utf8_encode "a") = "0cc175b9c0f1b6a831c399e269772661"
  ∧ MD5.hexdigest (utf8_encode "abc") = "900150983cd24fb0d6963f7d28e17f72"
  ∧ MD5.hexdigest (utf8_encode "message digest") = "f96b697d7cb7938d525a2f31aaf161d0"
  ∧ MD5.hexdigest
      (utf8_encode
         "12345678901234567890123456789012345678901234567890123456789012345678901234567890")
    = "57edf4a22be3c955ac49da2e2107b67a".
Proof. split_and!; by vm_compute. Qed.

(** The hash part of an event id: twelve hexadecimal characters. *)
Lemma event_hash_chars cid d sg :
  length (str (event_hash cid d sg)) = 12%nat
  ∧ forallb is_hex_char (str (event_hash cid d sg)) = true.
Proof.
  unfold event_hash, str_prefix. rewrite str_unstr.
  destruct (hexdigest_chars (utf8_encode (hash_input cid d sg))) as [Hlen Hhex].
  split.
  - rewrite length_take. lia.
  - by apply forallb_take.
Qed.

Lemma generate_event_id_ok cart cid d sg :
  cart_id_of cart = Ok cid → getitem cart "date" = Ok d →
  calculate_products_signature (cart_products cart) = Ok sg →
  generate_event_id cart = Ok ("cart_" +:+ cid +:+ "_" +:+ event_hash cid d sg).
Proof.
  intros H1 H2 H3. unfold generate_event_id, cart_products in *.
  unfold mbind, result_bind. by rewrite H1, H2, H3.
Qed.

Lemma create_event_ok now cart etype ex_at run eid v u d :
  generate_event_id cart = Ok eid →
  getitem cart "id" = Ok v → getitem cart "userId" = Ok u → getitem cart "date" = Ok d →
  ∃ e, create_event now cart etype ex_at run = Ok e
       ∧ event_id e = eid ∧ event_type e = etype
       ∧ extracted_at e = ex_at ∧ event_run_id e = run
       ∧ published_at e = now +:+ "Z".
Proof.
  intros H1 H2 H3 H4. unfold create_event, mbind, result_bind.
  rewrite H1, H2, H3, H4. by eexists.
Qed.

Lemma create_event_inv now cart etype ex_at run e :
  create_event now cart etype ex_at run = Ok e →
  generate_event_id cart = Ok (event_id e)
  ∧ is_Some (dict_get "id" cart) ∧ is_Some (dict_get "userId" cart)
  ∧ is_Some (dict_get "date" cart).
Proof.
  unfold create_event, mbind, result_bind.
  destruct (generate_event_id cart) as [eid|]; [|done].
  unfold getitem.
  destruct (dict_get "id" cart); [|done].
  destruct (dict_get "userId" cart); [|done].
  destruct (dict_get "date" cart); [|done].
  intros [= <-]. simpl. eauto.
Qed.

Lemma cart_id_of_getitem cart cid : cart_id_of cart = Ok cid → ∃ v, getitem cart "id" = Ok v.
Proof.
  unfold cart_id_of, mbind, result_bind. destruct (getitem cart "id"); [eauto|done].
Qed.

(** C1. Two cart records with the same id and the same date, built into
    events with the same change type and metadata.  When their products
    have the same canonical signature both events are built, they carry
    the same [event_id], and that id is ["cart_"], the cart id, ["_"] and
    the first 12 hexadecimal characters of the MD5 hash of the cart id,
    the cart date and the products signature joined by ["_"].  The
    products have the same signature, in particular, when those of one
    record are a permutation of those of the other and no two of them
    share a productId. *)
Theorem event_id_idempotent :
  (∀ now1 now2 r1 r2 change_type ex_at run cid d u1 u2 sg,
     cart_id_of r1 = Ok cid → cart_id_of r2 = Ok cid →
     getitem r1 "date" = Ok d → getitem r2 "date" = Ok d →
     getitem r1 "userId" = Ok u1 → getitem r2 "userId" = Ok u2 →
     calculate_products_signature (cart_products r1) = Ok sg →
     calculate_products_signature (cart_products r2) = Ok sg →
     ∃ e1 e2,
       create_event now1 r1 change_type ex_at run = Ok e1
       ∧ create_event now2 r2 change_type ex_at run = Ok e2
       ∧ event_id e1 = event_id e2
       ∧ event_id e1
         = "cart_" +:+ cid +:+ "_"
           +:+ str_prefix 12
                 (MD5.hexdigest (utf8_encode (cid +:+ "_" +:+ py_str d +:+ "_" +:+ sg)))
       ∧ length (str (str_prefix 12
           (MD5.hexdigest (utf8_encode (cid +:+ "_" +:+ py_str d +:+ "_" +:+ sg))))) = 12%nat)
  ∧ (∀ now1 now2 r1 r2 change_type ex_at run cid d u1 u2 l1 l2,
       cart_id_of r1 = Ok cid → cart_id_of r2 = Ok cid →
       getitem r1 "date" = Ok d → getitem r2 "date" = Ok d →
       getitem r1 "userId" = Ok u1 → getitem r2 "userId" = Ok u2 →
       dict_get "products" r1 = Some (JList l1) →
       dict_get "products" r2 = Some (JList l2) →
       forallb wf_json l1 = true →
       distinct_product_ids l1 = true → l1 ≡ₚ l2 →
       ∃ e1 e2 sg,
         calculate_products_signature (JList l1) = Ok sg
         ∧ calculate_products_signature (JList l2) = Ok sg
         ∧ create_event now1 r1 change_type ex_at run = Ok e1
         ∧ create_event now2 r2 change_type ex_at run = Ok e2
         ∧ event_id e1 = event_id e2
         ∧ event_id e1
           = "cart_" +:+ cid +:+ "_"
             +:+ str_prefix 12
                   (MD5.hexdigest (utf8_encode (cid +:+ "_" +:+ py_str d +:+ "_" +:+ sg)))).
Proof.
  assert (∀ now1 now2 r1 r2 change_type ex_at run cid d u1 u2 sg,
     cart_id_of r1 = Ok cid → cart_id_of r2 = Ok cid →
     getitem r1 "date" = Ok d → getitem r2 "date" = Ok d →
     getitem r1 "userId" = Ok u1 → getitem r2 "userId" = Ok u2 →
     calculate_products_signature (cart_products r1) = Ok sg →
     calculate_products_signature (cart_products r2) = Ok sg →
     ∃ e1 e2,
       create_event now1 r1 change_type ex_at run = Ok e1
       ∧ create_event now2 r2 change_type ex_at run = Ok e2
       ∧ event_id e1 = event_id e2
       ∧ event_id e1 = "cart_" +:+ cid +:+ "_" +:+ event_hash cid d sg) as Hsame.
  { intros now1 now2 r1 r2 change_type ex_at run cid d u1 u2 sg
      Hid1 Hid2 Hd1 Hd2 Hu1 Hu2 Hs1 Hs2.
    destruct (cart_id_of_getitem _ _ Hid1) as [v1 Hv1].
    destruct (cart_id_of_getitem _ _ Hid2) as [v2 Hv2].
    pose proof (generate_event_id_ok _ _ _ _ Hid1 Hd1 Hs1) as Hg1.
    pose proof (generate_event_id_ok _ _ _ _ Hid2 Hd2 Hs2) as Hg2.
    destruct (create_event_ok now1 r1 change_type ex_at run _ _ _ _ Hg1 Hv1 Hu1 Hd1)
      as (e1 & He1 & Hi1 & _).
    destruct (create_event_ok now2 r2 change_type ex_at run _ _ _ _ Hg2 Hv2 Hu2 Hd2)
      as (e2 & He2 & Hi2 & _).
    exists e1, e2. split_and!; [done|done|congruence|done]. }
  split.
  - intros now1 now2 r1 r2 change_type ex_at run cid d u1 u2 sg
      Hid1 Hid2 Hd1 Hd2 Hu1 Hu2 Hs1 Hs2.
    destruct (Hsame now1 now2 r1 r2 change_type ex_at run cid d u1 u2 sg)
      as (e1 & e2 & He1 & He2 & Heq & Hid); try done.
    exists e1, e2. split_and!; try done. all: apply (event_hash_chars cid d sg).
  - intros now1 now2 r1 r2 change_type ex_at run cid d u1 u2 l1 l2
      Hid1 Hid2 Hd1 Hd2 Hu1 Hu2 Hp1 Hp2 Hwf Hdist Hperm.
    destruct (signature_defined l1 Hwf Hdist) as [sg Hs1].
    pose proof (permuted_products_same_signature l1 l2 sg Hwf Hdist Hperm Hs1) as Hs2.
    destruct (Hsame now1 now2 r1 r2 change_type ex_at run cid d u1 u2 sg)
      as (e1 & e2 & He1 & He2 & Heq & Hid); try done.
    + unfold cart_products, dict_get_default. by rewrite Hp1.
    + unfold cart_products, dict_get_default. by rewrite Hp2.
    + by exists e1, e2, sg.
Qed.

(** C10. The [event_id] is a function of the cart's id, date and products
    alone.  Events built from one cart with any change types, timestamps
    and run ids are all built when one is, and carry one [event_id]; and
    events built from two carts with the same id, date and products carry
    one [event_id], whatever else differs. *)
Theorem event_id_depends_on_content_only :
  (∀ cart now1 now2 t1 t2 ex1 ex2 run1 run2 e1,
     create_event now1 cart t1 ex1 run1 = Ok e1 →
     ∃ e2, create_event now2 cart t2 ex2 run2 = Ok e2 ∧ event_id e2 = event_id e1)
  ∧ (∀ c1 c2 now1 now2 t1 t2 ex1 ex2 run1 run2 e1 e2,
       cart_id_of c1 = cart_id_of c2 →
       dict_get "date" c1 = dict_get "date" c2 →
       dict_get "products" c1 = dict_get "products" c2 →
       create_event now1 c1 t1 ex1 run1 = Ok e1 →
       create_event now2 c2 t2 ex2 run2 = Ok e2 →
       event_id e1 = event_id e2).
Proof.
  split.
  - intros cart now1 now2 t1 t2 ex1 ex2 run1 run2 e1 H.
    apply create_event_inv in H as (Hg & [v Hv] & [u Hu] & [d Hd]).
    destruct (create_event_ok now2 cart t2 ex2 run2 (event_id e1) v u d)
      as (e2 & He2 & Hi2 & _); try done; try (unfold getitem; by rewrite ?Hv, ?Hu, ?Hd).
    by exists e2.
  - intros c1 c2 now1 now2 t1 t2 ex1 ex2 run1 run2 e1 e2 Hid Hd Hp H1 H2.
    apply create_event_inv in H1 as (Hg1 & _), H2 as (Hg2 & _).
    assert (generate_event_id c1 = generate_event_id c2) as Hg.
    { unfold generate_event_id, cart_products, getitem, dict_get_default.
      by rewrite Hid, Hd, Hp. }
    congruence.
Qed.

Lemma count_occ_replicate_eq {A} (dec : EqDecision A) (x : A) n :
  count_occ dec (replicate n x) x = n.
Proof. induction n; simpl; [done|]. destruct (dec x x); [by f_equal|done]. Qed.

Lemma count_occ_replicate_ne {A} (dec : EqDecision A) (x y : A) n :
  x ≠ y → count_occ dec (replicate n x) y = 0%nat.
Proof. intros Hne. induction n; simpl; [done|]. by destruct (dec x y). Qed.

Section PublisherFacts.
Variable json_loads : string → option json.
Variable broker : list message → message → bool.
Variable now_stamp : nat → string.
Variable dead_letter_dir : nat → bool.
Variable disk : string → bool.

Abbreviation publish := (publish_event_to_pubsub json_loads broker).
Abbreviation msg_of := (make_message json_loads).
Abbreviation save_dead := (save_to_dead_letter now_stamp dead_letter_dir disk).
Abbreviation publish_body := (publish_one json_loads broker now_stamp dead_letter_dir disk).
Abbreviation publish_all := (publish_each json_loads broker now_stamp dead_letter_dir disk).

Lemma publish_unfold topic e n w :
  publish topic e n w
  = if broker (w_calls w) (msg_of topic e)
    then (true, record_call (msg_of topic e) w)
    else if decide (n + 1 ≤ MAX_PUBLISH_RETRIES)
         then publish topic e (n + 1)
                (time_sleep (2 ^ (n + 1)) (record_call (msg_of topic e) w))
         else (false, record_call (msg_of topic e) w).
Proof.
  rewrite publish_event_to_pubsub_equation_1.
  destruct (broker (w_calls w) (msg_of topic e)); simp publish_event_to_pubsub; [done|].
  destruct (decide (n + 1 ≤ MAX_PUBLISH_RETRIES)); by simp publish_event_to_pubsub.
Qed.

(** A call of the publisher only adds broker calls for its own message,
    at least one, and touches neither the dead letters nor the clock. *)
Lemma publish_effects topic e k : ∀ n w,
  Z.to_nat (MAX_PUBLISH_RETRIES + 1 - n) = k →
  ∃ ok w' c, publish topic e n w = (ok, w') ∧ (1 ≤ c)%nat
    ∧ w_calls w' = w_calls w ++ replicate c (msg_of topic e)
    ∧ w_dead_letter w' = w_dead_letter w ∧ w_ticks w' = w_ticks w.
Proof.
  induction k as [|k IH]; intros n w Hk; rewrite publish_unfold.
  - destruct (broker _ _).
    + eexists _, _, 1%nat. split_and!; done.
    + rewrite decide_False by lia. eexists _, _, 1%nat. split_and!; done.
  - destruct (broker _ _).
    + eexists _, _, 1%nat. split_and!; done.
    + destruct (decide (n + 1 ≤ MAX_PUBLISH_RETRIES)).
      * destruct (IH (n + 1) (time_sleep (2 ^ (n + 1)) (record_call (msg_of topic e) w)))
          as (ok & w' & c & -> & Hc & Hcalls & Hdl & Hticks); [lia|].
        exists ok, w', (S c). split_and!; try done; [lia|].
        rewrite Hcalls. simpl. by rewrite <-app_assoc.
      * eexists _, _, 1%nat. split_and!; done.
Qed.

(** Retry exhaustion: a message the broker never acknowledges is sent
    once and retried [MAX_PUBLISH_RETRIES] times, with sleeps of 2, 4 and
    8 seconds in between, and the call returns [False]. *)
Lemma publish_exhausted topic e w :
  (∀ h, broker h (msg_of topic e) = false) →
  publish topic e 0 w
  = (false,
     World (w_calls w ++ replicate (Z.to_nat (MAX_PUBLISH_RETRIES + 1)) (msg_of topic e))
           (w_sleeps w ++ [2; 4; 8]) (w_dead_letter w) (w_ticks w)).
Proof.
  intros Hfail.
  do 4 (rewrite publish_unfold, Hfail; try rewrite decide_True by (by compute)).
  rewrite decide_False by (by compute).
  unfold record_call, time_sleep. simpl. by rewrite <-!app_assoc.
Qed.

Lemma msg_of_inj topic e e' : msg_of topic e = msg_of topic e' → e = e'.
Proof. intros H. by apply (f_equal msg_event) in H. Qed.

(** A dead-letter save whose [mkdir] goes through: the clock is read
    once, and the file is there when its write goes through. *)
Lemma save_to_dead_letter_ok e w :
  dead_letter_dir (w_ticks w) = true →
  save_dead e w
  = (World (w_calls w) (w_sleeps w)
       (w_dead_letter w
          ++ (if disk (dead_letter_file e (now_stamp (w_ticks w)))
              then [(dead_letter_file e (now_stamp (w_ticks w)), e)] else []))
       (S (w_ticks w)),
     Ok tt).
Proof.
  intros Hdir. unfold save_to_dead_letter. rewrite Hdir. cbv zeta.
  destruct (disk _); [done|by rewrite app_nil_r].
Qed.

Lemma save_to_dead_letter_raises e w :
  dead_letter_dir (w_ticks w) = false → save_dead e w = (w, Raise OSError).
Proof. intros Hdir. unfold save_to_dead_letter. by rewrite Hdir. Qed.

Lemma publish_one_unfold topic st w x :
  publish_body topic st x w
  = let '(ok, w') := publish topic x 0 w in
    if ok then (w', Ok (Stats (success st + 1) (failed st) (dead_letter st)))
    else
      match save_dead x w' with
      | (w'', Ok _) => (w'', Ok (Stats (success st) (failed st + 1) (dead_letter st + 1)))
      | (w'', Raise err) => (w'', Raise err)
      end.
Proof. done. Qed.

Lemma publish_each_cons topic x l st w :
  publish_all topic (x :: l) st w
  = match publish_body topic st x w with
    | (w', Ok st') => publish_all topic l st' w'
    | (w', Raise err) => (w', Raise err)
    end.
Proof. done. Qed.

(** The loop body on an event that the broker never acknowledges, when
    the dead-letter directory can be made: one more in [failed] and in
    [dead_letter], and the file in the directory if its write goes
    through. *)
Lemma publish_one_exhausted topic st e w :
  (∀ h, broker h (msg_of topic e) = false) →
  dead_letter_dir (w_ticks w) = true →
  ∃ w', publish_body topic st e w
        = (w', Ok (Stats (success st) (failed st + 1) (dead_letter st + 1)))
    ∧ w_dead_letter w'
      = w_dead_letter w
        ++ (if disk (dead_letter_file e (now_stamp (w_ticks w)))
            then [(dead_letter_file e (now_stamp (w_ticks w)), e)] else [])
    ∧ w_ticks w' = S (w_ticks w).
Proof.
  intros Hfail Hdir. rewrite publish_one_unfold, (publish_exhausted _ _ _ Hfail).
  cbv iota beta. rewrite save_to_dead_letter_ok by done. by eexists.
Qed.

(** The batch loop when the dead-letter directory can be made: what it
    adds to the broker calls and to the dead letters, and how the
    counters move. *)
Lemma publish_loop topic l :
  (∀ n, dead_letter_dir n = true) →
  ∀ st w, ∃ st' w' calls dl,
    publish_all topic l st w = (w', Ok st')
    ∧ w_calls w' = w_calls w ++ calls
    ∧ w_dead_letter w' = w_dead_letter w ++ dl
    ∧ Z.of_nat (w_ticks w') = Z.of_nat (w_ticks w) + (failed st' - failed st)
    ∧ dead_letter st' - dead_letter st = failed st' - failed st
    ∧ Z.of_nat (length dl) ≤ failed st' - failed st
    ∧ success st' + failed st' = success st + failed st + Z.of_nat (length l)
    ∧ (∀ e, e ∈ l → msg_of topic e ∈ calls)
    ∧ (∀ e, (∀ h, broker h (msg_of topic e) = false) →
         count_occ message_eq_dec calls (msg_of topic e)
         = (Z.to_nat (MAX_PUBLISH_RETRIES + 1) * count_occ event_eq_dec l e)%nat
         ∧ (count_occ event_eq_dec (map snd dl) e ≤ count_occ event_eq_dec l e)%nat
         ∧ Z.of_nat (count_occ event_eq_dec l e) ≤ failed st' - failed st
         ∧ ((∀ ts, disk (dead_letter_file e ts) = true) →
            count_occ event_eq_dec (map snd dl) e = count_occ event_eq_dec l e)
         ∧ ((∀ ts, disk (dead_letter_file e ts) = false) → e ∉ map snd dl)).
Proof.
  intros Hdir. induction l as [|x l IH]; intros st w.
  - exists st, w, [], []. simpl. rewrite !app_nil_r.
    split_and!; try done; try lia.
    + intros e Hin. by apply elem_of_nil in Hin.
    + intros e _. split_and!; try done; try lia. intros _. apply not_elem_of_nil.
  - destruct (publish_effects topic x _ 0 w eq_refl)
      as (ok & w1 & c & Hpub & Hc & Hcalls1 & Hdl1 & Hticks1).
    rewrite publish_each_cons, (publish_one_unfold topic st w x), Hpub.
    destruct ok.
    + destruct (IH (Stats (success st + 1) (failed st) (dead_letter st)) w1)
        as (st' & w' & calls & dl & Hrun & Hcalls & Hdl & Ht & Hd & Hlen & Hs & Hall & Hfail).
      exists st', w', (replicate c (msg_of topic x) ++ calls), dl.
      rewrite Hrun. cbn [success failed dead_letter length] in *.
      split_and!; try done; try lia.
      * rewrite Hcalls, Hcalls1. by rewrite <-app_assoc.
      * congruence.
      * intros e [->|Hin]%elem_of_cons; apply elem_of_app; [left|right; by apply Hall].
        destruct c; [lia|]. simpl. left.
      * intros e He. destruct (Hfail e He) as (Hc1 & Hc2 & Hc3 & Hc4 & Hc5).
        assert (x ≠ e) as Hne.
        { intros ->. rewrite (publish_exhausted _ _ _ He) in Hpub. done. }
        rewrite count_occ_app, Hc1.
        rewrite count_occ_replicate_ne by (intros ?%msg_of_inj; done).
        cbn [count_occ]. destruct (event_eq_dec x e); [done|]. done.
    + rewrite save_to_dead_letter_ok by apply Hdir.
      set (name := dead_letter_file x (now_stamp (w_ticks w1))).
      set (entry := if disk name then [(name, x)] else []).
      destruct (IH (Stats (success st) (failed st + 1) (dead_letter st + 1))
                  (World (w_calls w1) (w_sleeps w1) (w_dead_letter w1 ++ entry)
                     (S (w_ticks w1))))
        as (st' & w' & calls & dl & Hrun & Hcalls & Hdl & Ht & Hd & Hlen & Hs & Hall & Hfail).
      assert (length entry ≤ 1)%nat as Hentry by (unfold entry; destruct (disk name); simpl; lia).
      exists st', w', (replicate c (msg_of topic x) ++ calls), (entry ++ dl).
      rewrite Hrun. cbn [success failed dead_letter length w_calls w_dead_letter w_ticks] in *.
      split_and!; try done; try (rewrite ?length_app; lia).
      * rewrite Hcalls, Hcalls1. by rewrite <-app_assoc.
      * rewrite Hdl, Hdl1. by rewrite <-app_assoc.
      * intros e [->|Hin]%elem_of_cons; apply elem_of_app; [left|right; by apply Hall].
        destruct c; [lia|]. simpl. left.
      * intros e He. destruct (Hfail e He) as (Hc1 & Hc2 & Hc3 & Hc4 & Hc5).
        rewrite count_occ_app, Hc1, map_app, count_occ_app. cbn [count_occ].
        destruct (event_eq_dec x e) as [->|Hne].
        -- rewrite (publish_exhausted _ _ _ He) in Hpub. injection Hpub as <-.
           cbn [w_calls] in Hcalls1. apply app_inv_head in Hcalls1.
           apply (f_equal length) in Hcalls1. rewrite !length_replicate in Hcalls1.
           rewrite <-Hcalls1, count_occ_replicate_eq.
           change (Z.to_nat (MAX_PUBLISH_RETRIES + 1)) with 4%nat.
           assert (count_occ event_eq_dec (map snd entry) e = length entry) as Hce.
           { unfold entry. destruct (disk name); simpl; [|done].
             by destruct (event_eq_dec e e). }
           rewrite Hce. split_and!; try (cbn [length]; lia).
           ++ intros Hw. specialize (Hc4 Hw). unfold entry, name. rewrite (Hw _). simpl. lia.
           ++ intros Hw. unfold entry, name. rewrite (Hw _). simpl. by apply Hc5.
        -- rewrite count_occ_replicate_ne by (intros ?%msg_of_inj; done).
           assert (e ∉ map snd entry) as Hne'.
           { unfold entry. destruct (disk name); simpl; [|apply not_elem_of_nil].
             by intros ?%list_elem_of_singleton. }
           assert (count_occ event_eq_dec (map snd entry) e = 0%nat) as Hce.
           { apply count_occ_not_In. by rewrite <-list_elem_of_In. }
           rewrite Hce. split_and!; try lia; [by auto|].
           intros Hw [?|?]%elem_of_app; [done|]. by apply Hc5.
Qed.

(** C6. An event of a batch whose publish attempt fails on every try,
    when the dead-letter directory can be made: the broker is called once
    and [MAX_PUBLISH_RETRIES] more times for each occurrence of the event
    and no more; each time the loop body adds one to [failed] and to
    [dead_letter], and leaves the file of the event in the dead-letter
    directory if the write of that file goes through and nothing if it
    does not; so the event is in the directory at most once per
    occurrence, once per occurrence when its writes go through, and not
    at all when they fail; the batch publish returns its counts (nothing
    is raised), [failed] and [dead_letter] both counting the dead-letter
    saves made and [success] the other events; and every event of the
    batch has been sent to the broker. *)
Theorem retry_exhaustion_routes_to_dead_letter topic events e w :
  e ∈ events → (∀ h, broker h (msg_of topic e) = false) →
  (∀ n, dead_letter_dir n = true) →
  ∃ st w' calls dl,
    publish_events json_loads broker now_stamp dead_letter_dir disk (Some topic) events w
    = (w', Ok st)
    ∧ (∀ w0, publish topic e 0 w0
             = (false,
                World (w_calls w0
                         ++ replicate (Z.to_nat (MAX_PUBLISH_RETRIES + 1)) (msg_of topic e))
                      (w_sleeps w0 ++ [2; 4; 8]) (w_dead_letter w0) (w_ticks w0)))
    ∧ (∀ st0 w0, ∃ w1,
         publish_body topic st0 e w0
         = (w1, Ok (Stats (success st0) (failed st0 + 1) (dead_letter st0 + 1)))
         ∧ w_dead_letter w1
           = w_dead_letter w0
             ++ (if disk (dead_letter_file e (now_stamp (w_ticks w0)))
                 then [(dead_letter_file e (now_stamp (w_ticks w0)), e)] else []))
    ∧ w_calls w' = w_calls w ++ calls
    ∧ w_dead_letter w' = w_dead_letter w ++ dl
    ∧ count_occ message_eq_dec calls (msg_of topic e)
      = (Z.to_nat (MAX_PUBLISH_RETRIES + 1) * count_occ event_eq_dec events e)%nat
    ∧ (count_occ event_eq_dec (map snd dl) e ≤ count_occ event_eq_dec events e)%nat
    ∧ ((∀ ts, disk (dead_letter_file e ts) = true) →
       count_occ event_eq_dec (map snd dl) e = count_occ event_eq_dec events e)
    ∧ ((∀ ts, disk (dead_letter_file e ts) = false) → e ∉ map snd dl)
    ∧ Z.of_nat (count_occ event_eq_dec events e) ≤ failed st
    ∧ Z.of_nat (length dl) ≤ failed st
    ∧ dead_letter st = failed st
    ∧ Z.of_nat (w_ticks w') = Z.of_nat (w_ticks w) + failed st
    ∧ success st + failed st = Z.of_nat (length events)
    ∧ (∀ e', e' ∈ events → msg_of topic e' ∈ calls).
Proof.
  intros Hin Hfail Hdir.
  destruct (publish_loop topic events Hdir (Stats 0 0 0) w)
    as (st & w' & calls & dl & Hrun & Hcalls & Hdl & Ht & Hd & Hlen & Hs & Hall & Hcount).
  destruct (Hcount e Hfail) as (Hc1 & Hc2 & Hc3 & Hc4 & Hc5).
  cbn [success failed dead_letter] in *.
  exists st, w', calls, dl. split_and!; try done; try lia.
  - destruct events as [|x events]; [by apply elem_of_nil in Hin|]. exact Hrun.
  - intros w0. by apply publish_exhausted.
  - intros st0 w0.
    destruct (publish_one_exhausted topic st0 e w0 Hfail (Hdir _)) as (w1 & H1 & H2 & _).
    by exists w1.
Qed.
End PublisherFacts.

Lemma dict_get_set_eq k v m : dict_get k (dict_set k v m) = Some v.
Proof.
  induction m as [|[k' v'] m IH]; simpl.
  - by rewrite String.eqb_refl.
  - destruct (String.eqb k' k) eqn:E; simpl; [by rewrite String.eqb_refl|by rewrite E].
Qed.

Lemma dict_get_set_ne k k' v m : k ≠ k' → dict_get k' (dict_set k v m) = dict_get k' m.
Proof.
  intros Hne. induction m as [|[k0 v0] m IH]; simpl.
  - destruct (String.eqb k k') eqn:E; [|done]. by apply String.eqb_eq in E.
  - destruct (String.eqb k0 k) eqn:E; simpl.
    + apply String.eqb_eq in E as ->.
      destruct (String.eqb k k') eqn:E'; [|done]. by apply String.eqb_eq in E'.
    + by rewrite IH.
Qed.

Section DetectorClaims.
Variable now_iso : nat → string.
Variable set_iter : gset string → list string.

Abbreviation detect_changes := (compare_and_detect_changes now_iso set_iter).

Lemma detect_changes_unfold st api :
  detect_changes st api
  = let '(f, r) := detect now_iso set_iter (is_cold st) api (Frame (carts st) [] [] [] [] 0) in
    (State (f_carts f) (meta st), r).
Proof. done. Qed.

(** C3. Cold start: a snapshot that records no prior poll and holds no
    cart, and a fetch of records with unique ids that carry a date and a
    userId.  Every fetched record is classified created, none modified,
    deleted or unchanged, and afterwards the snapshot maps exactly the
    fetched ids, each to the date, the userId and the products of its
    record: the value under [products], the empty list for a record
    without that key. *)
Theorem cold_start_completeness st api ids :
  last_update (meta st) = None → carts st = ∅ →
  rmapM cart_id_of api = Ok ids → NoDup ids →
  Forall (λ c, is_Some (dict_get "date" c) ∧ is_Some (dict_get "userId" c)) api →
  ∃ st', detect_changes st api = (st', Ok (Changes api [] [] [] true))
    ∧ meta st' = meta st
    ∧ dom (carts st') = list_to_set ids
    ∧ ∀ i c cid, api !! i = Some c → ids !! i = Some cid →
        ∃ d u, getitem c "date" = Ok d ∧ getitem c "userId" = Ok u
               ∧ carts st' !! cid
                 = Some [("date", d); ("userId", u);
                         ("products",
                          match dict_get "products" c with
                          | Some products => products
                          | None => JList []
                          end)].
Proof.
  intros Hcold Hempty Hids Hnd Hwf.
  destruct (detect_cold now_iso set_iter api ids (Frame (carts st) [] [] [] [] 0) Hids Hwf)
    as (f' & Hdet & Hrun).
  destruct (cold_loop api ids (Frame (carts st) [] [] [] [] 0) Hids Hwf)
    as (f'' & Hrun' & _ & _ & _ & _ & Hdom & _ & Hin).
  rewrite Hrun in Hrun'. injection Hrun' as <-.
  exists (State (f_carts f') (meta st)).
  rewrite detect_changes_unfold. unfold is_cold. rewrite Hcold, Hdet. simpl in *.
  split_and!; try done.
  - rewrite Hdom, Hempty. set_solver.
  - intros i c cid Hi Hi'. by apply (Hin Hnd i).
Qed.

(** C7. A fetched record without an [id] makes the detection
    raise [KeyError] for [id] while the fetched ids are collected, before
    any record is classified: no change set is returned and the snapshot
    is left as it was. *)
Theorem missing_id_aborts_detection st api :
  (∃ c, c ∈ api ∧ dict_get "id" c = None) →
  detect_changes st api = (st, Raise (KeyError "id")).
Proof.
  intros Hbad. rewrite detect_changes_unfold. unfold detect. mstep.
  rewrite (api_ids_raise _ Hbad). by destruct st.
Qed.

Hypothesis set_iter_perm : ∀ X, set_iter X ≡ₚ elements X.

(** C9. After a detection on a fetch with unique ids the ids of the
    snapshot are the ids of the fetch: every fetched id is present, every
    other id is gone.  A snapshot that records no prior poll holds no
    cart. *)
Theorem snapshot_ids_are_fetched_ids st api ids :
  (last_update (meta st) = None → carts st = ∅) →
  rmapM cart_id_of api = Ok ids → NoDup ids →
  Forall (λ c, cart_ok c = true) api →
  map_Forall (λ _ e, entry_ok e = true) (carts st) →
  ∃ st' ch, detect_changes st api = (st', Ok ch)
    ∧ dom (carts st') = list_to_set ids
    ∧ (∀ cid, cid ∈ ids → is_Some (carts st' !! cid))
    ∧ (∀ cid, cid ∉ ids → carts st' !! cid = None).
Proof.
  intros Hinv Hids Hnd Hwf Hent.
  assert (∀ st' : state, dom (carts st') = list_to_set ids →
            (∀ cid, cid ∈ ids → is_Some (carts st' !! cid))
            ∧ (∀ cid, cid ∉ ids → carts st' !! cid = None)) as Hdom_spec.
  { intros st' Hdom. split; intros cid Hcid.
    - apply elem_of_dom. rewrite Hdom. set_solver.
    - apply not_elem_of_dom. rewrite Hdom. set_solver. }
  rewrite detect_changes_unfold. unfold is_cold.
  destruct (last_update (meta st)) eqn:Hlu.
  - destruct (detect_warm now_iso set_iter set_iter_perm api ids
                (Frame (carts st) [] [] [] [] 0) Hids Hnd Hwf Hent)
      as (f1 & f2 & recs & _ & _ & Hdet & _ & _ & _ & _ & Hdom & _).
    rewrite Hdet. eexists _, _. split; [done|]. split; [done|]. by apply Hdom_spec.
  - assert (Forall (λ c, is_Some (dict_get "date" c) ∧ is_Some (dict_get "userId" c)) api)
      as Hwf'.
    { eapply Forall_impl; [apply Hwf|]. intros c Hc. unfold cart_ok in Hc.
      rewrite !andb_true_iff in Hc.
      destruct Hc as [[[_ [d Hd]%is_ok_true] [u Hu]%is_ok_true] _].
      apply getitem_is_Some in Hd, Hu. by rewrite Hd, Hu. }
    destruct (detect_cold now_iso set_iter api ids (Frame (carts st) [] [] [] [] 0) Hids Hwf')
      as (f' & Hdet & Hrun).
    destruct (cold_loop api ids (Frame (carts st) [] [] [] [] 0) Hids Hwf')
      as (f'' & Hrun' & _ & _ & _ & _ & Hdom & _).
    rewrite Hrun in Hrun'. injection Hrun' as <-.
    rewrite Hdet. eexists _, _. split; [done|].
    assert (dom (f_carts f') = list_to_set ids) as Hd.
    { rewrite Hdom. simpl. rewrite (Hinv eq_refl). set_solver. }
    split; [done|]. by apply Hdom_spec.
Qed.

(** C4. Warm poll: every id of the snapshot that the fetch does not
    contain is classified deleted, by a synthetic record that carries the
    stored userId and products and a detection-time date, and the id is
    removed from the snapshot; the deleted records are exactly these.  A
    fetched record whose id is in the snapshot with an equal date and an
    equal products signature is classified unchanged. *)
Theorem deletion_detection st api ids :
  last_update (meta st) ≠ None →
  rmapM cart_id_of api = Ok ids → NoDup ids →
  Forall (λ c, cart_ok c = true) api →
  map_Forall (λ _ e, entry_ok e = true) (carts st) →
  ∃ st' ch, detect_changes st api = (st', Ok ch)
    ∧ (∀ cid e, carts st !! cid = Some e → cid ∉ ids →
         carts st' !! cid = None
         ∧ ∃ u p n, getitem e "userId" = Ok u ∧ getitem e "products" = Ok p
                    ∧ deleted_cart_obj cid u (now_iso n) p ∈ deleted_carts ch)
    ∧ (∃ gone, gone ≡ₚ elements (dom (carts st) ∖ list_to_set ids)
         ∧ Forall2 (λ cid r, ∃ e u p n, carts st !! cid = Some e
                      ∧ getitem e "userId" = Ok u ∧ getitem e "products" = Ok p
                      ∧ r = deleted_cart_obj cid u (now_iso n) p)
             gone (deleted_carts ch))
    ∧ (∀ i c cid e d od sg,
         api !! i = Some c → ids !! i = Some cid → carts st !! cid = Some e →
         getitem c "date" = Ok d → getitem e "date" = Ok od → py_eq od d = true →
         calculate_products_signature (cart_products e) = Ok sg →
         calculate_products_signature (cart_products c) = Ok sg →
         c ∈ unchanged_carts ch).
Proof.
  intros Hwarm Hids Hnd Hwf Hent.
  rewrite detect_changes_unfold. unfold is_cold.
  destruct (last_update (meta st)) eqn:Hlu; [|done].
  destruct (detect_warm now_iso set_iter set_iter_perm api ids
              (Frame (carts st) [] [] [] [] 0) Hids Hnd Hwf Hent)
    as (f1 & f2 & recs & _ & _ & Hdet & Hdel & Hrecs & _ & Hgone & _ & Hall).
  rewrite Hdet. simpl in *. eexists _, _. split; [done|]. simpl. split_and!.
  - intros cid e He Hcid. split; [by apply Hgone|].
    assert (cid ∈ set_iter (dom (carts st) ∖ list_to_set ids)) as Hin.
    { rewrite set_iter_perm, elem_of_elements, elem_of_difference, elem_of_list_to_set.
      split; [by eapply elem_of_dom_2|done]. }
    apply list_elem_of_lookup in Hin as [j Hj].
    destruct (Forall2_lookup_l _ _ _ _ _ Hrecs Hj) as (r & Hr & e' & u & p & n & He' & Hu & Hp & ->).
    rewrite He in He'. injection He' as <-.
    exists u, p, n. split_and!; try done. rewrite Hdel. by eapply list_elem_of_lookup_2.
  - exists (set_iter (dom (carts st) ∖ list_to_set ids)). split; [apply set_iter_perm|].
    by rewrite Hdel.
  - intros i c cid e d od sg Hi Hi' He Hd Hod Heq Hse Hsc.
    pose proof (Hall i c cid Hi Hi') as Hup. rewrite He in Hup.
    destruct Hup as (d' & od' & changed & Hd' & Hod' & Hch & Hres).
    rewrite (products_have_changed_ok _ _ _ _ Hse Hsc) in Hch.
    injection Hch as <-. rewrite String.eqb_refl in Hres.
    rewrite Hd in Hd'. rewrite Hod in Hod'. simplify_eq. rewrite Heq in Hres.
    simpl in Hres. by destruct Hres.
Qed.

(** What the warm poll does with a fetched record whose id is in the
    snapshot: when its date differs from the stored date or its products
    signature differs from the stored one it is classified modified, and
    the stored entry gets the fetched date and products and keeps every
    other field, the stored userId among them; otherwise it is classified
    unchanged and the stored entry is left as it was. *)
Lemma warm_poll_modified_or_unchanged st api ids :
  last_update (meta st) ≠ None →
  rmapM cart_id_of api = Ok ids → NoDup ids →
  Forall (λ c, cart_ok c = true) api →
  map_Forall (λ _ e, entry_ok e = true) (carts st) →
  ∃ st' ch, detect_changes st api = (st', Ok ch)
    ∧ ∀ i c cid e, api !! i = Some c → ids !! i = Some cid → carts st !! cid = Some e →
        ∃ d od s_old s_new,
          getitem c "date" = Ok d ∧ getitem e "date" = Ok od
          ∧ calculate_products_signature (cart_products e) = Ok s_old
          ∧ calculate_products_signature (cart_products c) = Ok s_new
          ∧ if negb (py_eq od d) || negb (String.eqb s_old s_new)
            then c ∈ modified_carts ch
                 ∧ ∃ e', carts st' !! cid = Some e'
                     ∧ dict_get "date" e' = Some d
                     ∧ dict_get "products" e' = Some (cart_products c)
                     ∧ ∀ k, k ≠ "date" → k ≠ "products" → dict_get k e' = dict_get k e
            else c ∈ unchanged_carts ch ∧ carts st' !! cid = Some e.
Proof.
  intros Hwarm Hids Hnd Hwf Hent.
  rewrite detect_changes_unfold. unfold is_cold.
  destruct (last_update (meta st)) eqn:Hlu; [|done].
  destruct (detect_warm now_iso set_iter set_iter_perm api ids
              (Frame (carts st) [] [] [] [] 0) Hids Hnd Hwf Hent)
    as (f1 & f2 & recs & _ & _ & Hdet & _ & _ & _ & _ & _ & Hall).
  rewrite Hdet. simpl in *. eexists _, _. split; [done|]. simpl.
  intros i c cid e Hi Hi' He.
  pose proof (Hall i c cid Hi Hi') as Hup. rewrite He in Hup.
  destruct Hup as (d & od & changed & Hd & Hod & Hch & Hres).
  pose proof (Hent cid e He) as Heok. unfold entry_ok in Heok.
  rewrite !andb_true_iff in Heok. destruct Heok as [_ [s_old Hso]%is_ok_true].
  assert (cart_ok c = true) as Hcok.
  { rewrite Forall_forall in Hwf. apply Hwf. by eapply list_elem_of_lookup_2. }
  unfold cart_ok in Hcok. rewrite !andb_true_iff in Hcok.
  destruct Hcok as [_ [s_new Hsn]%is_ok_true].
  rewrite (products_have_changed_ok _ _ _ _ Hso Hsn) in Hch. injection Hch as <-.
  exists d, od, s_old, s_new. split_and!; try done.
  destruct (negb (py_eq od d) || negb (String.eqb s_old s_new)); [|done].
  destruct Hres as [Hm Hafter]. split; [done|].
  eexists. split; [done|]. split_and!.
  - by rewrite dict_get_set_ne, dict_get_set_eq.
  - by rewrite dict_get_set_eq.
  - intros k Hk1 Hk2. by rewrite !dict_get_set_ne.
Qed.

End DetectorClaims.

(** * The snapshot invariant

    A snapshot that records no prior poll holds no cart: the snapshot
    starts from [create_empty_state], and a snapshot is only ever persisted
    by [save_state], which records the poll. *)

Lemma empty_state_holds_no_cart now :
  last_update (meta (create_empty_state now)) = None
  ∧ carts (create_empty_state now) = ∅.
Proof. done. Qed.

Lemma saved_state_records_a_poll now st :
  last_update (meta (touch_metadata now st)) = Some now
  ∧ carts (touch_metadata now st) = carts st.
Proof. by destruct st as [c []]. Qed.

(** * The theorems at work on sample data *)

(** Two carts with the same id and date whose products are listed in a
    different order get the same event id, the one [hashlib] gives. *)
Lemma event_id_idempotent_witness :
  ∃ e1 e2,
    create_event "t1" (sample_cart 1 3 "d1" [line_item 9 1; line_item 4 2])
      "cart_created" "x1" "run" = Ok e1
    ∧ create_event "t2" (sample_cart 1 5 "d1" [line_item 4 2; line_item 9 1])
        "cart_created" "x1" "run" = Ok e2
    ∧ event_id e1 = event_id e2
    ∧ event_id e1 = "cart_1_153c14517f28".
Proof.
  destruct (proj2 event_id_idempotent "t1" "t2"
              (sample_cart 1 3 "d1" [line_item 9 1; line_item 4 2])
              (sample_cart 1 5 "d1" [line_item 4 2; line_item 9 1])
              "cart_created" "x1" "run" "1" (JStr "d1") (JInt 3) (JInt 5)
              [line_item 9 1; line_item 4 2] [line_item 4 2; line_item 9 1])
    as (e1 & e2 & sg & Hs & _ & H1 & H2 & H3 & H4);
    try reflexivity; [apply perm_swap|].
  exists e1, e2. split; [exact H1|]. split; [exact H2|]. split; [exact H3|].
  injection Hs as <-. rewrite H4. vm_compute. reflexivity.
Defined.

(** Two carts with the same id and date whose products are a permutation
    of one another, two line items that share a product id: the event
    ids differ. *)
Lemma shared_product_id_event_ids_differ :
  [line_item 1 2; line_item 1 3] ≡ₚ [line_item 1 3; line_item 1 2]
  ∧ ∃ e1 e2,
      create_event "t1" (sample_cart 1 3 "d1" [line_item 1 2; line_item 1 3])
        "cart_created" "x1" "run" = Ok e1
      ∧ create_event "t1" (sample_cart 1 3 "d1" [line_item 1 3; line_item 1 2])
          "cart_created" "x1" "run" = Ok e2
      ∧ event_id e1 = "cart_1_3bb49bba53d0"
      ∧ event_id e2 = "cart_1_ba5f8870cacf"
      ∧ event_id e1 ≠ event_id e2.
Proof.
  split; [apply perm_swap|].
  eexists _, _. split; [by vm_compute|]. split; [by vm_compute|].
  split; [done|]. split; [done|]. by vm_compute.
Qed.

(** Two lists with pairwise different product ids, one a permutation of
    the other. *)
Lemma products_signature_canonical_witness :
  ∃ s1, calculate_products_signature (JList [line_item 1 2; line_item 2 3]) = Ok s1
        ∧ (same_items [line_item 1 2; line_item 2 3] [line_item 2 3; line_item 1 2]
           ↔ calculate_products_signature (JList [line_item 2 3; line_item 1 2]) = Ok s1).
Proof.
  apply (products_signature_canonical
           [line_item 1 2; line_item 2 3] [line_item 2 3; line_item 1 2]);
    reflexivity.
Defined.

(** Product ids that are lists are ordered as Python orders lists. *)
Lemma list_valued_product_ids_are_sorted :
  calculate_products_signature
    (JList [JDict [("productId", JList [JInt 2])];
            JDict [("productId", JList [JInt 1; JInt 5])];
            JDict [("productId", JList [JInt 1])]])
  = Ok (json_dumps true
          (JList [JDict [("productId", JList [JInt 1])];
                  JDict [("productId", JList [JInt 1; JInt 5])];
                  JDict [("productId", JList [JInt 2])]]))
  ∧ distinct_product_ids
      [JDict [("productId", JList [JInt 2])];
       JDict [("productId", JList [JInt 1; JInt 5])];
       JDict [("productId", JList [JInt 1])]] = true.
Proof. split; by vm_compute. Qed.

(** Two line items that share a product id: listed in the two possible
    orders they are the same items, and the signatures differ. *)
Lemma shared_product_id_signatures_differ :
  same_items [line_item 1 2; line_item 1 3] [line_item 1 3; line_item 1 2]
  ∧ is_ok (calculate_products_signature (JList [line_item 1 2; line_item 1 3])) = true
  ∧ is_ok (calculate_products_signature (JList [line_item 1 3; line_item 1 2])) = true
  ∧ calculate_products_signature (JList [line_item 1 2; line_item 1 3])
    ≠ calculate_products_signature (JList [line_item 1 3; line_item 1 2]).
Proof.
  split_and!; [|done|done|by vm_compute].
  exists [line_item 1 2; line_item 1 3]. split; [apply perm_swap|].
  repeat constructor; apply json_equiv_refl.
Qed.

(** A first poll that fetches two carts. *)
Lemma cold_start_completeness_witness :
  ∃ st',
    compare_and_detect_changes (λ _, "now") elements (create_empty_state "t0")
      [sample_cart 1 3 "d1" [line_item 9 1]; sample_cart 2 4 "d2" []]
    = (st', Ok (Changes [sample_cart 1 3 "d1" [line_item 9 1]; sample_cart 2 4 "d2" []]
                  [] [] [] true))
    ∧ dom (carts st') = list_to_set ["1"; "2"]
    ∧ carts st' !! "1" = Some (sample_entry 3 "d1" [line_item 9 1])
    ∧ carts st' !! "2" = Some (sample_entry 4 "d2" []).
Proof.
  destruct (cold_start_completeness (λ _, "now") elements (create_empty_state "t0")
              [sample_cart 1 3 "d1" [line_item 9 1]; sample_cart 2 4 "d2" []] ["1"; "2"])
    as (st' & Hrun & _ & Hdom & Hall).
  - reflexivity.
  - reflexivity.
  - reflexivity.
  - apply (bool_decide_unpack _). reflexivity.
  - repeat constructor; eexists; reflexivity.
  - exists st'. split; [exact Hrun|]. split; [exact Hdom|].
    destruct (Hall 0%nat (sample_cart 1 3 "d1" [line_item 9 1]) "1" eq_refl eq_refl)
      as (d1 & u1 & Hd1 & Hu1 & Hst1).
    destruct (Hall 1%nat (sample_cart 2 4 "d2" []) "2" eq_refl eq_refl)
      as (d2 & u2 & Hd2 & Hu2 & Hst2).
    injection Hd1 as <-. injection Hu1 as <-. injection Hd2 as <-. injection Hu2 as <-.
    split; [exact Hst1|exact Hst2].
Defined.

(** The snapshot holds the carts 1, 2 and 3 and the poll fetches 1 and 2
    as they are stored. *)
Lemma deletion_detection_witness :
  ∃ st' ch,
    compare_and_detect_changes (λ _, "now") elements sample_state
      [sample_cart 1 1 "d1" [line_item 9 1];
       sample_cart 2 2 "d1" [line_item 5 1; line_item 4 2]]
    = (st', Ok ch)
    ∧ carts st' !! "3" = None
    ∧ (∃ n : nat, deleted_cart_obj "3" (JInt 3) "now" (JList []) ∈ deleted_carts ch)
    ∧ sample_cart 2 2 "d1" [line_item 5 1; line_item 4 2] ∈ unchanged_carts ch.
Proof.
  destruct (deletion_detection (λ _, "now") elements (λ X, Permutation_refl _) sample_state
              [sample_cart 1 1 "d1" [line_item 9 1];
               sample_cart 2 2 "d1" [line_item 5 1; line_item 4 2]] ["1"; "2"])
    as (st' & ch & Hrun & Hdel & _ & Hsame).
  - discriminate.
  - reflexivity.
  - apply (bool_decide_unpack _). reflexivity.
  - repeat constructor.
  - apply (bool_decide_unpack _). reflexivity.
  - exists st', ch. split; [exact Hrun|].
    destruct (Hdel "3" (sample_entry 3 "d1" []) eq_refl) as (Hgone & u & p & n & Hu & Hp & Hin).
    { apply (bool_decide_unpack _). reflexivity. }
    injection Hu as <-. injection Hp as <-.
    split; [exact Hgone|]. split; [exists n; exact Hin|].
    apply (Hsame 1%nat _ "2" (sample_entry 2 "d1" [line_item 4 2; line_item 5 1])
             (JStr "d1") (JStr "d1")
             (json_dumps true (JList [line_item 4 2; line_item 5 1])));
      reflexivity.
Defined.

(** The snapshot holds cart 1 with date [d1]; the poll fetches it with date
    [d2]. *)
Lemma warm_poll_modified_or_unchanged_witness :
  ∃ st' ch,
    compare_and_detect_changes (λ _, "now") elements sample_state
      [sample_cart 1 1 "d2" [line_item 9 1]]
    = (st', Ok ch)
    ∧ sample_cart 1 1 "d2" [line_item 9 1] ∈ modified_carts ch
    ∧ ∃ e', carts st' !! "1" = Some e' ∧ dict_get "date" e' = Some (JStr "d2").
Proof.
  destruct (warm_poll_modified_or_unchanged (λ _, "now") elements (λ X, Permutation_refl _)
              sample_state [sample_cart 1 1 "d2" [line_item 9 1]] ["1"])
    as (st' & ch & Hrun & Hall).
  - discriminate.
  - reflexivity.
  - apply (bool_decide_unpack _). reflexivity.
  - repeat constructor.
  - apply (bool_decide_unpack _). reflexivity.
  - exists st', ch. split; [exact Hrun|].
    destruct (Hall 0%nat _ "1" (sample_entry 1 "d1" [line_item 9 1]) eq_refl eq_refl eq_refl)
      as (d & od & s_old & s_new & Hd & Hod & _ & _ & Hres).
    injection Hd as <-. injection Hod as <-.
    destruct Hres as (Hm & e' & He' & Hdate & _).
    split; [exact Hm|]. exists e'. split; [exact He'|exact Hdate].
Defined.

(** C5. The snapshot holds cart 1 for user 1; the poll fetches it with a
    new date for user 7.  The cart is classified modified and the stored
    entry still names user 1: it is not the projection of the fetched
    record, which the same record gets stored as on a cold start. *)
Lemma modified_entry_keeps_stored_user :
  (∃ st' ch,
     compare_and_detect_changes (λ _, "now") elements sample_state
       [sample_cart 1 7 "d2" [line_item 9 1]]
     = (st', Ok ch)
     ∧ sample_cart 1 7 "d2" [line_item 9 1] ∈ modified_carts ch
     ∧ carts st' !! "1" = Some (sample_entry 1 "d2" [line_item 9 1])
     ∧ projection (JStr "d2") (JInt 7) (sample_cart 1 7 "d2" [line_item 9 1])
       = sample_entry 7 "d2" [line_item 9 1]
     ∧ carts st' !! "1"
       ≠ Some (projection (JStr "d2") (JInt 7) (sample_cart 1 7 "d2" [line_item 9 1])))
  ∧ (∃ st' ch,
       compare_and_detect_changes (λ _, "now") elements (create_empty_state "t0")
         [sample_cart 1 7 "d2" [line_item 9 1]]
       = (st', Ok ch)
       ∧ carts st' !! "1" = Some (sample_entry 7 "d2" [line_item 9 1])).
Proof.
  split.
  - eexists _, _. split; [vm_compute; reflexivity|].
    split; [vm_compute; left|]. split; [by vm_compute|]. split; [done|]. by vm_compute.
  - eexists _, _. split; [vm_compute; reflexivity|]. by vm_compute.
Qed.

(** A batch of two events, the second of which the broker never
    acknowledges, on a disk that takes every file. *)
Lemma retry_exhaustion_routes_to_dead_letter_witness :
  ∃ w' calls,
    publish_events (λ _, None) sample_broker (λ _, "ts") (λ _, true) (λ _, true)
      (Some "topic") [sample_event "good"; sample_event "bad"] (World [] [] [] 0)
    = (w', Ok (Stats 1 1 1))
    ∧ w_calls w' = [] ++ calls
    ∧ count_occ message_eq_dec calls (make_message (λ _, None) "topic" (sample_event "bad"))
      = 4%nat
    ∧ w_dead_letter w' = [("bad_ts.json", sample_event "bad")].
Proof.
  destruct (retry_exhaustion_routes_to_dead_letter (λ _, None) sample_broker (λ _, "ts")
              (λ _, true) (λ _, true)
              "topic" [sample_event "good"; sample_event "bad"] (sample_event "bad")
              (World [] [] [] 0))
    as (st & w' & calls & dl & Hrun & _ & _ & Hcalls & _ & Hocc & _).
  - right. left.
  - intros h. reflexivity.
  - intros n. reflexivity.
  - exists w', calls. pose proof Hrun as Hrun'. vm_compute in Hrun'.
    injection Hrun' as <- <-. split; [exact Hrun|]. split; [exact Hcalls|].
    split; [exact Hocc|reflexivity].
Defined.

(** A batch of one event that the broker never acknowledges and whose id
    has a [/] in it, on a disk where such a file cannot be opened: the
    event is counted in [failed] and in [dead_letter], and no dead letter
    is written. *)
Lemma unwritable_dead_letter_is_counted :
  ∃ w',
    publish_events (λ _, None) (λ _ _, false) (λ _, "ts") (λ _, true) sample_disk
      (Some "topic") [sample_event "cart_a/b_0"] (World [] [] [] 0)
    = (w', Ok (Stats 0 1 1))
    ∧ w_calls w'
      = replicate 4 (make_message (λ _, None) "topic" (sample_event "cart_a/b_0"))
    ∧ w_dead_letter w' = [].
Proof. eexists. split; [by vm_compute|]. split; by vm_compute. Qed.

(** A fetch whose first record has no id. *)
Lemma missing_id_aborts_detection_witness :
  compare_and_detect_changes (λ _, "now") elements sample_state
    [[("userId", JInt 1); ("date", JStr "d1")]; sample_cart 2 2 "d1" []]
  = (sample_state, Raise (KeyError "id")).
Proof.
  apply (missing_id_aborts_detection (λ _, "now") elements sample_state
           [[("userId", JInt 1); ("date", JStr "d1")]; sample_cart 2 2 "d1" []]).
  exists [("userId", JInt 1); ("date", JStr "d1")]. split; [left|reflexivity].
Defined.

(** A fetch of a record without an id and of a new, well-formed cart: the
    detection raises, the well-formed cart is neither classified nor
    stored. *)
Lemma missing_id_is_not_skipped :
  compare_and_detect_changes (λ _, "now") elements (create_empty_state "t0")
    [[("userId", JInt 1); ("date", JStr "d1")]; sample_cart 2 2 "d1" []]
  = (create_empty_state "t0", Raise (KeyError "id"))
  ∧ ∀ ch, snd (compare_and_detect_changes (λ _, "now") elements (create_empty_state "t0")
                 [[("userId", JInt 1); ("date", JStr "d1")]; sample_cart 2 2 "d1" []])
          ≠ Ok ch.
Proof. split; [by vm_compute|]. intros ch. by vm_compute. Qed.

(** The snapshot holds the carts 1, 2 and 3 and the poll fetches 2 and a
    new cart 4. *)
Lemma snapshot_ids_are_fetched_ids_witness :
  ∃ st' ch,
    compare_and_detect_changes (λ _, "now") elements sample_state
      [sample_cart 2 2 "d1" []; sample_cart 4 1 "d3" [line_item 9 1]]
    = (st', Ok ch)
    ∧ dom (carts st') = list_to_set ["2"; "4"].
Proof.
  destruct (snapshot_ids_are_fetched_ids (λ _, "now") elements (λ X, Permutation_refl _)
              sample_state [sample_cart 2 2 "d1" []; sample_cart 4 1 "d3" [line_item 9 1]]
              ["2"; "4"])
    as (st' & ch & Hrun & Hdom & _).
  - discriminate.
  - reflexivity.
  - apply (bool_decide_unpack _). reflexivity.
  - repeat constructor.
  - apply (bool_decide_unpack _). reflexivity.
  - exists st', ch. split; [exact Hrun|exact Hdom].
Defined.

(** A created and a deleted event of the same cart content, built at
    different times in different runs. *)
Lemma event_id_depends_on_content_only_witness :
  ∃ e1 e2,
    create_event "t1" (sample_cart 1 3 "d1" [line_item 9 1]) "cart_created" "x1" "run1" = Ok e1
    ∧ create_event "t2" (sample_cart 1 3 "d1" [line_item 9 1]) "cart_deleted" "x2" "run2" = Ok e2
    ∧ event_id e2 = event_id e1.
Proof.
  assert (∃ e1, create_event "t1" (sample_cart 1 3 "d1" [line_item 9 1])
                  "cart_created" "x1" "run1" = Ok e1) as [e1 H1].
  { eexists. vm_compute. reflexivity. }
  destruct (proj1 event_id_depends_on_content_only (sample_cart 1 3 "d1" [line_item 9 1])
              "t1" "t2" "cart_created" "cart_deleted" "x1" "x2" "run1" "run2" e1 H1)
    as (e2 & H2 & Hid).
  exists e1, e2. split; [exact H1|]. split; [exact H2|exact Hid].
Defined.

(** A save that is interrupted after the temp file has been opened and two
    characters written: the state file holds what it held.  The serializer
    here writes the [created_at] stamp only. *)
Lemma save_state_atomic_witness :
  fs_run (take 4 (snd (save_state (λ st, created_at (meta st)) "t9" None sample_state)))
    {[STATE_FILE := "old"]} !! STATE_FILE
  = Some "old".
Proof.
  exact (proj1 (proj2 (save_state_atomic (λ st, created_at (meta st)) (λ _, Corrupted)
                         "t9" None sample_state {[STATE_FILE := "old"]} 4))).
Defined.

(** * Further facts *)

(** ** API polling *)

Lemma fetch_attempts_unfold api w :
  fetch_carts_from_api api w = fetch_attempts api [1; 2; 3] w.
Proof. done. Qed.

(** Three requests in a row that raise a [RequestException]. *)
Lemma fetch_exhausted api w :
  (∀ j, (j < 3)%nat → api (n_requests w + j)%nat = RequestException) →
  fetch_carts_from_api api w
  = (Returned None, Net (n_requests w + 3) (n_sleeps w ++ [2; 4])).
Proof.
  intros H. rewrite fetch_attempts_unfold. simpl.
  pose proof (H 0%nat ltac:(lia)) as H0. pose proof (H 1%nat ltac:(lia)) as H1.
  pose proof (H 2%nat ltac:(lia)) as H2.
  rewrite Nat.add_0_r in H0. rewrite Nat.add_1_r in H1.
  replace (n_requests w + 2)%nat with (S (S (n_requests w))) in H2 by lia.
  rewrite H0. simpl. rewrite H1. simpl. rewrite H2.
  do 2 f_equal; [lia|by rewrite <-app_assoc].
Qed.

(** X1. [fetch_carts_from_api] makes between one and [MAX_RETRIES] = 3
    requests: it stops at the first request that does not raise a
    [RequestException] and returns its carts (or lets its exception
    escape), and returns [None] when the third request fails too.  Before
    the second request it sleeps 2 seconds, before the third 4, and it
    does not sleep after the last. *)
Theorem fetch_stops_at_first_answer api w :
  ∃ k : nat,
    (k < 3)%nat
    ∧ (∀ j, (j < k)%nat → api (n_requests w + j)%nat = RequestException)
    ∧ (api (n_requests w + k)%nat = RequestException → k = 2%nat)
    ∧ fetch_carts_from_api api w
      = (match api (n_requests w + k)%nat with
         | Fetched carts => Returned (Some carts)
         | RequestException => Returned None
         | OtherException => Escaped
         end,
         Net (n_requests w + k + 1) (n_sleeps w ++ take k [2; 4])).
Proof.
  rewrite fetch_attempts_unfold. destruct w as [n sl]. cbn [n_requests n_sleeps].
  assert (∀ (P : nat → Prop) k, (∀ j, (j < k)%nat → P j) → P k → ∀ j, (j < S k)%nat → P j)
    as Hlt.
  { intros P k H1 H2 j Hj. destruct (decide (j = k)) as [->|]; [done|]. apply H1. lia. }
  destruct (api n) as [c0| |] eqn:H0.
  - exists 0%nat. rewrite !Nat.add_0_r, H0. simpl. rewrite H0, app_nil_r.
    split_and!; [lia|intros; lia|done|by rewrite Nat.add_1_r].
  - destruct (api (S n)) as [c1| |] eqn:H1.
    + exists 1%nat. rewrite !Nat.add_1_r, H1. simpl. rewrite H0. simpl. rewrite H1.
      split_and!; [lia| |done|do 3 f_equal; lia].
      apply Hlt; [intros; lia|by rewrite Nat.add_0_r].
    + exists 2%nat. replace (n + 2)%nat with (S (S n)) by lia.
      assert (∀ j, (j < 2)%nat → api (n + j)%nat = RequestException) as Hbefore.
      { apply Hlt; [|by rewrite Nat.add_1_r]. apply Hlt; [intros; lia|by rewrite Nat.add_0_r]. }
      simpl. rewrite H0. simpl. rewrite H1. simpl.
      destruct (api (S (S n))) eqn:H2; simpl;
        (split_and!; [lia|done|done|do 2 f_equal; [lia|by rewrite <-app_assoc]]).
    + exists 1%nat. rewrite !Nat.add_1_r, H1. simpl. rewrite H0. simpl. rewrite H1.
      split_and!; [lia| |done|do 3 f_equal; lia].
      apply Hlt; [intros; lia|by rewrite Nat.add_0_r].
  - exists 0%nat. rewrite !Nat.add_0_r, H0. simpl. rewrite H0, app_nil_r.
    split_and!; [lia|intros; lia|done|by rewrite Nat.add_1_r].
Qed.

(** ** Snapshot persistence *)

Lemma save_ops_are_save_ops io_error content : Forall save_op (save_ops io_error content).
Proof.
  assert (Forall save_op (write_ops content)) as Hw.
  { unfold write_ops. rewrite !Forall_app. split_and!.
    - by repeat constructor.
    - apply Forall_forall. by intros op [c [-> _]]%list_elem_of_fmap.
    - by repeat constructor. }
  unfold save_ops. constructor; [done|].
  destruct io_error as [k|]; [|done].
  destruct (k <? length (write_ops content))%nat; [|done].
  rewrite Forall_app. split; [by apply Forall_take|by repeat constructor].
Qed.

Lemma fs_run_other ops p : ∀ fs,
  Forall save_op ops → p ≠ STATE_FILE → p ≠ TEMP_FILE → fs_run ops fs !! p = fs !! p.
Proof.
  induction ops as [|op ops IH]; intros fs Hops Hs Ht; [done|].
  apply Forall_cons in Hops as [Hop Hops]. unfold fs_run in *. simpl.
  rewrite IH by done.
  destruct op as [d|q|q c|src dst|q]; simpl in *; subst; try done.
  - by rewrite lookup_insert_ne.
  - by rewrite lookup_alter_ne.
  - destruct Hop as [-> ->]. destruct (fs !! TEMP_FILE); [|done].
    rewrite lookup_insert_ne by done. by rewrite lookup_delete_ne.
  - by rewrite lookup_delete_ne.
Qed.

Lemma fs_run_ends_without_temp ops op fs :
  op = Unlink TEMP_FILE ∨ (op = Replace TEMP_FILE STATE_FILE ∧ is_Some (fs_run ops fs !! TEMP_FILE)) →
  fs_run (ops ++ [op]) fs !! TEMP_FILE = None.
Proof.
  rewrite fs_run_app. generalize (fs_run ops fs). intros fs1 [->|[-> [s Hs]]].
  - apply lookup_delete_eq.
  - unfold fs_run. simpl. rewrite Hs. rewrite lookup_insert_ne by done. apply lookup_delete_eq.
Qed.

Section SaveFacts.
Variable json_dump_state : state → string.
Variable json_load_state : string → decoded.

(** X2. When [save_state] has run to its end, with or without a failure
    on the way, no temp file is left behind and no file other than the
    state file has changed. *)
Theorem save_state_leaves_no_temp_file now io_error st fs :
  let ops := snd (save_state json_dump_state now io_error st) in
  fs_run ops fs !! TEMP_FILE = None
  ∧ ∀ p, p ≠ STATE_FILE → fs_run ops fs !! p = if decide (p = TEMP_FILE) then None else fs !! p.
Proof.
  unfold save_state. cbn [snd]. set (content := json_dump_state _).
  assert (fs_run (save_ops io_error content) fs !! TEMP_FILE = None) as Htemp.
  { assert (∀ fs0, fs_run (write_ops content) fs0 !! TEMP_FILE = None) as Hok.
    { intros fs0. unfold write_ops. rewrite app_assoc. apply fs_run_ends_without_temp.
      right. split; [done|]. rewrite fs_run_app.
      erewrite fs_run_writes; [done|]. apply lookup_insert_eq. }
    unfold save_ops.
    change (Mkdir "state" :: ?a) with ([Mkdir "state"] ++ a). rewrite fs_run_app.
    destruct io_error as [k|]; [|apply Hok].
    destruct (k <? length (write_ops content))%nat; [|apply Hok].
    apply fs_run_ends_without_temp. by left. }
  split; [done|]. intros p Hp. case_decide as Ht; [by subst|].
  apply fs_run_other; [apply save_ops_are_save_ops|done|done].
Qed.

(** X3. A save that does not fail, followed by [load_state], gives back
    the snapshot that was saved, with its metadata as [save_state] updated
    it, whatever the state file and the temp file held before; provided
    the serializer reads back what it writes. *)
Theorem save_then_load now io_error st fs t :
  (∀ k, io_error = Some k → (length (write_ops (json_dump_state (touch_metadata now st))) ≤ k)%nat) →
  json_load_state (json_dump_state (touch_metadata now st)) = Decoded (touch_metadata now st) →
  load_state json_load_state t
    (fs_run (snd (save_state json_dump_state now io_error st)) fs)
  = Loaded (fst (save_state json_dump_state now io_error st)).
Proof.
  intros Herr Hrt. unfold save_state. cbn [fst snd]. set (content := json_dump_state _) in *.
  assert (save_ops io_error content = Mkdir "state" :: write_ops content) as ->.
  { unfold save_ops. destruct io_error as [k|]; [|done].
    destruct (Nat.ltb_spec k (length (write_ops content))); [|done].
    specialize (Herr k eq_refl). lia. }
  unfold load_state.
  change (Mkdir "state" :: ?a) with ([Mkdir "state"] ++ a). rewrite fs_run_app.
  by rewrite fs_run_write_ops, Hrt.
Qed.

End SaveFacts.

Lemma save_then_load_witness :
  load_state (λ _, Decoded (touch_metadata "t9" sample_state)) "t"
    (fs_run (snd (save_state (λ _, "{}") "t9" None sample_state)) {[TEMP_FILE := "junk"]})
  = Loaded (touch_metadata "t9" sample_state).
Proof.
  apply (save_then_load (λ _, "{}") (λ _, Decoded (touch_metadata "t9" sample_state))
           "t9" None sample_state {[TEMP_FILE := "junk"]} "t").
  - intros k Hk. discriminate Hk.
  - reflexivity.
Defined.

(** ** Publisher *)

Section PublisherMore.
Variable json_loads : string → option json.
Variable broker : list message → message → bool.
Variable now_stamp : nat → string.
Variable dead_letter_dir : nat → bool.
Variable disk : string → bool.

Abbreviation publish' := (publish_event_to_pubsub json_loads broker).
Abbreviation msg_of' := (make_message json_loads).
Abbreviation publish_all' := (publish_each json_loads broker now_stamp dead_letter_dir disk).

(** X4. [publish_event_to_pubsub], called without a retry count, calls
    the broker until a call is acknowledged, four times at most
    ([MAX_PUBLISH_RETRIES] = 3 retries): it returns whether the last call
    made was acknowledged, having slept 2, 4 and 8 seconds before the
    second, third and fourth call and not after the last.  It writes no
    dead letter. *)
Theorem publish_stops_at_first_ack topic e w :
  ∃ k : nat,
    (k < 4)%nat
    ∧ (∀ j, (j < k)%nat →
         broker (w_calls w ++ replicate j (msg_of' topic e)) (msg_of' topic e) = false)
    ∧ (broker (w_calls w ++ replicate k (msg_of' topic e)) (msg_of' topic e) = false →
       k = 3%nat)
    ∧ publish' topic e 0 w
      = (broker (w_calls w ++ replicate k (msg_of' topic e)) (msg_of' topic e),
         World (w_calls w ++ replicate (S k) (msg_of' topic e))
               (w_sleeps w ++ take k [2; 4; 8]) (w_dead_letter w) (w_ticks w)).
Proof.
  set (m := msg_of' topic e).
  assert (∀ (P : nat → Prop) k, (∀ j, (j < k)%nat → P j) → P k → ∀ j, (j < S k)%nat → P j)
    as Hlt.
  { intros P k H1 H2 j Hj. destruct (decide (j = k)) as [->|]; [done|]. apply H1. lia. }
  assert (∀ j, (j < 0)%nat → broker (w_calls w ++ replicate j m) m = false) as H0
    by (intros; lia).
  destruct (broker (w_calls w ++ replicate 0 m) m) eqn:B0.
  { exists 0%nat. rewrite B0. split_and!; [lia|done|done|].
    rewrite publish_unfold. fold m. simpl in B0. rewrite app_nil_r in B0. rewrite B0.
    unfold record_call. simpl. by rewrite app_nil_r. }
  pose proof (Hlt _ _ H0 B0) as H1.
  destruct (broker (w_calls w ++ replicate 1 m) m) eqn:B1.
  { exists 1%nat. rewrite B1. split_and!; [lia|done|done|].
    rewrite publish_unfold. fold m. simpl in B0. rewrite app_nil_r in B0. rewrite B0.
    try rewrite decide_True by (by compute).
    rewrite publish_unfold. fold m. cbn [w_calls time_sleep record_call].
    simpl in B1. rewrite B1. unfold record_call. simpl. by rewrite <-!app_assoc. }
  pose proof (Hlt _ _ H1 B1) as H2.
  destruct (broker (w_calls w ++ replicate 2 m) m) eqn:B2.
  { exists 2%nat. rewrite B2. split_and!; [lia|done|done|].
    rewrite publish_unfold. fold m. simpl in B0. rewrite app_nil_r in B0. rewrite B0.
    try rewrite decide_True by (by compute).
    rewrite publish_unfold. fold m. cbn [w_calls time_sleep record_call].
    simpl in B1. rewrite B1. try rewrite decide_True by (by compute).
    rewrite publish_unfold. fold m. cbn [w_calls time_sleep record_call].
    simpl in B2. rewrite <-app_assoc. simpl. rewrite B2.
    unfold record_call. simpl. by rewrite <-!app_assoc. }
  pose proof (Hlt _ _ H2 B2) as H3.
  exists 3%nat. split_and!; [lia|done|done|].
  rewrite publish_unfold. fold m. simpl in B0. rewrite app_nil_r in B0. rewrite B0.
  try rewrite decide_True by (by compute).
  rewrite publish_unfold. fold m. cbn [w_calls time_sleep record_call].
  simpl in B1. rewrite B1. try rewrite decide_True by (by compute).
  rewrite publish_unfold. fold m. cbn [w_calls time_sleep record_call].
  simpl in B2. rewrite <-app_assoc. simpl. rewrite B2.
  try rewrite decide_True by (by compute).
  rewrite publish_unfold. fold m. cbn [w_calls time_sleep record_call].
  rewrite <-!app_assoc. simpl.
  destruct (broker (w_calls w ++ [m; m; m]) m) eqn:B3.
  - unfold record_call. simpl. by rewrite <-!app_assoc.
  - try rewrite decide_False by (by compute). unfold record_call. simpl. by rewrite <-!app_assoc.
Qed.

(** A call of the publisher adds between one and four broker calls,
    all for its own message. *)
Lemma publish_bounded topic e k : ∀ n w,
  0 ≤ n → Z.to_nat (MAX_PUBLISH_RETRIES + 1 - n) = k →
  ∃ ok w' c, publish' topic e n w = (ok, w') ∧ (1 ≤ c ≤ max 1 k)%nat
    ∧ w_calls w' = w_calls w ++ replicate c (msg_of' topic e)
    ∧ w_dead_letter w' = w_dead_letter w ∧ w_ticks w' = w_ticks w.
Proof.
  unfold MAX_PUBLISH_RETRIES.
  induction k as [|k IH]; intros n w Hn Hk; rewrite publish_unfold.
  - destruct (broker _ _).
    + eexists _, _, 1%nat. split_and!; try done; lia.
    + rewrite decide_False by (unfold MAX_PUBLISH_RETRIES; lia).
      eexists _, _, 1%nat. split_and!; try done; lia.
  - destruct (broker _ _).
    + eexists _, _, 1%nat. split_and!; try done; lia.
    + destruct (decide (n + 1 ≤ MAX_PUBLISH_RETRIES)) as [Hle|Hgt].
      * unfold MAX_PUBLISH_RETRIES in Hle.
        destruct (IH (n + 1) (time_sleep (2 ^ (n + 1)) (record_call (msg_of' topic e) w)))
          as (ok & w' & c & -> & Hc & Hcalls & Hdl & Hticks); [lia|lia|].
        exists ok, w', (S c). split_and!; try done; try lia.
        rewrite Hcalls. simpl. by rewrite <-app_assoc.
      * eexists _, _, 1%nat. split_and!; try done; lia.
Qed.

Lemma publish_acknowledged topic e n w :
  (∀ h, broker h (msg_of' topic e) = true) →
  publish' topic e n w = (true, record_call (msg_of' topic e) w).
Proof. intros He. by rewrite publish_unfold, He. Qed.

(** The batch loop, for any broker and any disk: [saves] dead-letter
    saves got past their [mkdir]. *)
Lemma publish_batch topic l : ∀ st w,
  ∃ w' r calls dl (saves : nat),
    publish_all' topic l st w = (w', r)
    ∧ w_calls w' = w_calls w ++ calls
    ∧ w_dead_letter w' = w_dead_letter w ++ dl
    ∧ w_ticks w' = (w_ticks w + saves)%nat
    ∧ (length dl ≤ saves ≤ length l)%nat
    ∧ ((∀ name, disk name = true) → length dl = saves)
    ∧ (length calls ≤ 4 * length l)%nat
    ∧ (map snd dl `sublist_of` l)
    ∧ (∀ e, (∀ h, broker h (msg_of' topic e) = true) →
         (e ∉ map snd dl)
         ∧ (count_occ message_eq_dec calls (msg_of' topic e) ≤ count_occ event_eq_dec l e)%nat)
    ∧ match r with
      | Ok st' =>
          success st' = success st + Z.of_nat (length l) - Z.of_nat saves
          ∧ failed st' = failed st + Z.of_nat saves
          ∧ dead_letter st' = dead_letter st + Z.of_nat saves
          ∧ (length l ≤ length calls)%nat
          ∧ (∀ e, (∀ h, broker h (msg_of' topic e) = true) →
               count_occ message_eq_dec calls (msg_of' topic e) = count_occ event_eq_dec l e)
      | Raise err => err = OSError ∧ dead_letter_dir (w_ticks w') = false
      end
    ∧ ((∀ n, dead_letter_dir n = true) → ∃ st', r = Ok st').
Proof.
  induction l as [|x l IH]; intros st w.
  - exists w, (Ok st), [], [], 0%nat. simpl. rewrite !app_nil_r.
    split_and!; try done; try lia; [|by eauto].
    intros e _. split; [apply not_elem_of_nil|done].
  - destruct (publish_bounded topic x _ 0 w ltac:(done) eq_refl)
      as (ok & w1 & c & Hpub & Hc & Hcalls1 & Hdl1 & Hticks1).
    change (Z.to_nat (MAX_PUBLISH_RETRIES + 1 - 0)) with 4%nat in Hc.
    rewrite (publish_each_cons json_loads broker now_stamp dead_letter_dir disk),
      (publish_one_unfold json_loads broker now_stamp dead_letter_dir disk topic st w x), Hpub.
    assert (∀ e, (∀ h, broker h (msg_of' topic e) = true) → x = e → ok = true ∧ c = 1%nat)
      as Hacked.
    { intros e He <-. rewrite (publish_acknowledged _ _ _ _ He) in Hpub.
      injection Hpub as <- <-. split; [done|].
      cbn [record_call w_calls] in Hcalls1. apply app_inv_head in Hcalls1.
      apply (f_equal length) in Hcalls1. by rewrite length_replicate in Hcalls1. }
    assert (∀ e calls,
              count_occ message_eq_dec (replicate c (msg_of' topic x) ++ calls) (msg_of' topic e)
              = ((if event_eq_dec x e then c else 0)
                 + count_occ message_eq_dec calls (msg_of' topic e))%nat) as Hcount.
    { intros e calls. rewrite count_occ_app. f_equal.
      destruct (event_eq_dec x e) as [->|Hne]; [apply count_occ_replicate_eq|].
      apply count_occ_replicate_ne. by intros ?%msg_of_inj. }
    destruct ok.
    + destruct (IH (Stats (success st + 1) (failed st) (dead_letter st)) w1)
        as (w' & r & calls & dl & k & Hrun & Hcalls & Hdl & Ht & Hlen & Hfull & Hcl & Hsub
            & Hack & Hr & Hdir).
      exists w', r, (replicate c (msg_of' topic x) ++ calls), dl, k.
      rewrite Hrun. cbn [success failed dead_letter length] in *.
      split_and!; try done;
        try (rewrite ?length_app, ?length_replicate; cbn [length]; lia).
      * rewrite Hcalls, Hcalls1. by rewrite <-app_assoc.
      * congruence.
      * by apply sublist_cons.
      * intros e He. destruct (Hack e He) as [Hc1 Hc2]. split; [done|].
        rewrite Hcount. cbn [count_occ].
        destruct (event_eq_dec x e) as [Hxe|Hne]; [|done].
        destruct (Hacked e He Hxe) as [_ ->]. lia.
      * destruct r as [st'|err]; [|done]. destruct Hr as (Hs & Hf & Hd & Hl & Hall).
        split_and!; try done;
          try (rewrite ?length_app, ?length_replicate; cbn [length]; lia).
        intros e He. rewrite Hcount, (Hall e He). cbn [count_occ].
        destruct (event_eq_dec x e) as [Hxe|Hne]; [|done].
        by destruct (Hacked e He Hxe) as [_ ->].
    + assert (∀ e, (∀ h, broker h (msg_of' topic e) = true) → x ≠ e) as Hne.
      { intros e He Hxe. by destruct (Hacked e He Hxe). }
      destruct (dead_letter_dir (w_ticks w1)) eqn:Hmk.
      * rewrite (save_to_dead_letter_ok now_stamp dead_letter_dir disk) by done.
        set (name := dead_letter_file x (now_stamp (w_ticks w1))).
        set (entry := if disk name then [(name, x)] else []).
        destruct (IH (Stats (success st) (failed st + 1) (dead_letter st + 1))
                    (World (w_calls w1) (w_sleeps w1) (w_dead_letter w1 ++ entry)
                       (S (w_ticks w1))))
          as (w' & r & calls & dl & k & Hrun & Hcalls & Hdl & Ht & Hlen & Hfull & Hcl & Hsub
              & Hack & Hr & Hdir).
        assert (length entry ≤ 1)%nat as Hentry
          by (unfold entry; destruct (disk name); simpl; lia).
        exists w', r, (replicate c (msg_of' topic x) ++ calls), (entry ++ dl), (S k).
        rewrite Hrun.
        cbn [success failed dead_letter length w_calls w_dead_letter w_ticks] in *.
        split_and!; try done;
          try (rewrite ?length_app, ?length_replicate; cbn [length]; lia).
        -- rewrite Hcalls, Hcalls1. by rewrite <-app_assoc.
        -- rewrite Hdl, Hdl1. by rewrite <-app_assoc.
        -- intros Hw. rewrite length_app, (Hfull Hw). unfold entry. by rewrite (Hw name).
        -- rewrite map_app. unfold entry. destruct (disk name); simpl.
           ++ by apply sublist_skip.
           ++ by apply sublist_cons.
        -- intros e He. destruct (Hack e He) as [Hc1 Hc2]. specialize (Hne e He). split.
           ++ rewrite map_app. intros [Hin|Hin]%elem_of_app; [|done].
              unfold entry in Hin. destruct (disk name); simpl in Hin.
              ** by apply list_elem_of_singleton in Hin.
              ** by apply elem_of_nil in Hin.
           ++ rewrite Hcount. cbn [count_occ].
              by destruct (event_eq_dec x e).
        -- destruct r as [st'|err]; [|done]. destruct Hr as (Hs & Hf & Hd & Hl & Hall).
           split_and!; try done;
             try (rewrite ?length_app, ?length_replicate; cbn [length]; lia).
           intros e He. specialize (Hne e He). rewrite Hcount, (Hall e He).
           cbn [count_occ]. by destruct (event_eq_dec x e).
      * rewrite (save_to_dead_letter_raises now_stamp dead_letter_dir disk) by done.
        exists w1, (Raise OSError), (replicate c (msg_of' topic x)), [], 0%nat.
        split_and!; try done;
          try (rewrite ?length_app, ?length_replicate; cbn [length]; lia).
        -- by rewrite app_nil_r.
        -- apply sublist_nil_l.
        -- intros e He. specialize (Hne e He). split; [apply not_elem_of_nil|].
           rewrite count_occ_replicate_ne by (intros ?%msg_of_inj; done). lia.
        -- intros Hall. by rewrite Hall in Hmk.
Qed.


(** X5. [publish_events] accounts for every event of the batch, whatever
    the broker and the disk do.  Each event that the broker did not take
    gets one dead-letter save, which reads the clock once and leaves at
    most one file: the dead letters written are events of the batch in
    the order of the batch, at most one for each save, and exactly one
    when every write goes through.  When the batch publish returns,
    [success] and [failed] add up to the number of events and [failed]
    and [dead_letter] both count the dead-letter saves; the broker has
    been called at least once and at most four times per event.  It
    returns unless [mkdir] raises in a dead-letter save, and then that
    exception is what leaves it.  Without a publisher (local mode) the
    broker is not called and nothing is written: every event counts as a
    success. *)
Theorem publish_events_accounts_for_every_event publisher_config events w :
  ∃ w' r calls dl (saves : nat),
    publish_events json_loads broker now_stamp dead_letter_dir disk publisher_config events w
    = (w', r)
    ∧ w_calls w' = w_calls w ++ calls
    ∧ w_dead_letter w' = w_dead_letter w ++ dl
    ∧ w_ticks w' = (w_ticks w + saves)%nat
    ∧ (length dl ≤ saves)%nat
    ∧ ((∀ name, disk name = true) → length dl = saves)
    ∧ (map snd dl `sublist_of` events)
    ∧ (length calls ≤ 4 * length events)%nat
    ∧ match r with
      | Ok st =>
          0 ≤ success st
          ∧ success st + failed st = Z.of_nat (length events)
          ∧ failed st = Z.of_nat saves
          ∧ dead_letter st = Z.of_nat saves
          ∧ match publisher_config with
            | None => w' = w ∧ failed st = 0
            | Some _ => (length events ≤ length calls)%nat
            end
      | Raise err =>
          err = OSError ∧ dead_letter_dir (w_ticks w') = false ∧ publisher_config ≠ None
      end
    ∧ ((∀ n, dead_letter_dir n = true) → ∃ st, r = Ok st).
Proof.
  destruct publisher_config as [topic|].
  - destruct (publish_batch topic events (Stats 0 0 0) w)
      as (w' & r & calls & dl & k & Hrun & Hcalls & Hdl & Ht & Hlen & Hfull & Hcl & Hsub
          & _ & Hr & Hdir).
    exists w', r, calls, dl, k. cbn [success failed dead_letter] in *.
    split_and!; try done; try lia.
    + destruct events as [|x events]; [|exact Hrun].
      simpl in *. by injection Hrun as <- <-.
    + destruct r as [st|err]; [|by destruct Hr].
      destruct Hr as (Hs & Hf & Hd & Hl & _). split_and!; try done; lia.
  - exists w, (Ok (Stats (Z.of_nat (length events)) 0 0)), [], [], 0%nat.
    rewrite !app_nil_r. cbn [success failed dead_letter length map].
    split_and!; try done; try lia; [by destruct events|apply sublist_nil_l|by eauto].
Qed.

(** X6. An event that the broker always acknowledges is never written to
    the dead letters, whatever happens to the other events of the batch,
    and is sent exactly once per occurrence in the batch when the batch
    publish returns.  It returns unless [mkdir] raises in the
    dead-letter save of another event; the events after that one are not
    sent, and the event has been sent once for each occurrence before
    it. *)
Theorem acknowledged_event_is_sent_once topic events e w :
  (∀ h, broker h (msg_of' topic e) = true) →
  ∃ w' r calls dl,
    publish_events json_loads broker now_stamp dead_letter_dir disk (Some topic) events w
    = (w', r)
    ∧ w_calls w' = w_calls w ++ calls
    ∧ w_dead_letter w' = w_dead_letter w ++ dl
    ∧ (e ∉ map snd dl)
    ∧ (count_occ message_eq_dec calls (msg_of' topic e) ≤ count_occ event_eq_dec events e)%nat
    ∧ (∀ st, r = Ok st →
         count_occ message_eq_dec calls (msg_of' topic e) = count_occ event_eq_dec events e)
    ∧ ((∀ n, dead_letter_dir n = true) → ∃ st, r = Ok st).
Proof.
  intros He.
  destruct (publish_batch topic events (Stats 0 0 0) w)
    as (w' & r & calls & dl & k & Hrun & Hcalls & Hdl & _ & _ & _ & _ & _ & Hack & Hr & Hdir).
  destruct (Hack e He) as [Hc1 Hc2].
  exists w', r, calls, dl. split_and!; try done.
  - destruct events as [|x events]; [|exact Hrun].
    simpl in *. by injection Hrun as <- <-.
  - intros st ->. destruct Hr as (_ & _ & _ & _ & Hall). by apply Hall.
Qed.

(** X22. A dead-letter directory that cannot be made ends the batch
    publish.  In a batch whose first events the broker acknowledges,
    followed by one that it never acknowledges: when [mkdir] raises in
    the dead-letter save of that event the exception leaves
    [publish_events]; the events before it have been sent once each, the
    event itself four times, no dead letter has been written, and the
    events after it are not sent. *)
Theorem mkdir_error_ends_the_batch topic pre e post w :
  (∀ x, x ∈ pre → ∀ h, broker h (msg_of' topic x) = true) →
  (∀ h, broker h (msg_of' topic e) = false) →
  dead_letter_dir (w_ticks w) = false →
  publish_events json_loads broker now_stamp dead_letter_dir disk (Some topic)
    (pre ++ e :: post) w
  = (World (w_calls w ++ map (msg_of' topic) pre ++ replicate 4 (msg_of' topic e))
       (w_sleeps w ++ [2; 4; 8]) (w_dead_letter w) (w_ticks w),
     Raise OSError).
Proof.
  intros Hpre He Hmk.
  assert (∀ st, publish_all' topic (pre ++ e :: post) st w
                = (World (w_calls w ++ map (msg_of' topic) pre ++ replicate 4 (msg_of' topic e))
                     (w_sleeps w ++ [2; 4; 8]) (w_dead_letter w) (w_ticks w),
                   Raise OSError)) as Hrun.
  { revert w Hmk. induction pre as [|x pre IH]; intros w Hmk st.
    - cbn [app map].
      rewrite (publish_each_cons json_loads broker now_stamp dead_letter_dir disk),
        (publish_one_unfold json_loads broker now_stamp dead_letter_dir disk),
        (publish_exhausted _ _ _ _ _ He).
      cbv iota beta.
      by rewrite (save_to_dead_letter_raises now_stamp dead_letter_dir disk).
    - cbn [app map].
      rewrite (publish_each_cons json_loads broker now_stamp dead_letter_dir disk),
        (publish_one_unfold json_loads broker now_stamp dead_letter_dir disk),
        (publish_acknowledged topic x 0 w) by (apply Hpre; left).
      cbv iota beta. rewrite IH; [|intros y Hy; apply Hpre; by right|done].
      unfold record_call. cbn [w_calls w_sleeps w_dead_letter w_ticks].
      by rewrite <-app_assoc. }
  destruct pre; apply Hrun.
Qed.

End PublisherMore.

(** ** Event builder *)

Lemma str_app s t : str (s +:+ t) = str s ++ str t.
Proof.
  unfold str. induction s as [|a s IH]; [done|].
  rewrite string_app_cons. simpl. by rewrite IH.
Qed.

Lemma generate_event_id_inv cart x :
  generate_event_id cart = Ok x →
  ∃ cid d sg, cart_id_of cart = Ok cid ∧ getitem cart "date" = Ok d
    ∧ calculate_products_signature (cart_products cart) = Ok sg
    ∧ x = "cart_" +:+ cid +:+ "_" +:+ event_hash cid d sg.
Proof.
  unfold generate_event_id, mbind, result_bind.
  destruct (cart_id_of cart) as [cid|]; [|done].
  destruct (getitem cart "date") as [d|]; [|done].
  destruct (calculate_products_signature _) as [sg|]; [|done].
  intros [= <-]. by eexists _, _, _.
Qed.

(** X7. An [event_id] names its cart: two carts whose events carry the
    same [event_id] have the same id (as [str] prints it), and the same
    12 characters of hash. *)
Theorem event_id_names_its_cart now1 now2 c1 c2 t1 t2 ex1 ex2 run1 run2 e1 e2 :
  create_event now1 c1 t1 ex1 run1 = Ok e1 →
  create_event now2 c2 t2 ex2 run2 = Ok e2 →
  event_id e1 = event_id e2 →
  cart_id_of c1 = cart_id_of c2
  ∧ ∃ cid h, cart_id_of c1 = Ok cid ∧ length (str h) = 12%nat
             ∧ event_id e1 = "cart_" +:+ cid +:+ "_" +:+ h.
Proof.
  intros H1 H2 Heq.
  apply create_event_inv in H1 as [H1 _], H2 as [H2 _].
  apply generate_event_id_inv in H1 as (cid1 & d1 & sg1 & Hc1 & _ & _ & Hx1).
  apply generate_event_id_inv in H2 as (cid2 & d2 & sg2 & Hc2 & _ & _ & Hx2).
  pose proof (proj1 (event_hash_chars cid1 d1 sg1)) as Hl1.
  pose proof (proj1 (event_hash_chars cid2 d2 sg2)) as Hl2.
  assert (cid1 = cid2) as ->.
  { rewrite Hx1, Hx2 in Heq. apply (f_equal str) in Heq.
    rewrite !str_app in Heq. apply app_inv_head in Heq.
    rewrite !app_assoc in Heq. apply app_inj_2 in Heq as [Heq _]; [|congruence].
    apply app_inj_2 in Heq as [Heq _]; [|done]. by apply str_inj. }
  split; [congruence|]. by exists cid2, (event_hash cid2 d1 sg1).
Qed.

(** ** Canonicalizer: what it raises *)

Lemma keyed_missing_product_id l :
  Forall (λ p, ∃ m, p = JDict m) l →
  (∃ m, JDict m ∈ l ∧ dict_get "productId" m = None) →
  rmapM keyed_by_product_id l = Raise (KeyError "productId").
Proof.
  induction 1 as [|p l [m ->] _ IH]; intros (m' & Hin & Hm').
  - by apply elem_of_nil in Hin.
  - cbn [rmapM]. unfold keyed_by_product_id, mbind, result_bind in *.
    cbn [subscript]. unfold getitem.
    destruct (dict_get "productId" m) as [k|] eqn:Hk; [|done].
    apply elem_of_cons in Hin as [[= ->]|Hin]; [congruence|].
    by rewrite IH by eauto.
Qed.

(** X9. A products list of dicts one of which has no [productId] has no
    signature: [KeyError] is raised for [productId], whatever the other
    items are, since [sorted] computes every key before it compares
    any. *)
Theorem signature_raises_key_error l :
  Forall (λ p, ∃ m, p = JDict m) l →
  (∃ m, JDict m ∈ l ∧ dict_get "productId" m = None) →
  calculate_products_signature (JList l) = Raise (KeyError "productId").
Proof.
  intros Hd Hm. unfold calculate_products_signature, sorted_by_product_id.
  unfold mbind, result_bind. simpl. by rewrite keyed_missing_product_id.
Qed.

(** What [<] can compare is of one kind. *)
Lemma py_lt_ok_kind a b r :
  py_lt a b = Ok r → key_kind a = key_kind b ∧ key_kind a ≠ 0%nat.
Proof. destruct a as [|[]| | | |], b as [|[]| | | |]; try done; by intros _. Qed.

Lemma py_lt_raises a b e : py_lt a b = Raise e → e = TypeError.
Proof.
  revert b. induction a as [|[]|z|s|l IH|m IH] using json_ind'; intros b;
    destruct b as [|[]| | |l'|]; try (simpl; congruence).
  revert l'. induction IH as [|x l Hx _ IHl]; intros [|y l']; try done.
  rewrite py_lt_cons. destruct (py_eq x y); [apply IHl|apply Hx].
Qed.

Lemma insert_keyed_raises x l e : insert_keyed x l = Raise e → e = TypeError.
Proof.
  induction l as [|y l IH]; simpl; [done|]. unfold mbind, result_bind.
  destruct (py_lt y.1 x.1) as [[]|e'] eqn:Hlt.
  - destruct (insert_keyed x l); [done|]. intros [= <-]. by apply IH.
  - done.
  - intros [= <-]. by eapply py_lt_raises.
Qed.

Lemma sort_keyed_raises l e : sort_keyed l = Raise e → e = TypeError.
Proof.
  induction l as [|x l IH]; simpl; [done|]. unfold mbind, result_bind.
  destruct (sort_keyed l) as [r|e'].
  - apply insert_keyed_raises.
  - intros [= <-]. by apply IH.
Qed.

(** A decorated list of two or more items that [sorted] can sort has
    keys of one kind: integers, strings or lists. *)
Lemma sort_keyed_one_kind l r :
  sort_keyed l = Ok r →
  (length l ≤ 1)%nat
  ∨ ∃ c, c ≠ 0%nat ∧ Forall (λ x, key_kind x.1 = c) l.
Proof.
  revert r. induction l as [|x l IH]; intros r; simpl; [left; lia|].
  unfold mbind, result_bind. destruct (sort_keyed l) as [r'|] eqn:Hs; [|done].
  intros Hins. pose proof (sort_keyed_sort_by _ _ Hs) as ->.
  destruct l as [|y0 l]; [left; simpl; lia|]. right.
  pose proof (sort_by_perm key_ltb (y0 :: l)) as Hp.
  destruct (sort_by key_ltb (y0 :: l)) as [|y r'] eqn:Hr.
  { by apply Permutation_nil_cons in Hp. }
  simpl in Hins. unfold mbind, result_bind in Hins.
  destruct (py_lt y.1 x.1) as [b|] eqn:Hlt; [|done].
  apply py_lt_ok_kind in Hlt as [Hc Hn].
  assert (y ∈ y0 :: l) as Hy by (rewrite <-Hp; left).
  destruct (IH _ eq_refl) as [Hlen|(c & Hc0 & Hall)].
  - simpl in Hlen. destruct l; [|simpl in Hlen; lia].
    apply list_elem_of_singleton in Hy as ->.
    exists (key_kind y0.1). split; [done|]. by repeat constructor.
  - exists c. split; [done|]. constructor; [|done].
    rewrite Forall_forall in Hall. rewrite <-Hc. by apply Hall.
Qed.

Lemma key_class_kind v : key_class v ≠ 0%nat → key_kind v = key_class v.
Proof. by destruct v. Qed.

(** X10. Product ids of mixed types cannot be ordered: when every item has
    a [productId], one of them an integer and another one a string, the
    signature raises [TypeError]. *)
Theorem signature_raises_type_error l ks a b :
  rmapM (λ p, subscript p "productId") l = Ok ks →
  a ∈ ks → b ∈ ks → key_class a = 1%nat → key_class b = 2%nat →
  calculate_products_signature (JList l) = Raise TypeError.
Proof.
  intros Hks Ha Hb Hca Hcb.
  assert (∃ dl, rmapM keyed_by_product_id l = Ok dl ∧ map fst dl = ks) as (dl & Hdl & Hfst).
  { clear Ha Hb. revert ks Hks. induction l as [|p l IH]; intros ks; cbn [rmapM].
    - intros [= <-]. by exists [].
    - unfold keyed_by_product_id, mbind, result_bind in *.
      destruct (subscript p "productId") as [k|]; [|done].
      destruct (rmapM (λ p, subscript p "productId") l) as [ks'|]; [|done].
      intros [= <-]. destruct (IH _ eq_refl) as (dl & -> & <-). by eexists. }
  unfold calculate_products_signature, sorted_by_product_id, mbind, result_bind. simpl.
  rewrite Hdl.
  destruct (sort_keyed dl) as [r|e] eqn:Hs; [|by rewrite (sort_keyed_raises _ _ Hs)].
  exfalso. subst ks.
  apply list_elem_of_fmap in Ha as (xa & -> & Hxa), Hb as (xb & -> & Hxb).
  rewrite <-key_class_kind in Hca by (by rewrite Hca).
  rewrite <-key_class_kind in Hcb by (by rewrite Hcb).
  destruct (sort_keyed_one_kind _ _ Hs) as [Hlen|(c & _ & Hall)].
  - destruct dl as [|x [|y dl]]; simpl in Hlen; try lia.
    + by apply elem_of_nil in Hxa.
    + apply list_elem_of_singleton in Hxa, Hxb. congruence.
  - rewrite Forall_forall in Hall. rewrite (Hall _ Hxa) in Hca. rewrite (Hall _ Hxb) in Hcb.
    congruence.
Qed.

(** ** The payload of an event *)

Section PlainDecoding.
Local Arguments encode_basestring_ascii : simpl never.
Local Arguments int_repr : simpl never.

Lemma plain_dumps_list l :
  dumps false (JList l) = "["%char :: join item_sep (map (dumps false) l) ++ ["]"%char].
Proof. done. Qed.

Lemma plain_dumps_dict m :
  dumps false (JDict m)
  = "{"%char
    :: join item_sep (map encode_item (map (λ kv, (kv.1, dumps false kv.2)) m)) ++ ["}"%char].
Proof. simpl. do 4 f_equal. apply map_ext. by intros []. Qed.

Lemma plain_item_splits k v :
  (∀ v2 r1 r2, terminated r1 → terminated r2 →
     dumps false v ++ r1 = dumps false v2 ++ r2 → dumps false v = dumps false v2 ∧ r1 = r2) →
  splits encode_item (λ y, ∃ v2, snd y = dumps false v2) (k, dumps false v).
Proof.
  intros IH [k' s'] r1 r2 [v2 Hv2] T1 T2 H. simpl in Hv2. subst s'.
  unfold encode_item in *. cbn [fst snd] in *. rewrite <-!app_assoc in H.
  apply encode_basestring_ascii_inj in H as [-> H].
  apply app_inv_head in H. by destruct (IH _ _ _ T1 T2 H) as [-> ->].
Qed.

(** Where a serialization without sorted keys ends. *)
Lemma plain_dumps_splits v1 : ∀ v2 r1 r2,
  terminated r1 → terminated r2 →
  dumps false v1 ++ r1 = dumps false v2 ++ r2 →
  dumps false v1 = dumps false v2 ∧ r1 = r2.
Proof.
  induction v1 as [|b1|z1|s1|l1 IH|m1 IH] using json_ind'; intros v2 r1 r2 T1 T2 H.
  all: assert (kind v2 = kind _) as Hk
    by (eapply head_is_eq; [apply head_is_app, (dumps_head false v2)
                           |rewrite <-H; apply head_is_app, dumps_head]).
  - destruct v2 as [|[]| | | |]; try done. by apply app_inv_head in H.
  - destruct v2 as [|b2| | | |]; try (by destruct b1).
    destruct b1, b2; try done; by apply app_inv_head in H.
  - destruct v2 as [|[]|z2| | |]; try done. simpl in *.
    by destruct (span_unique is_int_char _ _ _ _ (int_repr_chars z1) (int_repr_chars z2)
                   (terminated_not_int _ T1) (terminated_not_int _ T2) H) as [-> ->].
  - destruct v2 as [|[]| |s2| |]; try done. simpl in *.
    by apply encode_basestring_ascii_inj in H as [-> ->].
  - destruct v2 as [|[]| | |l2|]; try done. rewrite !plain_dumps_list in *.
    simpl in H. injection H as H. rewrite <-!app_assoc in H. simpl in H.
    apply (join_decode (dumps false) (λ _, True)) in H as [-> ->]; try done.
    + intros x. exists (kind x). split; [by destruct x as [|[]| | | |]|apply dumps_head].
    + eapply Forall_impl; [apply IH|]. intros x Hx y r1' r2' _. apply Hx.
    + by apply Forall_true.
  - destruct v2 as [|[]| | | |m2]; try done. rewrite !plain_dumps_dict in *.
    simpl in H. injection H as H. rewrite <-!app_assoc in H. simpl in H.
    apply (join_decode encode_item (λ y, ∃ v2, snd y = dumps false v2)) in H as [-> ->];
      try done.
    + apply encode_item_head.
    + apply Forall_fmap.
      eapply Forall_impl; [apply IH|]. intros [k x] Hx. by apply plain_item_splits.
    + apply Forall_fmap, Forall_true. intros [k x]. by exists x.
Qed.

(** [json.dumps] without sorted keys loses nothing: the value can be
    read off its serialization. *)
Lemma plain_dumps_inj v1 : ∀ v2, dumps false v1 = dumps false v2 → v1 = v2.
Proof.
  induction v1 as [|b1|z1|s1|l1 IH|m1 IH] using json_ind'; intros v2 H.
  all: assert (kind v2 = kind _) as Hk
    by (eapply head_is_eq; [apply (dumps_head false v2)|rewrite <-H; apply dumps_head]).
  - by destruct v2 as [|[]| | | |].
  - destruct v2 as [|b2| | | |]; try (by destruct b1). by destruct b1, b2.
  - destruct v2 as [|[]|z2| | |]; try done. simpl in H. by apply int_repr_inj in H as ->.
  - destruct v2 as [|[]| |s2| |]; try done. simpl in H.
    assert (encode_basestring_ascii s1 ++ [] = encode_basestring_ascii s2 ++ []) as H'
      by (by rewrite !app_nil_r).
    by apply encode_basestring_ascii_inj in H' as [-> _].
  - destruct v2 as [|[]| | |l2|]; try done. rewrite !plain_dumps_list in H.
    injection H as H.
    apply (join_decode (dumps false) (λ _, True)) in H as [H _]; try done.
    + f_equal. clear Hk. revert l2 H.
      induction IH as [|x l1 Hx _ IHl]; intros [|y l2] H; try done.
      injection H as H1 H2. f_equal; auto.
    + intros x. exists (kind x). split; [by destruct x as [|[]| | | |]|apply dumps_head].
    + apply Forall_true. intros x y r1 r2 _. apply plain_dumps_splits.
    + by apply Forall_true.
  - destruct v2 as [|[]| | | |m2]; try done. rewrite !plain_dumps_dict in H.
    injection H as H.
    apply (join_decode encode_item (λ y, ∃ v2, snd y = dumps false v2)) in H as [H _];
      try done.
    + f_equal. clear Hk. revert m2 H.
      induction IH as [|[k x] m1 Hx _ IHm]; intros [|[k' y] m2] H; try done.
      rewrite !map_cons in H. cbn [fst snd] in H.
      assert (encode_item (k, dumps false x) = encode_item (k', dumps false y)
              ∧ map encode_item (map (λ kv, (kv.1, dumps false kv.2)) m1)
                = map encode_item (map (λ kv, (kv.1, dumps false kv.2)) m2)) as [H1 H2]
        by (split; congruence).
      unfold encode_item in H1. cbn [fst snd] in H1.
      assert (encode_basestring_ascii k ++ key_sep ++ dumps false x ++ []
              = encode_basestring_ascii k' ++ key_sep ++ dumps false y ++ []) as H1'
        by (by rewrite !app_nil_r).
      apply encode_basestring_ascii_inj in H1' as [-> H1'].
      apply app_inv_head in H1'. rewrite !app_nil_r in H1'.
      simpl in Hx. rewrite (Hx _ H1'). f_equal. by apply IHm.
    + apply encode_item_head.
    + apply Forall_fmap, Forall_true.
      intros [k x]. apply plain_item_splits. apply plain_dumps_splits.
    + apply Forall_fmap, Forall_true. intros [k x]. by exists x.
Qed.

End PlainDecoding.

(** X11. The payload of an event loses nothing of what it is built from:
    two events with the same [data] string come from carts with the same
    [id], [userId], [date] and products, and the same [__v] (0 when
    absent). *)
Theorem event_payload_is_lossless now1 now2 c1 c2 t1 t2 ex1 ex2 run1 run2 e1 e2 :
  create_event now1 c1 t1 ex1 run1 = Ok e1 →
  create_event now2 c2 t2 ex2 run2 = Ok e2 →
  data e1 = data e2 →
  dict_get "id" c1 = dict_get "id" c2
  ∧ dict_get "userId" c1 = dict_get "userId" c2
  ∧ dict_get "date" c1 = dict_get "date" c2
  ∧ cart_products c1 = cart_products c2
  ∧ dict_get_default c1 "__v" (JInt 0) = dict_get_default c2 "__v" (JInt 0).
Proof.
  unfold create_event, mbind, result_bind, getitem.
  destruct (generate_event_id c1); [|done]. destruct (generate_event_id c2); [|done].
  destruct (dict_get "id" c1) as [v1|]; [|done].
  destruct (dict_get "userId" c1) as [u1|]; [|done].
  destruct (dict_get "date" c1) as [d1|]; [|done].
  destruct (dict_get "id" c2) as [v2|]; [|done].
  destruct (dict_get "userId" c2) as [u2|]; [|done].
  destruct (dict_get "date" c2) as [d2|]; [|done].
  intros [= <-] [= <-]. cbn [data]. unfold json_dumps.
  intros H%unstr_inj%plain_dumps_inj. injection H as -> -> -> -> ->. done.
Qed.

(** ** Event generation *)


Section GeneratorFacts.
Variable clock : nat → string.




End GeneratorFacts.

(** ** Change detector: classification *)

Lemma for_each_ok_inv {S X} (body : X → M S unit) x l s s' :
  for_each body (x :: l) s = (s', Ok tt) →
  ∃ s1, body x s = (s1, Ok tt) ∧ for_each body l s1 = (s', Ok tt).
Proof.
  simpl. unfold mbind, M_bind. destruct (body x s) as [s1 [[]|e]]; [|done]. by exists s1.
Qed.

Lemma snapshot_cart_inv c f f' :
  snapshot_cart c f = (f', Ok tt) →
  f_new f' = f_new f ++ [c] ∧ f_modified f' = f_modified f
  ∧ f_deleted f' = f_deleted f ∧ f_unchanged f' = f_unchanged f.
Proof.
  unfold snapshot_cart. mstep.
  destruct (cart_id_of c); [|done]. destruct (getitem c "date"); [|done].
  destruct (getitem c "userId"); [|done]. by intros [= <-].
Qed.

Lemma delete_cart_inv now k f f' :
  delete_cart now k f = (f', Ok tt) →
  f_new f' = f_new f ∧ f_modified f' = f_modified f ∧ f_unchanged f' = f_unchanged f
  ∧ length (f_deleted f') = S (length (f_deleted f)).
Proof.
  unfold delete_cart, stored, datetime_now_isoformat. mstep.
  destruct (f_carts f !! k) as [e|]; [|done].
  destruct (getitem e "userId"); [|done]. simpl.
  destruct (getitem e "products"); [|done]. intros [= <-]. simpl.
  split_and!; try done. rewrite length_app. simpl. lia.
Qed.

(** Where one step of the upsert loop puts its cart. *)
Lemma upsert_cart_inv c f f' :
  upsert_cart c f = (f', Ok tt) →
  f_deleted f' = f_deleted f
  ∧ ((f_new f' = f_new f ++ [c] ∧ f_modified f' = f_modified f
      ∧ f_unchanged f' = f_unchanged f)
     ∨ (f_new f' = f_new f ∧ f_modified f' = f_modified f ++ [c]
        ∧ f_unchanged f' = f_unchanged f)
     ∨ (f_new f' = f_new f ∧ f_modified f' = f_modified f
        ∧ f_unchanged f' = f_unchanged f ++ [c])).
Proof.
  unfold upsert_cart. mstep.
  destruct (cart_id_of c) as [cid|]; [|done]. destruct (getitem c "date") as [d|]; [|done].
  destruct (f_carts f !! cid) as [e|].
  - destruct (getitem e "date") as [od|]; [|done].
    destruct (products_have_changed _ _) as [changed|]; [|done].
    destruct (negb (py_eq od d) || changed); intros [= <-]; simpl;
      (split; [done|]); [right; left|right; right]; done.
  - simpl. destruct (getitem c "userId"); [|done]. intros [= <-]. simpl.
    split; [done|]. by left.
Qed.

Lemma cold_loop_inv l : ∀ f f',
  for_each snapshot_cart l f = (f', Ok tt) →
  f_new f' = f_new f ++ l ∧ f_modified f' = f_modified f
  ∧ f_deleted f' = f_deleted f ∧ f_unchanged f' = f_unchanged f.
Proof.
  induction l as [|c l IH]; intros f f' H.
  - injection H as <-. by rewrite app_nil_r.
  - apply for_each_ok_inv in H as (f1 & H1 & H).
    apply snapshot_cart_inv in H1 as (E1 & E2 & E3 & E4).
    apply IH in H as (-> & -> & -> & ->). rewrite E1, E2, E3, E4. by rewrite <-app_assoc.
Qed.

Lemma delete_loop_inv now l : ∀ f f',
  for_each (delete_cart now) l f = (f', Ok tt) →
  f_new f' = f_new f ∧ f_modified f' = f_modified f ∧ f_unchanged f' = f_unchanged f
  ∧ length (f_deleted f') = (length (f_deleted f) + length l)%nat.
Proof.
  induction l as [|k l IH]; intros f f' H.
  - injection H as <-. simpl. split_and!; try done; lia.
  - apply for_each_ok_inv in H as (f1 & H1 & H).
    apply delete_cart_inv in H1 as (E1 & E2 & E3 & Hlen).
    apply IH in H as (-> & -> & -> & ->). rewrite E1, E2, E3.
    split_and!; try done. simpl. lia.
Qed.

Lemma upsert_loop_inv l : ∀ f f',
  for_each upsert_cart l f = (f', Ok tt) →
  f_deleted f' = f_deleted f
  ∧ ∃ ln lm lu,
      f_new f' = f_new f ++ ln ∧ f_modified f' = f_modified f ++ lm
      ∧ f_unchanged f' = f_unchanged f ++ lu
      ∧ ln ++ lm ++ lu ≡ₚ l
      ∧ ln `sublist_of` l ∧ lm `sublist_of` l ∧ lu `sublist_of` l.
Proof.
  induction l as [|c l IH]; intros f f' H.
  - injection H as <-. split; [done|]. exists [], [], []. by rewrite !app_nil_r.
  - apply for_each_ok_inv in H as (f1 & H1 & H).
    apply upsert_cart_inv in H1 as (Hd & Hcase).
    apply IH in H as (Hd' & ln & lm & lu & Hn & Hm & Hu & Hp & Hsn & Hsm & Hsu).
    split; [congruence|].
    destruct Hcase as [(En & Em & Eu)|[(En & Em & Eu)|(En & Em & Eu)]];
      rewrite En in Hn; rewrite Em in Hm; rewrite Eu in Hu.
    + exists (c :: ln), lm, lu. rewrite Hn, Hm, Hu, <-!app_assoc. simpl.
      split_and!; try done; [by rewrite Hp|by apply sublist_skip|
                              by apply sublist_cons|by apply sublist_cons].
    + exists ln, (c :: lm), lu. rewrite Hn, Hm, Hu, <-!app_assoc. simpl.
      split_and!; try done; [by rewrite <-Permutation_middle, Hp|by apply sublist_cons|
                              by apply sublist_skip|by apply sublist_cons].
    + exists ln, lm, (c :: lu). rewrite Hn, Hm, Hu, <-!app_assoc. simpl.
      split_and!; try done; [|by apply sublist_cons|by apply sublist_cons|
                              by apply sublist_skip].
      rewrite app_assoc, <-Permutation_middle, <-app_assoc. by rewrite Hp.
Qed.

(** The lists of a detection that started with empty lists. *)
Lemma detect_inv now_iso set_iter cold api f f' ch :
  detect now_iso set_iter cold api f = (f', Ok ch) →
  f_new f = [] → f_modified f = [] → f_unchanged f = [] →
  is_cold_start ch = cold
  ∧ new_carts ch ++ modified_carts ch ++ unchanged_carts ch ≡ₚ api
  ∧ new_carts ch `sublist_of` api ∧ modified_carts ch `sublist_of` api
  ∧ unchanged_carts ch `sublist_of` api
  ∧ (cold = true → new_carts ch = api ∧ deleted_carts ch = []).
Proof.
  intros Hdet En Em Eu. unfold detect in Hdet. revert Hdet. mstep.
  destruct (rmapM cart_id_of api) as [ids|]; [|done].
  destruct cold.
  - destruct (for_each snapshot_cart api _) as [f1 [[]|]] eqn:Hloop; [|done].
    intros [= <- <-]. apply cold_loop_inv in Hloop as (Hn & _). simpl.
    rewrite Hn, En, app_nil_r. split_and!; try done; apply sublist_nil_l.
  - destruct (for_each (delete_cart now_iso) _ _) as [f1 [[]|]] eqn:Hdel; [|done].
    destruct (for_each upsert_cart api f1) as [f2 [[]|]] eqn:Hup; [|done].
    intros [= <- <-]. simpl.
    apply delete_loop_inv in Hdel as (Hn & Hm & Hu & _).
    apply upsert_loop_inv in Hup as (_ & ln & lm & lu & Hn' & Hm' & Hu' & Hp & Hs).
    rewrite Hn, En in Hn'. rewrite Hm, Em in Hm'. rewrite Hu, Eu in Hu'. simpl in *.
    rewrite Hn', Hm', Hu'. destruct Hs as (Hs1 & Hs2 & Hs3). by split_and!.
Qed.

(** X13. Whenever the detector returns, it has put every fetched record
    in exactly one of the lists new, modified and unchanged, each list in
    the order of the fetch; on a cold start all of them in new, and none
    in deleted. *)
Theorem detection_partitions_the_fetch now_iso set_iter st api st' ch :
  compare_and_detect_changes now_iso set_iter st api = (st', Ok ch) →
  is_cold_start ch = is_cold st
  ∧ new_carts ch ++ modified_carts ch ++ unchanged_carts ch ≡ₚ api
  ∧ new_carts ch `sublist_of` api ∧ modified_carts ch `sublist_of` api
  ∧ unchanged_carts ch `sublist_of` api
  ∧ (is_cold st = true → new_carts ch = api ∧ deleted_carts ch = []).
Proof.
  unfold compare_and_detect_changes. fold (is_cold st).
  destruct (detect _ _ _ _ _) as [f r] eqn:Hdet. intros [= <- ->].
  by apply detect_inv in Hdet.
Qed.

(** ** Change detector: a second look at the same fetch *)

(** [==] holds between a value and itself. *)
Lemma py_eq_refl v : wf_json v = true → py_eq v v = true.
Proof.
  induction v as [| [] | | |l IH|m IH] using json_ind'; intros Hwf; try done.
  - simpl. apply Z.eqb_refl.
  - simpl. apply String.eqb_refl.
  - apply wf_json_list in Hwf. simpl.
    induction IH as [|x l Hx _ IHl]; [done|].
    apply Forall_cons in Hwf as [Hwx Hwl]. rewrite Hx by done. simpl. by apply IHl.
  - apply wf_json_dict in Hwf as [Hnd Hwf]. simpl. rewrite Nat.eqb_refl. simpl.
    assert (∀ r, r ⊆ m → Forall (λ kv, wf_json kv.2 = true → py_eq kv.2 kv.2 = true) r →
              (fix go (m0 : jdict) : bool :=
                 match m0 with
                 | [] => true
                 | (k, x) :: r0 =>
                     match dict_get k m with
                     | Some y => py_eq x y && go r0
                     | None => false
                     end
                 end) r = true) as Hgo.
    { intros r Hsub Hr. induction Hr as [|[k x] r Hx _ IHr]; [done|].
      assert ((k, x) ∈ m) as Hin by (apply Hsub; left).
      rewrite (proj2 (dict_get_elem_of k x m Hnd) Hin).
      rewrite Forall_forall in Hwf. simpl in Hx. rewrite Hx by apply (Hwf _ Hin). simpl.
      apply IHr. intros y Hy. apply Hsub. by right. }
    by apply Hgo.
Qed.

Lemma products_unchanged p s :
  calculate_products_signature p = Ok s → products_have_changed p p = Ok false.
Proof.
  intros H. rewrite (products_have_changed_ok _ _ _ _ H H). by rewrite String.eqb_refl.
Qed.

Lemma cart_ok_fields c :
  cart_ok c = true →
  ∃ cid d u sg, cart_id_of c = Ok cid ∧ getitem c "date" = Ok d ∧ getitem c "userId" = Ok u
    ∧ calculate_products_signature (cart_products c) = Ok sg.
Proof.
  unfold cart_ok. rewrite !andb_true_iff.
  intros [[[[cid Hid]%is_ok_true [d Hd]%is_ok_true] [u Hu]%is_ok_true] [sg Hsg]%is_ok_true].
  by exists cid, d, u, sg.
Qed.

Lemma entry_ok_fields e :
  entry_ok e = true →
  ∃ d u p sg, getitem e "date" = Ok d ∧ getitem e "userId" = Ok u
    ∧ getitem e "products" = Ok p
    ∧ calculate_products_signature (cart_products e) = Ok sg.
Proof.
  unfold entry_ok. rewrite !andb_true_iff.
  intros [[[[d Hd]%is_ok_true [u Hu]%is_ok_true] [p Hp]%is_ok_true] [sg Hsg]%is_ok_true].
  by exists d, u, p, sg.
Qed.

(** The entry written for a new cart. *)
Lemma projection_settled c d u :
  cart_ok c = true → wf_json (JDict c) = true →
  getitem c "date" = Ok d → getitem c "userId" = Ok u →
  settled c (projection d u c) ∧ entry_ok (projection d u c) = true.
Proof.
  intros Hok Hwf Hd Hu. destruct (cart_ok_fields c Hok) as (cid & d' & u' & sg & _ & _ & _ & Hsg).
  assert (cart_products (projection d u c) = cart_products c) as Hp by done.
  split.
  - exists d, d. split_and!; try done.
    + apply py_eq_refl. by eapply getitem_wf.
    + rewrite Hp. by eapply products_unchanged.
  - unfold entry_ok. rewrite Hp, Hsg. done.
Qed.

(** The entry of a modified cart. *)
Lemma modified_settled c e d :
  cart_ok c = true → wf_json (JDict c) = true → entry_ok e = true →
  getitem c "date" = Ok d →
  settled c (dict_set "products" (cart_products c) (dict_set "date" d e))
  ∧ entry_ok (dict_set "products" (cart_products c) (dict_set "date" d e)) = true.
Proof.
  intros Hok Hwf He Hd.
  destruct (cart_ok_fields c Hok) as (cid & d' & u' & sg & _ & _ & _ & Hsg).
  destruct (entry_ok_fields e He) as (od & u & p & sg' & _ & Hu%getitem_is_Some & _).
  set (e' := dict_set _ _ _).
  assert (dict_get "date" e' = Some d) as Hd'.
  { unfold e'. by rewrite dict_get_set_ne, dict_get_set_eq. }
  assert (dict_get "products" e' = Some (cart_products c)) as Hp'.
  { unfold e'. by rewrite dict_get_set_eq. }
  assert (dict_get "userId" e' = Some u) as Hu'.
  { unfold e'. by rewrite !dict_get_set_ne. }
  assert (cart_products e' = cart_products c) as Hp.
  { unfold cart_products at 1, dict_get_default. by rewrite Hp'. }
  split.
  - exists d, d. unfold getitem. rewrite Hd'. split_and!; try done.
    + apply py_eq_refl. by eapply getitem_wf.
    + rewrite Hp. by eapply products_unchanged.
  - unfold entry_ok, getitem. rewrite Hd', Hp', Hu', Hp, Hsg. done.
Qed.

(** The upsert loop over records that are all settled. *)
Lemma settled_loop l : ∀ ids f,
  rmapM cart_id_of l = Ok ids →
  (∀ i c cid, l !! i = Some c → ids !! i = Some cid →
     ∃ e, f_carts f !! cid = Some e ∧ settled c e) →
  for_each upsert_cart l f
  = (Frame (f_carts f) (f_new f) (f_modified f) (f_deleted f) (f_unchanged f ++ l)
       (f_ticks f), Ok tt).
Proof.
  induction l as [|c l IH]; intros ids f Hids Hall.
  - simpl. rewrite app_nil_r. by destruct f.
  - apply rmapM_cons_inv in Hids as (cid & ids' & Hcid & Hids' & ->).
    destruct (Hall 0%nat c cid eq_refl eq_refl) as (e & He & d & od & Hd & Hod & Heq & Hch).
    rewrite (for_each_cons _ _ _ _ (append_unchanged c f)).
    + rewrite (IH ids'); [|done|].
      * simpl. by rewrite <-app_assoc.
      * intros i c' cid' Hi Hi'. apply (Hall (S i) c' cid' Hi Hi').
    + rewrite (upsert_known c cid d e od false f Hcid Hd He Hod Hch). by rewrite Heq.
Qed.

(** A warm detection on a snapshot that holds exactly the fetched ids,
    each with an entry that its record is settled against. *)
Lemma settled_detection now_iso set_iter st api ids :
  (∀ X, set_iter X ≡ₚ elements X) →
  last_update (meta st) ≠ None →
  rmapM cart_id_of api = Ok ids →
  dom (carts st) = list_to_set ids →
  (∀ i c cid, api !! i = Some c → ids !! i = Some cid →
     ∃ e, carts st !! cid = Some e ∧ settled c e) →
  compare_and_detect_changes now_iso set_iter st api
  = (st, Ok (Changes [] [] [] api false)).
Proof.
  intros set_iter_perm Hwarm Hids Hdom Hall.
  unfold compare_and_detect_changes.
  destruct (last_update (meta st)) eqn:Hlu; [|done].
  unfold detect. mstep. rewrite Hids. simpl.
  assert (set_iter (dom (carts st) ∖ list_to_set ids) = []) as ->.
  { apply Permutation_nil_r. rewrite set_iter_perm, Hdom, difference_diag_L.
    by rewrite elements_empty. }
  simpl. rewrite (settled_loop api ids); [|done|done]. simpl. by destruct st.
Qed.

Section SecondLook.
Variable now_iso now_iso' : nat → string.
Variable set_iter : gset string → list string.

(** X14. Cold start on a fetch in which ids may repeat: every record is
    classified created, repeats included, and the snapshot keeps for each
    id the date, userId and products of the last record that carries
    it. *)
Theorem cold_start_keeps_the_last_duplicate st api ids :
  last_update (meta st) = None →
  rmapM cart_id_of api = Ok ids →
  Forall (λ c, is_Some (dict_get "date" c) ∧ is_Some (dict_get "userId" c)) api →
  ∃ st', compare_and_detect_changes now_iso set_iter st api
         = (st', Ok (Changes api [] [] [] true))
    ∧ ∀ i c cid, api !! i = Some c → ids !! i = Some cid →
        (∀ j, (i < j)%nat → ids !! j ≠ Some cid) →
        ∃ d u, getitem c "date" = Ok d ∧ getitem c "userId" = Ok u
               ∧ carts st' !! cid = Some (projection d u c).
Proof.
  intros Hcold Hids Hwf.
  destruct (detect_cold now_iso set_iter api ids (Frame (carts st) [] [] [] [] 0) Hids Hwf)
    as (f' & Hdet & Hrun).
  exists (State (f_carts f') (meta st)). split.
  { unfold compare_and_detect_changes. by rewrite Hcold, Hdet. }
  clear Hdet Hcold. simpl. revert Hrun. generalize (Frame (carts st) [] [] [] [] 0).
  revert ids Hids Hwf. induction api as [|c0 api IH]; intros ids Hids Hwf f Hrun i c cid Hi Hi' Hlast.
  { by rewrite lookup_nil in Hi. }
  apply rmapM_cons_inv in Hids as (cid0 & ids' & Hcid0 & Hids' & ->).
  apply Forall_cons in Hwf as [[[d0 Hd0] [u0 Hu0]] Hwf].
  assert (getitem c0 "date" = Ok d0) as Hgd by (unfold getitem; by rewrite Hd0).
  assert (getitem c0 "userId" = Ok u0) as Hgu by (unfold getitem; by rewrite Hu0).
  pose proof (snapshot_cart_ok c0 cid0 d0 u0 f Hcid0 Hgd Hgu) as Hstep.
  rewrite (for_each_cons _ _ _ _ _ Hstep) in Hrun.
  destruct i as [|i]; simpl in Hi, Hi'.
  - injection Hi as <-. injection Hi' as <-.
    destruct (cold_loop api ids' (append_new c0 (set_carts <[cid0:=projection d0 u0 c0]> f))
                Hids' Hwf) as (f'' & Hrun' & _ & _ & _ & _ & _ & Hkeep & _).
    rewrite Hrun in Hrun'. injection Hrun' as <-.
    exists d0, u0. split_and!; try done. rewrite Hkeep.
    + simpl. apply lookup_insert_eq.
    + intros [j Hj]%list_elem_of_lookup. apply (Hlast (S j)); [lia|done].
  - apply (IH ids' Hids' Hwf _ Hrun i c cid Hi Hi').
    intros j Hj. apply (Hlast (S j)). lia.
Qed.

Hypothesis set_iter_perm : ∀ X, set_iter X ≡ₚ elements X.

(** X15. Warm poll: a fetched record whose id the snapshot does not hold
    is classified created, and the snapshot gets an entry for its id with
    its date, userId and products. *)
Theorem warm_poll_created st api ids :
  last_update (meta st) ≠ None →
  rmapM cart_id_of api = Ok ids → NoDup ids →
  Forall (λ c, cart_ok c = true) api →
  map_Forall (λ _ e, entry_ok e = true) (carts st) →
  ∃ st' ch, compare_and_detect_changes now_iso set_iter st api = (st', Ok ch)
    ∧ ∀ i c cid, api !! i = Some c → ids !! i = Some cid → carts st !! cid = None →
        c ∈ new_carts ch
        ∧ ∃ d u, getitem c "date" = Ok d ∧ getitem c "userId" = Ok u
                 ∧ carts st' !! cid = Some (projection d u c).
Proof.
  intros Hwarm Hids Hnd Hwf Hent.
  unfold compare_and_detect_changes.
  destruct (last_update (meta st)) eqn:Hlu; [|done].
  destruct (detect_warm now_iso set_iter set_iter_perm api ids
              (Frame (carts st) [] [] [] [] 0) Hids Hnd Hwf Hent)
    as (f1 & f2 & recs & _ & _ & Hdet & _ & _ & _ & _ & _ & Hall).
  rewrite Hdet. eexists _, _. split; [done|]. simpl.
  intros i c cid Hi Hi' Hnone.
  pose proof (Hall i c cid Hi Hi') as Hup. simpl in Hup. rewrite Hnone in Hup.
  destruct Hup as (Hnew & d & u & Hd & Hu & Hafter). split; [done|]. by exists d, u.
Qed.

(** What a detection leaves in the snapshot. *)
Lemma detection_settles st api ids :
  (last_update (meta st) = None → carts st = ∅) →
  rmapM cart_id_of api = Ok ids → NoDup ids →
  Forall (λ c, cart_ok c = true) api →
  Forall (λ c, wf_json (JDict c) = true) api →
  map_Forall (λ _ e, entry_ok e = true) (carts st) →
  ∃ st1 ch1, compare_and_detect_changes now_iso set_iter st api = (st1, Ok ch1)
    ∧ meta st1 = meta st
    ∧ dom (carts st1) = list_to_set ids
    ∧ ∀ i c cid, api !! i = Some c → ids !! i = Some cid →
        ∃ e, carts st1 !! cid = Some e ∧ settled c e ∧ entry_ok e = true.
Proof.
  intros Hinv Hids Hnd Hwf Hwfj Hent.
  assert (∀ i c, api !! i = Some c → cart_ok c = true ∧ wf_json (JDict c) = true) as Hc.
  { intros i c Hi. rewrite Forall_forall in Hwf, Hwfj.
    split; [apply Hwf|apply Hwfj]; by eapply list_elem_of_lookup_2. }
  unfold compare_and_detect_changes.
  destruct (last_update (meta st)) eqn:Hlu.
  - destruct (detect_warm now_iso set_iter set_iter_perm api ids
                (Frame (carts st) [] [] [] [] 0) Hids Hnd Hwf Hent)
      as (f1 & f2 & recs & _ & _ & Hdet & _ & _ & _ & _ & Hdom & Hall).
    rewrite Hdet. eexists _, _. split; [done|]. simpl. split; [done|]. split; [done|].
    intros i c cid Hi Hi'. destruct (Hc i c Hi) as [Hok Hj].
    pose proof (Hall i c cid Hi Hi') as Hup. simpl in Hup.
    destruct (carts st !! cid) as [e|] eqn:He.
    + destruct Hup as (d & od & changed & Hd & Hod & Hch & Hres).
      pose proof (Hent cid e He) as Heok. simpl in Heok.
      destruct (negb (py_eq od d) || changed) eqn:Hb.
      * destruct Hres as [_ ->]. eexists. split; [done|]. by apply modified_settled.
      * destruct Hres as [_ ->]. exists e. split; [done|]. split; [|done].
        apply orb_false_iff in Hb as [Hb1%negb_false_iff ->]. by exists d, od.
    + destruct Hup as (_ & d & u & Hd & Hu & ->). eexists. split; [done|].
      by apply projection_settled.
  - assert (Forall (λ c, is_Some (dict_get "date" c) ∧ is_Some (dict_get "userId" c)) api)
      as Hwf'.
    { eapply Forall_impl; [apply Hwf|]. intros c Hok.
      destruct (cart_ok_fields c Hok) as (cid & d & u & sg & _ & Hd & Hu & _).
      apply getitem_is_Some in Hd, Hu. by rewrite Hd, Hu. }
    destruct (detect_cold now_iso set_iter api ids (Frame (carts st) [] [] [] [] 0) Hids Hwf')
      as (f' & Hdet & Hrun).
    destruct (cold_loop api ids (Frame (carts st) [] [] [] [] 0) Hids Hwf')
      as (f'' & Hrun' & _ & _ & _ & _ & Hdom & _ & Hin).
    rewrite Hrun in Hrun'. injection Hrun' as <-.
    rewrite Hdet. eexists _, _. split; [done|]. simpl. split; [done|]. split.
    { rewrite Hdom. simpl. rewrite (Hinv eq_refl). set_solver. }
    intros i c cid Hi Hi'. destruct (Hc i c Hi) as [Hok Hj].
    destruct (Hin Hnd i c cid Hi Hi') as (d & u & Hd & Hu & ->).
    eexists. split; [done|]. by apply projection_settled.
Qed.

(** X16. Detection is idempotent.  After a detection on a well-formed
    fetch with unique ids and the save of the snapshot, a detection on the
    same fetch classifies every record unchanged, none created, modified
    or deleted, and leaves the snapshot as it is. *)
Theorem detection_is_idempotent st api ids now :
  (last_update (meta st) = None → carts st = ∅) →
  rmapM cart_id_of api = Ok ids → NoDup ids →
  Forall (λ c, cart_ok c = true) api →
  Forall (λ c, wf_json (JDict c) = true) api →
  map_Forall (λ _ e, entry_ok e = true) (carts st) →
  ∃ st1 ch1,
    compare_and_detect_changes now_iso set_iter st api = (st1, Ok ch1)
    ∧ compare_and_detect_changes now_iso' set_iter (touch_metadata now st1) api
      = (touch_metadata now st1, Ok (Changes [] [] [] api false)).
Proof.
  intros Hinv Hids Hnd Hwf Hwfj Hent.
  destruct (detection_settles st api ids Hinv Hids Hnd Hwf Hwfj Hent)
    as (st1 & ch1 & Hrun & _ & Hdom & Hall).
  exists st1, ch1. split; [done|].
  apply (settled_detection _ _ _ api ids); try done.
  intros i c cid Hi Hi'. destruct (Hall i c cid Hi Hi') as (e & He & Hs & _). by exists e.
Qed.

End SecondLook.

(** ** One turn of the polling loop *)



Section PollingLoopFacts.
Variable api : nat → response.
Variable set_iter : gset string → list string.
Variable clock : nat → string.
Variable json_loads : string → option json.
Variable broker : list message → message → bool.
Variable now_stamp : nat → string.
Variable dead_letter_dir : nat → bool.
Variable disk : string → bool.
Variable json_dump_state : state → string.

Abbreviation turn_of :=
  (poll_cycle api set_iter clock json_loads broker now_stamp dead_letter_dir disk
     json_dump_state).
Abbreviation publish_batch_of :=
  (publish_events json_loads broker now_stamp dead_letter_dir disk).



(** X17. A turn in which three requests in a row fail is skipped: the
    fetch gives up after sleeps of 2 and 4 seconds, no change is detected
    or published, the snapshot is neither changed nor saved, and the loop
    waits for the poll interval unless it has been told to stop. *)
Theorem failed_fetch_skips_the_turn publisher_config run interval t st o :
  (∀ j, (j < 3)%nat → api (n_requests (o_net o) + j)%nat = RequestException) →
  fetch_carts_from_api api (o_net o)
  = (Returned None, Net (n_requests (o_net o) + 3) (n_sleeps (o_net o) ++ [2; 4]))
  ∧ turn_of publisher_config run interval t st o
    = (st,
       Outside (Net (n_requests (o_net o) + 3) (n_sleeps (o_net o) ++ [2; 4]))
         (o_local o) (o_world o) (o_fs o)
         (if t_stop t then o_waits o else o_waits o ++ [interval]),
       Continues).
Proof.
  intros Hfail. pose proof (fetch_exhausted api (o_net o) Hfail) as Hfetch.
  split; [done|]. unfold poll_cycle. rewrite Hfetch.
  unfold wait_unless_stopped. by destruct (t_stop t).
Qed.

(** X18. A fetched record without an [id] ends the polling loop: the
    [KeyError] of the detector leaves the turn, and so [polling_loop],
    which has no handler.  Nothing is generated or published, and the
    snapshot is neither changed nor saved. *)
Theorem missing_id_ends_the_loop publisher_config run interval t st o got n' :
  fetch_carts_from_api api (o_net o) = (Returned (Some got), n') →
  (∃ c, c ∈ got ∧ dict_get "id" c = None) →
  turn_of publisher_config run interval t st o
  = (st, Outside n' (o_local o) (o_world o) (o_fs o) (o_waits o),
     Dies (Some (KeyError "id"))).
Proof.
  intros Hfetch Hbad. unfold poll_cycle. rewrite Hfetch.
  assert (compare_and_detect_changes (t_detect_clock t) set_iter st got
          = (st, Raise (KeyError "id"))) as ->.
  { unfold compare_and_detect_changes, detect. mstep.
    rewrite (api_ids_raise _ Hbad). by destruct st. }
  done.
Qed.

Hypothesis set_iter_perm : ∀ X, set_iter X ≡ₚ elements X.



End PollingLoopFacts.

(** X21. A lost snapshot replays the feed.  When the state file is
    missing, or holds what the handler of [load_state] catches (no JSON
    text, or a JSON object without [carts]), the run starts from an empty
    snapshot tagged with its run id, and the first detection classifies
    every fetched record created. *)
Theorem lost_snapshot_replays_the_feed json_load_state now_iso set_iter now run fs got ids :
  (∀ content, fs !! STATE_FILE = Some content → json_load_state content = Corrupted) →
  rmapM cart_id_of got = Ok ids →
  Forall (λ c, is_Some (dict_get "date" c) ∧ is_Some (dict_get "userId" c)) got →
  load_state json_load_state now fs = Loaded (create_empty_state now)
  ∧ start_run json_load_state now run fs = Some (State ∅ (Metadata now None 0 (Some run)))
  ∧ ∃ st', compare_and_detect_changes now_iso set_iter
             (State ∅ (Metadata now None 0 (Some run))) got
           = (st', Ok (Changes got [] [] [] true))
      ∧ dom (carts st') = list_to_set ids.
Proof.
  intros Hlost Hids Hwf.
  assert (load_state json_load_state now fs = Loaded (create_empty_state now)) as Hload.
  { unfold load_state. destruct (fs !! STATE_FILE) as [content|] eqn:Hf; [|done].
    by rewrite (Hlost content). }
  split; [done|]. split; [unfold start_run; by rewrite Hload|].
  destruct (detect_cold now_iso set_iter got ids (Frame ∅ [] [] [] [] 0) Hids Hwf)
    as (f' & Hdet & Hrun).
  destruct (cold_loop got ids (Frame ∅ [] [] [] [] 0) Hids Hwf)
    as (f'' & Hrun' & _ & _ & _ & _ & Hdom & _).
  rewrite Hrun in Hrun'. injection Hrun' as <-.
  exists (State (f_carts f') (Metadata now None 0 (Some run))). split.
  - unfold compare_and_detect_changes. cbn [meta last_update carts]. by rewrite Hdet.
  - simpl. rewrite Hdom. simpl. set_solver.
Qed.

(** A state file that makes [load_state] raise, or that holds a dict
    that is no snapshot, does not start a run. *)
Lemma unreadable_snapshot_stops_the_run json_load_state now run fs content :
  fs !! STATE_FILE = Some content →
  (json_load_state content = Uncaught →
   load_state json_load_state now fs = LoadRaised
   ∧ start_run json_load_state now run fs = None)
  ∧ (json_load_state content = Foreign →
     load_state json_load_state now fs = LoadedForeign
     ∧ start_run json_load_state now run fs = None).
Proof.
  intros Hf. unfold start_run, load_state. rewrite Hf. split; by intros ->.
Qed.

(** * The further theorems at work on sample data *)

(** Three failed requests. *)
Lemma failed_fetch_skips_the_turn_witness :
  poll_cycle (λ _, RequestException) elements (λ _, "c") (λ _, None) sample_broker
    (λ _, "ts") (λ _, true) sample_disk (λ _, "{}") (Some "topic") "run" 60 (sample_turn "t1")
    sample_state sample_outside
  = (sample_state,
     Outside (Net 3 [2; 4]) (Local [] 0) (World [] [] [] 0) ∅ [60], Continues).
Proof.
  exact (proj2 (failed_fetch_skips_the_turn (λ _, RequestException) elements (λ _, "c")
                  (λ _, None) sample_broker (λ _, "ts") (λ _, true) sample_disk (λ _, "{}")
                  (Some "topic") "run" 60
                  (sample_turn "t1") sample_state sample_outside (λ j _, eq_refl))).
Defined.

(** A line item without a product id, after one with. *)
Lemma signature_raises_key_error_witness :
  calculate_products_signature (JList [line_item 1 2; JDict [("quantity", JInt 1)]])
  = Raise (KeyError "productId").
Proof.
  apply (signature_raises_key_error [line_item 1 2; JDict [("quantity", JInt 1)]]).
  - repeat constructor; eexists; reflexivity.
  - exists [("quantity", JInt 1)]. split; [right; left|reflexivity].
Defined.

(** A product id that is a number and one that is a string. *)
Lemma signature_raises_type_error_witness :
  calculate_products_signature
    (JList [line_item 1 2; JDict [("productId", JStr "a")]])
  = Raise TypeError.
Proof.
  apply (signature_raises_type_error
           [line_item 1 2; JDict [("productId", JStr "a")]] [JInt 1; JStr "a"]
           (JInt 1) (JStr "a")).
  - reflexivity.
  - left.
  - right. left.
  - reflexivity.
  - reflexivity.
Defined.

(** Two carts with the same id, date and products, of different users. *)
Lemma event_id_names_its_cart_witness :
  ∃ e1 e2,
    create_event "t1" (sample_cart 1 3 "d1" [line_item 9 1]) "cart_created" "x1" "run" = Ok e1
    ∧ create_event "t2" (sample_cart 1 5 "d1" [line_item 9 1]) "cart_modified" "x2" "run"
      = Ok e2
    ∧ event_id e1 = event_id e2
    ∧ cart_id_of (sample_cart 1 3 "d1" [line_item 9 1])
      = cart_id_of (sample_cart 1 5 "d1" [line_item 9 1]).
Proof.
  destruct (create_event "t1" (sample_cart 1 3 "d1" [line_item 9 1]) "cart_created" "x1" "run")
    as [e1|] eqn:H1; [|vm_compute in H1; discriminate H1].
  destruct (create_event "t2" (sample_cart 1 5 "d1" [line_item 9 1]) "cart_modified" "x2" "run")
    as [e2|] eqn:H2; [|vm_compute in H2; discriminate H2].
  assert (event_id e1 = event_id e2) as Heq.
  { vm_compute in H1, H2. injection H1 as <-. injection H2 as <-. reflexivity. }
  exists e1, e2. split; [reflexivity|]. split; [reflexivity|]. split; [exact Heq|].
  exact (proj1 (event_id_names_its_cart _ _ _ _ _ _ _ _ _ _ e1 e2 H1 H2 Heq)).
Defined.

(** The events of one cart built at two times. *)
Lemma event_payload_is_lossless_witness :
  ∃ e1 e2,
    create_event "t1" (sample_cart 1 3 "d1" [line_item 9 1]) "cart_created" "x1" "run" = Ok e1
    ∧ create_event "t2" (sample_cart 1 3 "d1" [line_item 9 1]) "cart_created" "x2" "run" = Ok e2
    ∧ data e1 = data e2
    ∧ dict_get "userId" (sample_cart 1 3 "d1" [line_item 9 1])
      = dict_get "userId" (sample_cart 1 3 "d1" [line_item 9 1]).
Proof.
  destruct (create_event "t1" (sample_cart 1 3 "d1" [line_item 9 1]) "cart_created" "x1" "run")
    as [e1|] eqn:H1; [|vm_compute in H1; discriminate H1].
  destruct (create_event "t2" (sample_cart 1 3 "d1" [line_item 9 1]) "cart_created" "x2" "run")
    as [e2|] eqn:H2; [|vm_compute in H2; discriminate H2].
  assert (data e1 = data e2) as Heq.
  { vm_compute in H1, H2. injection H1 as <-. injection H2 as <-. reflexivity. }
  exists e1, e2. split; [reflexivity|]. split; [reflexivity|]. split; [exact Heq|].
  exact (proj1 (proj2 (event_payload_is_lossless _ _ _ _ _ _ _ _ _ _ e1 e2 H1 H2 Heq))).
Defined.


(** A batch of which the broker refuses one event. *)
Lemma acknowledged_event_is_sent_once_witness :
  ∃ w' calls,
    publish_events (λ _, None) sample_broker (λ _, "ts") (λ _, true) sample_disk
      (Some "topic")
      [sample_event "good"; sample_event "bad"; sample_event "good"] (World [] [] [] 0)
    = (w', Ok (Stats 2 1 1))
    ∧ w_calls w' = [] ++ calls
    ∧ count_occ message_eq_dec calls (make_message (λ _, None) "topic" (sample_event "good"))
      = 2%nat
    ∧ sample_event "good" ∉ map snd (w_dead_letter w').
Proof.
  destruct (acknowledged_event_is_sent_once (λ _, None) sample_broker (λ _, "ts")
              (λ _, true) sample_disk "topic"
              [sample_event "good"; sample_event "bad"; sample_event "good"]
              (sample_event "good") (World [] [] [] 0))
    as (w' & r & calls & dl & Hrun & Hcalls & Hdl & Hnot & _ & Hocc & _).
  - intros h. reflexivity.
  - exists w', calls. pose proof Hrun as Hrun'. vm_compute in Hrun'.
    injection Hrun' as <- <-. split; [exact Hrun|]. split; [exact Hcalls|].
    split; [exact (Hocc _ eq_refl)|]. rewrite Hdl. exact Hnot.
Defined.

(** The same batch when the dead-letter directory cannot be made: the
    second [good] event is never sent. *)
Lemma mkdir_error_ends_the_batch_witness :
  publish_events (λ _, None) sample_broker (λ _, "ts") (λ _, false) sample_disk
    (Some "topic")
    [sample_event "good"; sample_event "bad"; sample_event "good"] (World [] [] [] 0)
  = (World (make_message (λ _, None) "topic" (sample_event "good")
            :: replicate 4 (make_message (λ _, None) "topic" (sample_event "bad")))
       [2; 4; 8] [] 0,
     Raise OSError).
Proof.
  apply (mkdir_error_ends_the_batch (λ _, None) sample_broker (λ _, "ts") (λ _, false)
           sample_disk "topic" [sample_event "good"] (sample_event "bad")
           [sample_event "good"] (World [] [] [] 0)).
  - intros x Hx h. apply list_elem_of_singleton in Hx as ->. reflexivity.
  - intros h. reflexivity.
  - reflexivity.
Defined.

(** A warm poll on a feed with one known and one new cart. *)
Lemma detection_partitions_the_fetch_witness :
  ∃ st' ch,
    compare_and_detect_changes (λ _, "now") elements sample_state sample_feed = (st', Ok ch)
    ∧ new_carts ch ++ modified_carts ch ++ unchanged_carts ch ≡ₚ sample_feed.
Proof.
  destruct (compare_and_detect_changes (λ _, "now") elements sample_state sample_feed)
    as [st' [ch|]] eqn:H; [|vm_compute in H; discriminate H].
  exists st', ch. split; [reflexivity|].
  exact (proj1 (proj2 (detection_partitions_the_fetch _ _ _ _ _ _ H))).
Defined.

Lemma cold_start_keeps_the_last_duplicate_witness :
  ∃ st',
    compare_and_detect_changes (λ _, "now") elements (create_empty_state "t0")
      [sample_cart 1 3 "d1" []; sample_cart 1 4 "d2" []]
    = (st', Ok (Changes [sample_cart 1 3 "d1" []; sample_cart 1 4 "d2" []] [] [] [] true))
    ∧ carts st' !! "1" = Some (sample_entry 4 "d2" []).
Proof.
  destruct (cold_start_keeps_the_last_duplicate (λ _, "now") elements
              (create_empty_state "t0") [sample_cart 1 3 "d1" []; sample_cart 1 4 "d2" []]
              ["1"; "1"])
    as (st' & Hrun & Hlast).
  - reflexivity.
  - reflexivity.
  - repeat constructor; eexists; reflexivity.
  - exists st'. split; [exact Hrun|].
    destruct (Hlast 1%nat (sample_cart 1 4 "d2" []) "1" eq_refl eq_refl)
      as (d & u & Hd & Hu & Hst).
    { intros [|[|j]] Hj; simpl; [lia|lia|discriminate]. }
    injection Hd as <-. injection Hu as <-. exact Hst.
Defined.

Lemma warm_poll_created_witness :
  ∃ st' ch,
    compare_and_detect_changes (λ _, "now") elements sample_state sample_feed = (st', Ok ch)
    ∧ sample_cart 4 2 "d2" [] ∈ new_carts ch
    ∧ carts st' !! "4" = Some (sample_entry 2 "d2" []).
Proof.
  destruct (warm_poll_created (λ _, "now") elements (λ X, Permutation_refl _) sample_state
              sample_feed ["1"; "4"])
    as (st' & ch & Hrun & Hall).
  - discriminate.
  - reflexivity.
  - apply (bool_decide_unpack _). reflexivity.
  - repeat constructor.
  - apply (bool_decide_unpack _). reflexivity.
  - exists st', ch. split; [exact Hrun|].
    destruct (Hall 1%nat (sample_cart 4 2 "d2" []) "4" eq_refl eq_refl eq_refl)
      as (Hnew & d & u & Hd & Hu & Hst).
    injection Hd as <-. injection Hu as <-. split; [exact Hnew|exact Hst].
Defined.

Lemma detection_is_idempotent_witness :
  ∃ st1 ch1,
    compare_and_detect_changes (λ _, "now") elements sample_state sample_feed = (st1, Ok ch1)
    ∧ compare_and_detect_changes (λ _, "later") elements (touch_metadata "t2" st1) sample_feed
      = (touch_metadata "t2" st1, Ok (Changes [] [] [] sample_feed false)).
Proof.
  apply (detection_is_idempotent (λ _, "now") (λ _, "later") elements
           (λ X, Permutation_refl _) sample_state sample_feed ["1"; "4"] "t2").
  - discriminate.
  - reflexivity.
  - apply (bool_decide_unpack _). reflexivity.
  - repeat constructor.
  - repeat constructor.
  - apply (bool_decide_unpack _). reflexivity.
Defined.

(** A feed whose only record has no id. *)
Lemma missing_id_ends_the_loop_witness :
  poll_cycle (λ _, Fetched [[("userId", JInt 1)]]) elements (λ _, "c") (λ _, None)
    sample_broker (λ _, "ts") (λ _, true) sample_disk (λ _, "{}") (Some "topic") "run" 60
    (sample_turn "t1") sample_state sample_outside
  = (sample_state, Outside (Net 1 []) (Local [] 0) (World [] [] [] 0) ∅ [],
     Dies (Some (KeyError "id"))).
Proof.
  apply (missing_id_ends_the_loop (λ _, Fetched [[("userId", JInt 1)]]) elements (λ _, "c")
           (λ _, None) sample_broker (λ _, "ts") (λ _, true) sample_disk (λ _, "{}")
           (Some "topic") "run" 60
           (sample_turn "t1") sample_state sample_outside [[("userId", JInt 1)]] (Net 1 [])).
  - reflexivity.
  - exists [("userId", JInt 1)]. split; [left|reflexivity].
Defined.



(** No state file. *)
Lemma lost_snapshot_replays_the_feed_witness :
  start_run (λ _, Corrupted) "t0" "run" ∅ = Some (State ∅ (Metadata "t0" None 0 (Some "run")))
  ∧ ∃ st', compare_and_detect_changes (λ _, "now") elements
             (State ∅ (Metadata "t0" None 0 (Some "run"))) sample_feed
           = (st', Ok (Changes sample_feed [] [] [] true))
      ∧ dom (carts st') = list_to_set ["1"; "4"].
Proof.
  apply (lost_snapshot_replays_the_feed (λ _, Corrupted) (λ _, "now") elements "t0" "run" ∅
           sample_feed ["1"; "4"]).
  - intros content Hc. reflexivity.
  - reflexivity.
  - repeat constructor; eexists; reflexivity.
Defined.
